(** * manga-dex-downloader: a shallow embedding of the three tools

    The development follows the three Python sources of the repository:
    - [chapter_combiner_external.py]  (module [Combiner]),
    - [downloader.py]                 (module [Downloader]),
    - [splitter.py]                   (module [Splitter]).

    Conventions of the embedding.
    - A Python [str] is a [string]; its characters are read as the code
      points 0..255, and [<] on [str] is the code-point-wise lexicographic
      order ([String.ltb]).
    - A [dict] and a directory (names to contents) are [gmap string _]; a
      [set] of strings is a [gset string].
    - A ZIP archive is the list of its entries in central-directory order.
    - A Python function that can raise returns a [result]; [print] appends a
      structured [message] to a log.
    - [list.sort] / [sorted] are stable; they are embedded as a stable
      insertion sort that only uses the strict comparison on keys. *)

From Stdlib Require Import ZArith NArith QArith Lia Bool Ascii String.
From Stdlib Require Import DecimalString DecimalPos DecimalZ Sorting.Sorted.
From stdpp Require Import base option list gmap strings sorting.

Local Open Scope Z_scope.

(** ** Python values shared by the three tools *)

Module Py.

(** Exceptions; [KeyboardInterrupt] is the one raised value that is not
    an instance of [Exception]. *)
Inductive exn : Type :=
| KeyError (key : string)
| ValueError (what : string)
| TypeError (what : string)
| OverflowError
| EOFError
| Exception (msg : string)
| KeyboardInterrupt.

Definition isinstance_Exception (e : exn) : bool :=
  match e with KeyboardInterrupt => false | _ => true end.

Inductive result (A : Type) : Type :=
| Ok (a : A)
| Raise (e : exn).
Arguments Ok {A} a.
Arguments Raise {A} e.

Definition bind {A B} (r : result A) (k : A -> result B) : result B :=
  match r with Ok a => k a | Raise e => Raise e end.

(** [s1 < s2] on [str]. *)
Definition str_lt (s1 s2 : string) : bool := String.ltb s1 s2.

(** Stable sort with a key, using only [<] on keys (as [list.sort]). *)
Section Sorted.
Context {A K : Type} (lt : K -> K -> bool) (key : A -> K).

Fixpoint insert_sorted (x : A) (l : list A) : list A :=
  match l with
  | [] => [x]
  | y :: l' =>
      if lt (key y) (key x) then y :: insert_sorted x l'
      else x :: y :: l'
  end.

Definition sorted_by (l : list A) : list A := foldr insert_sorted [] l.
End Sorted.

(** [sorted(l)] for a list of [str]. *)
Definition sorted (l : list string) : list string := sorted_by str_lt id l.

(** [str(n)] for an [int]. *)
Definition str_of_int (n : Z) : string := NilEmpty.string_of_int (Z.to_int n).

(** [os.path.join(a, b)] (POSIX). *)
Definition endswith_slash (a : string) : bool :=
  match rev (list_ascii_of_string a) with
  | c :: _ => Ascii.eqb c "/"
  | [] => false
  end.

Definition os_path_join (a b : string) : string :=
  match b with
  | String "/" _ => b
  | _ => if orb (String.eqb a "") (endswith_slash a) then a +:+ b
         else a +:+ "/" +:+ b
  end.

(** [f"{n:0{width}d}"] for an [int]: the sign, then zeros up to [width]
    characters in all; a longer number is printed in full. *)
Definition zfill (width : nat) (digits : string) : string :=
  string_of_list_ascii (replicate (width - String.length digits) "0"%char) +:+ digits.

Definition format_0d (width : nat) (n : Z) : string :=
  if n <? 0 then "-" +:+ zfill (width - 1) (str_of_int (- n))
  else zfill width (str_of_int n).

(** Characters: the classes of decimal digits and of white space of [re]
    on the code points 0..255, and [str.lower]. *)
Definition is_digit (c : ascii) : bool :=
  let n := nat_of_ascii c in (48 <=? n)%nat && (n <=? 57)%nat.

Definition is_space (c : ascii) : bool :=
  let n := nat_of_ascii c in
  ((9 <=? n)%nat && (n <=? 13)%nat) || ((28 <=? n)%nat && (n <=? 32)%nat)
  || (n =? 133)%nat || (n =? 160)%nat.

Definition lower_char (c : ascii) : ascii :=
  let n := nat_of_ascii c in
  if ((65 <=? n)%nat && (n <=? 90)%nat)
     || ((192 <=? n)%nat && (n <=? 222)%nat && negb (n =? 215)%nat)
  then ascii_of_nat (n + 32) else c.

Fixpoint lower (s : string) : string :=
  match s with
  | EmptyString => EmptyString
  | String c s' => String (lower_char c) (lower s')
  end.

(** [s.endswith(suffix)] *)
Definition endswith (s suffix : string) : bool :=
  let n := String.length s in
  let k := String.length suffix in
  (k <=? n)%nat && String.eqb (String.substring (n - k) k s) suffix.

(** Value of a string of decimal digits, as [int(s)] reads it. *)
Definition digit_value (c : ascii) : Z := Z.of_nat (nat_of_ascii c) - 48.

Definition digits_value (s : string) : Z :=
  fold_left (fun acc c => 10 * acc + digit_value c) (list_ascii_of_string s) 0.

Definition all_digits (s : string) : bool := forallb is_digit (list_ascii_of_string s).

(** [int(s)] on a non-empty string of decimal digits; the program passes
    nothing else (the text of a group of digits). *)
Definition int_of_str (s : string) : result Z :=
  if all_digits s && negb (String.eqb s "") then Ok (digits_value s)
  else Raise (ValueError s).

(** [s.rfind(c)] for a character: the index of the last occurrence, or -1. *)
Fixpoint rfind_from (c : ascii) (s : string) (i : Z) (last : Z) : Z :=
  match s with
  | EmptyString => last
  | String a s' => rfind_from c s' (i + 1) (if Ascii.eqb a c then i else last)
  end.

Definition rfind (c : ascii) (s : string) : Z := rfind_from c s 0 (-1).

(** [s[i:j]] for [0 <= i <= j]. *)
Definition slice (i j : Z) (s : string) : string :=
  String.substring (Z.to_nat i) (Z.to_nat (j - i)) s.

(** [os.path.splitext(p)] (POSIX): the extension starts at the last dot
    of the last component, unless only dots precede it there. *)
Definition splitext (p : string) : string * string :=
  let sepIndex := rfind "/" p in
  let dotIndex := rfind "." p in
  if (sepIndex <? dotIndex)
     && existsb (fun c => negb (Ascii.eqb c "."))
                (list_ascii_of_string (slice (sepIndex + 1) dotIndex p))
  then (slice 0 dotIndex p, slice dotIndex (Z.of_nat (String.length p)) p)
  else (p, EmptyString).

(** [os.path.basename(p)] (POSIX). *)
Definition basename (p : string) : string :=
  slice (rfind "/" p + 1) (Z.of_nat (String.length p)) p.

(** [os.listdir(d)] of a directory held as a map.  The order in which a
    file system lists names is unspecified; every use below sorts the
    listing. *)
Definition listdir {V : Type} (d : gmap string V) : list string :=
  map fst (map_to_list d).

End Py.

Import Py.

(** ** Python [float]: IEEE-754 binary64

    A finite float is represented by its exact value, a rational in lowest
    terms; the sign of zero is not represented (nothing here depends on
    it).  Every operation rounds its exact result to the nearest binary64
    value, ties to even, as the hardware and [float(str)] do. *)

Module PyFloat.

Inductive float : Type :=
| Finite (q : Q)
| PosInf
| NegInf
| NaN.

(** Nearest binary64 to the positive rational [n / d]: the significand
    [m] and exponent [e] of [m * 2^e], with [m <= 2^53] and
    [e >= -1074] (subnormal range). *)
Definition scale (n d e : Z) : Z * Z :=
  if 0 <=? e then (n, d * 2 ^ e) else (n * 2 ^ (- e), d).

Definition round_half_even (n d : Z) : Z :=
  let q := n / d in
  let r := n mod d in
  match 2 * r ?= d with
  | Lt => q
  | Gt => q + 1
  | Eq => if Z.even q then q else q + 1
  end.

Definition nearest_binary64 (n d : Z) : Z * Z :=
  let e0 := Z.log2 n - Z.log2 d - 53 in
  let '(n0, d0) := scale n d e0 in
  let e1 := if n0 / d0 <? 2 ^ 53 then e0 else e0 + 1 in
  let e := Z.max e1 (-1074) in
  let '(n', d') := scale n d e in
  (round_half_even n' d', e).

Definition round_pos (n d : Z) : float :=
  let '(m, e) := nearest_binary64 n d in
  if 0 <=? e
  then (if 2 ^ 1024 <=? m * 2 ^ e then PosInf else Finite (inject_Z (m * 2 ^ e)))
  else Finite (Qred (Qmake m (Z.to_pos (2 ^ (- e))))).

Definition neg (x : float) : float :=
  match x with
  | Finite q => Finite (Qred (- q))
  | PosInf => NegInf
  | NegInf => PosInf
  | NaN => NaN
  end.

(** Rounding of an exact rational result. *)
Definition round (q : Q) : float :=
  match Qnum q with
  | Z0 => Finite 0
  | Zpos n => round_pos (Zpos n) (Zpos (Qden q))
  | Zneg n => neg (round_pos (Zpos n) (Zpos (Qden q)))
  end.

(** [float(n)] for an [int] that is in range (the program only converts
    the literal 1024). *)
Definition of_int (n : Z) : float := round (inject_Z n).

(** [float(s)] on the unsigned decimal literals [digits], [digits.] and
    [digits.digits].  The combiner passes nothing else to it, and the
    chapter labels of the catalog have this form; the other spellings
    [float] accepts (sign, exponent, surrounding white space, underscores,
    inf, nan) are not covered: such a string is rejected here. *)
Fixpoint split_dot (s : string) : string * option string :=
  match s with
  | EmptyString => (EmptyString, None)
  | String c s' =>
      if Ascii.eqb c "." then (EmptyString, Some s')
      else let '(a, b) := split_dot s' in (String c a, b)
  end.

Definition of_str (s : string) : result float :=
  let '(int_part, rest) := split_dot s in
  let frac_part := default EmptyString rest in
  if all_digits int_part && all_digits frac_part
     && negb (String.eqb int_part "")
  then Ok (round (Qmake (digits_value (int_part +:+ frac_part))
                        (Z.to_pos (10 ^ Z.of_nat (String.length frac_part)))))
  else Raise (ValueError s).

Definition Qltb (p q : Q) : bool := negb (Qle_bool q p).

(** [x < y] *)
Definition ltb (x y : float) : bool :=
  match x, y with
  | NaN, _ | _, NaN => false
  | _, NegInf => false
  | NegInf, _ => true
  | PosInf, _ => false
  | Finite _, PosInf => true
  | Finite p, Finite q => Qltb p q
  end.

(** [bool(x)]: only zero is false. *)
Definition truthy (x : float) : bool :=
  match x with
  | Finite q => negb (Qeq_bool q 0)
  | _ => true
  end.

(** [int(x)]: truncation toward zero. *)
Definition to_int (x : float) : result Z :=
  match x with
  | Finite q => Ok (Z.quot (Qnum q) (Zpos (Qden q)))
  | PosInf | NegInf => Raise OverflowError
  | NaN => Raise (ValueError "cannot convert float NaN to integer")
  end.

(** [x * y] *)
Definition mul (x y : float) : float :=
  match x, y with
  | NaN, _ | _, NaN => NaN
  | Finite p, Finite q => round (p * q)
  | Finite p, PosInf | PosInf, Finite p =>
      if Qltb 0 p then PosInf
      else if Qltb p 0 then NegInf else NaN
  | Finite p, NegInf | NegInf, Finite p =>
      if Qltb 0 p then NegInf
      else if Qltb p 0 then PosInf else NaN
  | PosInf, PosInf | NegInf, NegInf => PosInf
  | PosInf, NegInf | NegInf, PosInf => NegInf
  end.

(** [f"{x:03.1f}"]: one decimal place, the exact value rounded half to
    even; the result always has three characters or more, so the zero
    padding adds nothing. *)
Definition format_1f_abs (q : Q) : string :=
  let n := round_half_even (Qnum q * 10) (Zpos (Qden q)) in
  str_of_int (n / 10) +:+ "." +:+ str_of_int (n mod 10).

Definition format_03_1f (x : float) : string :=
  match x with
  | Finite q => if Qltb q 0 then "-" +:+ format_1f_abs (- q) else format_1f_abs q
  | PosInf => "inf"
  | NegInf => "-inf"
  | NaN => "nan"
  end.

(** [float('inf')] *)
Definition inf : float := PosInf.

End PyFloat.

#[global] Instance result_ret : MRet result := fun A a => Ok a.
#[global] Instance result_bind : MBind result := fun A B k r => Py.bind r k.

(** ** The fragment of [re] the tools use

    Backtracking matcher with greedy quantifiers and numbered capturing
    groups, in continuation-passing style: [go r s caps k] matches [r] at
    the front of [s] and hands the rest of the string and the groups to
    [k]; a failure of [k] makes the matcher try its next alternative, as
    the [re] engine does. *)

Module Re.

Inductive regex : Type :=
| Eps
| Cls (p : ascii -> bool)      (* one character of a class *)
| Seq (r1 r2 : regex)
| Star (p : ascii -> bool)     (* c* on a class, greedy *)
| Plus (p : ascii -> bool)     (* c+ on a class, greedy *)
| Opt (r : regex)              (* r?, greedy *)
| Group (n : nat) (r : regex). (* capturing group number [n] *)

Definition chr (a : ascii) : ascii -> bool := Ascii.eqb a.
Definition either (a b : ascii) : ascii -> bool := fun c => Ascii.eqb a c || Ascii.eqb b c.

Fixpoint lit (s : string) : regex :=
  match s with
  | EmptyString => Eps
  | String c s' => Seq (Cls (chr c)) (lit s')
  end.

Definition seq (rs : list regex) : regex := foldr Seq Eps rs.

(** The text consumed between [s] and its suffix [s']. *)
Definition consumed (s s' : string) : string :=
  String.substring 0 (String.length s - String.length s') s.

(** A match object: the text of the groups that took part. *)
Definition Match : Type := gmap nat string.

Section Matcher.
Context {A : Type}.

Fixpoint star (p : ascii -> bool) (s : string) (k : string -> option A) : option A :=
  match s with
  | String c s' =>
      if p c then
        match star p s' k with
        | Some a => Some a
        | None => k s
        end
      else k s
  | EmptyString => k s
  end.

Fixpoint go (r : regex) (s : string) (caps : Match)
    (k : string -> Match -> option A) : option A :=
  match r with
  | Eps => k s caps
  | Cls p =>
      match s with
      | String c s' => if p c then k s' caps else None
      | EmptyString => None
      end
  | Seq r1 r2 => go r1 s caps (fun s' caps' => go r2 s' caps' k)
  | Star p => star p s (fun s' => k s' caps)
  | Plus p =>
      match s with
      | String c s' => if p c then star p s' (fun s'' => k s'' caps) else None
      | EmptyString => None
      end
  | Opt r' =>
      match go r' s caps k with
      | Some a => Some a
      | None => k s caps
      end
  | Group n r' => go r' s caps (fun s' caps' => k s' (<[n := consumed s s']> caps'))
  end.
End Matcher.

(** [re.match(r, s)] *)
Definition re_match (r : regex) (s : string) : option Match :=
  go r s ∅ (fun _ caps => Some caps).

(** [re.search(r, s)]: the match at the leftmost position that has one. *)
Fixpoint re_search (r : regex) (s : string) : option Match :=
  match re_match r s with
  | Some m => Some m
  | None =>
      match s with
      | String _ s' => re_search r s'
      | EmptyString => None
      end
  end.

(** [m.group(n)]; [None] when the group took no part in the match. *)
Definition group (m : Match) (n : nat) : option string := m !! n.

End Re.

(** ** chapter_combiner_external.py *)

Module Combiner.
Import Re.

(** The manga directory as [os.listdir] and [os.path.isdir] show it:
    the names in listing order, each a plain file or a directory with
    its own listing; what lies below a chapter directory's
    subdirectories is never visited. *)
Inductive entry : Type :=
| RegularFile (data : string)
| Subdirectory.

Inductive item : Type :=
| PlainFile
| Directory (listing : list (string * entry)).

Definition isdir (i : item) : bool :=
  match i with Directory _ => true | PlainFile => false end.

(** [float(s)] on the text of a group. *)
Definition float_of_group (g : option string) : result PyFloat.float :=
  match g with
  | Some s => PyFloat.of_str s
  | None => Raise (TypeError "float() argument must be a string or a real number")
  end.

Definition int_of_group (g : option string) : result Z :=
  match g with
  | Some s => int_of_str s
  | None => Raise (TypeError "int() argument must be a string or a real number")
  end.

(** The capturing group of a chapter number: digits, an optional dot,
    digits (possibly none). *)
Definition number_group : regex :=
  Group 1 (seq [Plus is_digit; Opt (Cls (chr ".")); Star is_digit]).

(** [pattern1] (line 59): [Cc] h \. \s* and the number group. *)
Definition pattern1 : regex :=
  seq [Cls (either "C" "c"); lit "h."; Star is_space; number_group].

(** [pattern2] (line 65): [Cc] hapter \s+ and the number group. *)
Definition pattern2 : regex :=
  seq [Cls (either "C" "c"); lit "hapter"; Plus is_space; number_group].

(** [pattern3] (line 71): [Vv] ol \. \d+ \s* [Cc] h \. \s* and the
    number group. *)
Definition pattern3 : regex :=
  seq [Cls (either "V" "v"); lit "ol."; Plus is_digit; Star is_space;
       Cls (either "C" "c"); lit "h."; Star is_space; number_group].

(** [pattern4] (line 77): [Vv] ol \. \s* (\d+) \s* [Ff] loor \s+ (\d+). *)
Definition pattern4 : regex :=
  seq [Cls (either "V" "v"); lit "ol."; Star is_space; Group 1 (Plus is_digit);
       Star is_space; Cls (either "F" "f"); lit "loor"; Plus is_space;
       Group 2 (Plus is_digit)].

(** [pattern5] (line 85): [Vv] ol \. \s* (\d+) \s* [Ee] xtra. *)
Definition pattern5 : regex :=
  seq [Cls (either "V" "v"); lit "ol."; Star is_space; Group 1 (Plus is_digit);
       Star is_space; Cls (either "E" "e"); lit "xtra"].

(** The bodies of the five [if match:] branches. *)
Definition rule_number (m : Match) : result (option PyFloat.float) :=
  x ← float_of_group (group m 1); Ok (Some x).

Definition rule_floor (m : Match) : result (option PyFloat.float) :=
  vol_num ← int_of_group (group m 1);
  floor_num ← int_of_group (group m 2);
  x ← PyFloat.of_str (str_of_int vol_num +:+ format_0d 3 floor_num);
  Ok (Some x).

Definition rule_extra (m : Match) : result (option PyFloat.float) :=
  vol_num ← int_of_group (group m 1);
  x ← PyFloat.of_str (str_of_int (vol_num + 1) +:+ "000");
  Ok (Some x).

(** [extract_chapter_number] *)
Definition extract_chapter_number (dirname : string) : result (option PyFloat.float) :=
  match re_search pattern1 dirname with
  | Some m => rule_number m
  | None =>
  match re_search pattern2 dirname with
  | Some m => rule_number m
  | None =>
  match re_search pattern3 dirname with
  | Some m => rule_number m
  | None =>
  match re_search pattern4 dirname with
  | Some m => rule_floor m
  | None =>
  match re_search pattern5 dirname with
  | Some m => rule_extra m
  | None => Ok None
  end end end end end.

(** [a or b] when [a] is a float or [None]. *)
Definition or_else (a : option PyFloat.float) (b : PyFloat.float) : PyFloat.float :=
  match a with
  | Some x => if PyFloat.truthy x then x else b
  | None => b
  end.

(** The [key] of line 103. *)
Definition sort_key (x : string) : result PyFloat.float :=
  k ← extract_chapter_number x; Ok (or_else k PyFloat.inf).

(** [get_chapter_directories] *)
Definition get_chapter_directories (manga_dir : list (string * item))
    : result (list string) :=
  let chapter_dirs := map fst (List.filter (fun it => isdir (snd it)) manga_dir) in
  keyed ← mapM (fun x => k ← sort_key x; Ok (k, x)) chapter_dirs;
  Ok (map snd (sorted_by PyFloat.ltb fst keyed)).

(** The scratch directory [temp_dir] is a map from the generated file
    names to the file contents. *)

Definition is_image (f : string) : bool :=
  let l := lower f in
  endswith l ".jpg" || endswith l ".jpeg" || endswith l ".png" || endswith l ".webp".

(** [shutil.copy2(os.path.join(chapter_dir, image_file), new_path)] *)
Definition copy2 (chapter_dir : list (string * entry)) (image_file new_name : string)
    (temp_dir : gmap string string) : result (gmap string string) :=
  match List.find (fun e => String.eqb (fst e) image_file) chapter_dir with
  | Some (_, RegularFile data) => Ok (<[new_name := data]> temp_dir)
  | Some (_, Subdirectory) => Raise (Exception "IsADirectoryError")
  | None => Raise (Exception "FileNotFoundError")
  end.

(** The loop of [process_chapter], [i] being the page index. *)
Fixpoint process_images (chapter_dir : list (string * entry)) (chapter_num_str : string)
    (i : Z) (image_files : list string) (temp_dir : gmap string string)
    : result (gmap string string) :=
  match image_files with
  | [] => Ok temp_dir
  | image_file :: rest =>
      let '(_, ext) := splitext image_file in
      let new_name := chapter_num_str +:+ "_" +:+ format_0d 3 i +:+ ext in
      temp_dir ← copy2 chapter_dir image_file new_name temp_dir;
      process_images chapter_dir chapter_num_str (i + 1) rest temp_dir
  end.

(** [process_chapter] *)
Definition process_chapter (chapter_dir : list (string * entry))
    (temp_dir : gmap string string) (chapter_num_str : string)
    : result (gmap string string) :=
  let image_files := sorted (List.filter is_image (map fst chapter_dir)) in
  process_images chapter_dir chapter_num_str 1 image_files temp_dir.

(** What [combine_chapters] prints. *)
Inductive message : Type :=
| FoundChapters (n : nat)
| WarningNoChapterNumber (chapter_dir_name : string).

Definition chapter_listing (manga_dir : list (string * item)) (name : string)
    : list (string * entry) :=
  match List.find (fun it => String.eqb (fst it) name) manga_dir with
  | Some (_, Directory listing) => listing
  | _ => []
  end.

(** Line 143: the chapter number formatted with 4 digits. *)
Definition chapter_num_str (chapter_num : PyFloat.float) : result string :=
  n ← PyFloat.to_int chapter_num; Ok (format_0d 4 n).

(** The loop of lines 134-146; the log is kept also when a step raises. *)
Fixpoint process_chapters (manga_dir : list (string * item)) (chapter_dirs : list string)
    (temp_dir : gmap string string) (log : list message)
    : list message * result (gmap string string) :=
  match chapter_dirs with
  | [] => (log, Ok temp_dir)
  | chapter_dir_name :: rest =>
      let chapter_path := chapter_listing manga_dir chapter_dir_name in
      match extract_chapter_number chapter_dir_name with
      | Raise e => (log, Raise e)
      | Ok None =>
          process_chapters manga_dir rest temp_dir
            (log ++ [WarningNoChapterNumber chapter_dir_name])
      | Ok (Some chapter_num) =>
          match (s ← chapter_num_str chapter_num;
                 process_chapter chapter_path temp_dir s) with
          | Raise e => (log, Raise e)
          | Ok temp_dir' => process_chapters manga_dir rest temp_dir' log
          end
      end
  end.

(** The archive written at [output_path]: names and contents of its
    entries, in the order of the calls of [output_cbz.write]. *)
Definition write_archive (temp_dir : gmap string string) : list (string * string) :=
  omap (fun file => data ← temp_dir !! file; Some (file, data))
       (sorted (listdir temp_dir)).

(** [combine_chapters] *)
Definition combine_chapters (manga_dir : list (string * item))
    : list message * result (list (string * string)) :=
  match get_chapter_directories manga_dir with
  | Raise e => ([], Raise e)
  | Ok [] => ([], Raise (Exception "No chapter directories found in the selected manga directory"))
  | Ok chapter_dirs =>
      let '(log, r) := process_chapters manga_dir chapter_dirs ∅
                         [FoundChapters (length chapter_dirs)] in
      (log, temp_dir ← r; Ok (write_archive temp_dir))
  end.

End Combiner.

(** ** downloader.py: the archive functions *)

Module Downloader.
Import Re.

(** A file of the manga folder: an archive with its entries (name and
    data, in central-directory order), a file that is no archive, or a
    directory of plain files. *)
Inductive fnode : Type :=
| Archive (entries : list (string * string))
| Data (data : string)
| Folder (files : gmap string string).

(** [zipfile.ZipFile(path, 'r').infolist()] *)
Definition open_zip (f : option fnode) : result (list (string * string)) :=
  match f with
  | Some (Archive entries) => Ok entries
  | Some (Data _) => Raise (Exception "BadZipFile")
  | Some (Folder _) => Raise (Exception "IsADirectoryError")
  | None => Raise (Exception "FileNotFoundError")
  end.

(** Line 402: Chapter_ (\d+) and optionally \. (\d+). *)
Definition chapter_file_pattern : regex :=
  seq [lit "Chapter_"; Group 1 (Plus is_digit);
       Opt (Seq (Cls (chr ".")) (Group 2 (Plus is_digit)))].

(** Line 489: Chapter_ and one group, \d+ \.? \d* . *)
Definition downloaded_pattern : regex :=
  seq [lit "Chapter_";
       Group 1 (seq [Plus is_digit; Opt (Cls (chr ".")); Star is_digit])].

(** The loop of [extract_chapter] over [zip_ref.infolist()]. *)
Fixpoint extract_files (chapter_num : string) (infolist : list (string * string))
    (temp_dir : gmap string string) : gmap string string :=
  match infolist with
  | [] => temp_dir
  | (filename, data) :: rest =>
      if String.eqb (lower filename) "metadata.txt"
      then extract_files chapter_num rest temp_dir
      else
        let base_name := basename filename in
        let '(name, ext) := splitext base_name in
        let new_name := chapter_num +:+ name +:+ ext in
        extract_files chapter_num rest (<[new_name := data]> temp_dir)
  end.

Definition group_or_zero (g : option string) : string :=
  match g with
  | Some s => if String.eqb s "" then "0" else s
  | None => "0"
  end.

(** [extract_chapter]; [chapter] is the file at [chapter_path]. *)
Definition extract_chapter (chapter_path : string) (chapter : option fnode)
    (temp_dir : gmap string string) : result (gmap string string) :=
  let chapter_name := fst (splitext (basename chapter_path)) in
  match re_match chapter_file_pattern chapter_name with
  | None => Raise (Exception ("Could not extract chapter number from filename: " +:+ chapter_name))
  | Some m =>
      main_num ← match group m 1 with
                 | Some g => int_of_str g
                 | None => Raise (TypeError "int() argument")
                 end;
      let decimal_part := group_or_zero (group m 2) in
      let chapter_num := format_0d 3 main_num +:+ "." +:+ decimal_part in
      infolist ← open_zip chapter;
      Ok (extract_files chapter_num infolist temp_dir)
  end.

(** The files [os.walk(chapter_temp_dir)] yields, written in sorted
    order without [metadata.txt]. *)
Definition add_chapter_files (chapter_temp_dir : gmap string string)
    : list (string * string) :=
  omap (fun file =>
          if String.eqb (lower file) "metadata.txt" then None
          else data ← chapter_temp_dir !! file; Some (file, data))
       (sorted (listdir chapter_temp_dir)).

(** The loop of lines 447-462: [temp_dir] maps the name of each chapter
    scratch directory to its files, [output_cbz] is the archive written
    so far; it stays on disk as it is when a chapter raises. *)
Fixpoint combine_loop (manga_dir : gmap string fnode) (chapter_files : list string)
    (temp_dir : gmap string (gmap string string)) (output_cbz : list (string * string))
    : list (string * string) * result unit :=
  match chapter_files with
  | [] => (output_cbz, Ok tt)
  | chapter_file :: rest =>
      let stem := fst (splitext chapter_file) in
      let chapter_temp_dir := default ∅ (temp_dir !! stem) in
      match extract_chapter chapter_file (manga_dir !! chapter_file) chapter_temp_dir with
      | Raise e => (output_cbz, Raise e)
      | Ok chapter_temp_dir =>
          combine_loop manga_dir rest (<[stem := chapter_temp_dir]> temp_dir)
                       (output_cbz ++ add_chapter_files chapter_temp_dir)
      end
  end.

(** [combine_chapters]: the entries of the archive written at
    [output_path], in write order ([None] when the archive is not even
    created), and how the call ends. *)
Definition combine_chapters (manga_dir : gmap string fnode)
    : option (list (string * string)) * result unit :=
  let chapter_files := sorted (List.filter (fun file => endswith file ".cbz")
                                           (listdir manga_dir)) in
  match chapter_files with
  | [] => (None, Raise (Exception "No chapter files found in the selected manga directory"))
  | _ => let '(output_cbz, r) := combine_loop manga_dir chapter_files ∅ [] in
         (Some output_cbz, r)
  end.

(** [chapter_key] of [get_chapter_files] *)
Definition chapter_key (filename : string) : result (Z * Z) :=
  match re_match chapter_file_pattern (fst (splitext filename)) with
  | Some m =>
      main_num ← match group m 1 with
                 | Some g => int_of_str g
                 | None => Raise (TypeError "int() argument")
                 end;
      decimal_part ← match group m 2 with
                     | Some g => if String.eqb g "" then Ok 0 else int_of_str g
                     | None => Ok 0
                     end;
      Ok (main_num, decimal_part)
  | None => Ok (0, 0)
  end.

Definition pair_lt (a b : Z * Z) : bool :=
  (fst a <? fst b) || ((fst a =? fst b) && (snd a <? snd b)).

(** [get_chapter_files] on the listing [os.listdir(manga_dir)]. *)
Definition get_chapter_files (listing : list string) : result (list string) :=
  let chapter_files := List.filter (fun file => endswith file ".cbz") listing in
  keyed ← mapM (fun f => k ← chapter_key f; Ok (k, f)) chapter_files;
  Ok (map snd (sorted_by pair_lt fst keyed)).

(** [get_downloaded_chapters] *)
Definition get_downloaded_chapters (output_base : gmap string fnode) : gset string :=
  foldl (fun downloaded file =>
           if endswith file ".cbz" && negb (endswith file "_combined.cbz")
           then match re_match downloaded_pattern file with
                | Some m => match group m 1 with
                            | Some g => {[ g ]} ∪ downloaded
                            | None => downloaded
                            end
                | None => downloaded
                end
           else downloaded)
        ∅ (listdir output_base).

(** *** [main]

    The functions of [downloader.py] that talk to the catalog are taken
    by their results: an [Env] holds what each call returns or raises.
    The file system is the map of the directories by path; the numeric
    download statistics are not represented. *)

(** [ch["attributes"].get("chapter", "0")]: the key may be missing, or
    hold JSON null. *)
Inductive chapter_attr : Type :=
| Absent
| Null
| Label (s : string).

Record chapter : Type := {
  ch_id : string;
  ch_chapter : chapter_attr;
  ch_scanlation_group : option string
}.

Record metadata : Type := { title : string; metadata_json : string }.

Record Env : Type := {
  downloads_dir : string;                        (* os.path.abspath("./downloads") *)
  search_manga : string -> result string;        (* the manga id *)
  get_manga_metadata : string -> result metadata;
  download_cover : string -> result (option string);
  check_chapter_availability : string -> result (list string);
  get_chapters : string -> result (list chapter);
  at_home : string -> result (list string);      (* the page names of a chapter *)
  fetch_page : string -> nat -> result string;   (* page i fetched and written *)
  rmtree_output_base : result unit               (* shutil.rmtree(output_base) *)
}.

Inductive message : Type :=
| FoundPrevious (chapters : list string)
| PleaseEnter123
| PleaseEnterYN
| DownloadCancelled
| SavedCover (cover_path : string)
| NoChaptersFound
| Skipping (chapter_title : string)
| Processing (chapter_title : string) (i total_chapters : nat)
| FailedToProcess (chapter_title : string) (e : exn)
| CombiningAll
| Done
| ErrorOccurred (e : exn)
| CleaningUp
| RemovedFolder (output_base : string)
| CleanupError (e : exn).

Record state : Type := {
  fs : gmap string (gmap string fnode);  (* the directories, by path *)
  stdin : list string;                   (* the lines still to be typed *)
  stdout : list message;
  output_base : option string;           (* the local variable, once bound *)
  download_calls : list string           (* ids passed to download_chapter *)
}.

Definition M (A : Type) : Type := state -> state * result A.

#[global] Instance M_ret : MRet M := fun A a st => (st, Ok a).
#[global] Instance M_bind : MBind M := fun A B k m st =>
  match m st with
  | (st', Ok a) => k a st'
  | (st', Raise e) => (st', Raise e)
  end.

Definition lift {A} (r : result A) : M A := fun st => (st, r).
Definition get_fs : M (gmap string (gmap string fnode)) := fun st => (st, Ok (fs st)).
Definition set_fs (f : gmap string (gmap string fnode)) : M unit := fun st =>
  ({| fs := f; stdin := stdin st; stdout := stdout st;
      output_base := output_base st; download_calls := download_calls st |}, Ok tt).
Definition print (m : message) : M unit := fun st =>
  ({| fs := fs st; stdin := stdin st; stdout := stdout st ++ [m];
      output_base := output_base st; download_calls := download_calls st |}, Ok tt).
Definition input : M string := fun st =>
  match stdin st with
  | [] => (st, Raise EOFError)
  | line :: rest =>
      ({| fs := fs st; stdin := rest; stdout := stdout st;
          output_base := output_base st; download_calls := download_calls st |}, Ok line)
  end.
Definition bind_output_base (path : string) : M unit := fun st =>
  ({| fs := fs st; stdin := stdin st; stdout := stdout st;
      output_base := Some path; download_calls := download_calls st |}, Ok tt).
Definition log_download (chapter_id : string) : M unit := fun st =>
  ({| fs := fs st; stdin := stdin st; stdout := stdout st;
      output_base := output_base st;
      download_calls := download_calls st ++ [chapter_id] |}, Ok tt).

(** Directory operations. *)
Definition read_dir (path : string) : M (gmap string fnode) :=
  f ← get_fs; mret (default ∅ (f !! path)).
Definition write_dir (path : string) (d : gmap string fnode) : M unit :=
  f ← get_fs; set_fs (<[path := d]> f).
(** [os.makedirs(path, exist_ok=True)] *)
Definition makedirs (path : string) : M unit :=
  d ← read_dir path; write_dir path d.
Definition write_file (dir name : string) (n : fnode) : M unit :=
  d ← read_dir dir; write_dir dir (<[name := n]> d).

(** A prompt repeated until [valid] accepts the line typed. *)
Fixpoint prompt_until (valid : string -> bool) (retry : message) (fuel : list string)
    : M string :=
  match fuel with
  | [] => input
  | _ :: fuel' =>
      choice ← input;
      if valid choice then mret choice
      else (_ ← print retry; prompt_until valid retry fuel')
  end.

Definition prompt (valid : string -> bool) (retry : message) : M string :=
  fun st => prompt_until valid retry (stdin st) st.

Definition is_chapter_cbz (file : string) : bool :=
  endswith file ".cbz" && negb (endswith file "_combined.cbz").

(** Lines 525-527 and 668-670: delete the per-chapter archives. *)
Definition remove_chapter_files (dir : string) : M unit :=
  d ← read_dir dir;
  write_dir dir (filter (fun kv => is_chapter_cbz (fst kv) = false) d).

(** [download_chapter]: the name of the image directory (inside
    [output_dir]) once all pages are written. *)
Fixpoint fetch_pages (env : Env) (chapter_id : string) (i : nat) (pages : list string)
    (image_dir : gmap string string) : gmap string string * result unit :=
  match pages with
  | [] => (image_dir, Ok tt)
  | _ :: rest =>
      match fetch_page env chapter_id i with
      | Raise e => (image_dir, Raise e)
      | Ok img_data =>
          fetch_pages env chapter_id (S i) rest
            (<[format_0d 3 (Z.of_nat i) +:+ ".jpg" := img_data]> image_dir)
      end
  end.

Definition download_chapter (env : Env) (chapter_id chapter_title output_dir : string)
    : M string :=
  _ ← log_download chapter_id;
  pages ← lift (at_home env chapter_id);
  d ← read_dir output_dir;
  image_dir ← match d !! chapter_title with
              | Some (Folder files) => mret files
              | Some _ => lift (Raise (Exception "FileExistsError"))
              | None => mret ∅
              end;
  let '(files, r) := fetch_pages env chapter_id 0 pages image_dir in
  _ ← write_file output_dir chapter_title (Folder files);
  _ ← lift r;
  mret chapter_title.

(** [create_cbz] followed by [shutil.rmtree(image_dir)]. *)
Definition create_cbz (output_dir image_dir cbz_name : string) (meta : metadata)
    : M unit :=
  d ← read_dir output_dir;
  match d !! image_dir with
  | Some (Folder files) =>
      let pages := omap (fun f => data ← files !! f; Some (f, data))
                        (sorted (listdir files)) in
      write_dir output_dir
        (delete image_dir
           (<[cbz_name := Archive (pages ++ [("metadata.txt", metadata_json meta)])]> d))
  | _ => lift (Raise (Exception "NotADirectoryError"))
  end.

(** [download_stats]: the chapters recorded and the scanlation groups,
    a [set] until line 656 turns it into a [list]. *)
Inductive groups : Type :=
| GroupSet (names : gset string)
| GroupList (names : list string).

Record stats : Type := { stats_chapters : list string; scanlation_groups : groups }.

Definition add_group (g : option string) (s : stats) : stats :=
  match g, scanlation_groups s with
  | Some name, GroupSet names =>
      {| stats_chapters := stats_chapters s;
         scanlation_groups := GroupSet ({[ name ]} ∪ names) |}
  | _, _ => s
  end.

(** [json.dump(download_stats, f)] after [open(stats_path, "w")]: the
    file is created, and a [set] inside the value is refused. *)
Definition save_stats (dir : string) (s : stats) : M unit :=
  _ ← write_file dir "download_stats.json" (Data "");
  match scanlation_groups s with
  | GroupSet _ => lift (Raise (TypeError "Object of type set is not JSON serializable"))
  | GroupList _ => mret tt
  end.

(** [chapter_number] and [chapter_title] of lines 593-595. *)
Definition chapter_number (ch : chapter) : option string :=
  match ch_chapter ch with
  | Absent => Some "0"
  | Null => None
  | Label s => Some s
  end.

Fixpoint replace_char (a b : ascii) (s : string) : string :=
  match s with
  | EmptyString => EmptyString
  | String c s' => String (if Ascii.eqb c a then b else c) (replace_char a b s')
  end.

Definition chapter_title (number : option string) : result string :=
  match number with
  | None => Raise (TypeError "float() argument must be a string or a real number")
  | Some s =>
      x ← PyFloat.of_str s;
      Ok (replace_char " " "_" ("Chapter_" +:+ PyFloat.format_03_1f x))
  end.

(** The body of the [try] of lines 604-645. *)
Definition process_chapter (env : Env) (meta : metadata) (dir : string) (ch : chapter)
    (title : string) (s : stats) : M stats :=
  image_dir ← download_chapter env (ch_id ch) title dir;
  _ ← create_cbz dir image_dir (title +:+ ".cbz") meta;
  let s := add_group (ch_scanlation_group ch) s in
  let s := {| stats_chapters := stats_chapters s ++ [title];
              scanlation_groups := scanlation_groups s |} in
  _ ← save_stats dir s;
  mret s.

(** [try: ... except Exception as e: print(...); raise] *)
Definition reporting {A} (title : string) (m : M A) : M A := fun st =>
  match m st with
  | (st', Raise e) =>
      if isinstance_Exception e
      then (fst (print (FailedToProcess title e) st'), Raise e)
      else (st', Raise e)
  | r => r
  end.

(** [chapter_number in downloaded_chapters] *)
Definition in_downloaded (number : option string) (downloaded_chapters : gset string)
    : bool :=
  match number with
  | Some n => bool_decide (n ∈ downloaded_chapters)
  | None => false
  end.

(** The loop of lines 589-649. *)
Fixpoint download_loop (env : Env) (meta : metadata) (dir : string)
    (downloaded_chapters : gset string) (total_chapters : nat)
    (i : nat) (chapters : list chapter) (s : stats) : M stats :=
  match chapters with
  | [] => mret s
  | ch :: rest =>
      let number := chapter_number ch in
      title ← lift (chapter_title number);
      if in_downloaded number downloaded_chapters
      then
        _ ← print (Skipping title);
        download_loop env meta dir downloaded_chapters total_chapters (S i) rest s
      else
        _ ← print (Processing title i total_chapters);
        s ← reporting title (process_chapter env meta dir ch title s);
        download_loop env meta dir downloaded_chapters total_chapters (S i) rest s
  end.

(** [sanitize_filename]: each of the characters less-than, greater-than,
    colon, double quote, slash, backslash, bar, question mark and star
    becomes an underscore, then dots and spaces are stripped from both
    ends. *)
Definition invalid_char (c : ascii) : bool :=
  existsb (Ascii.eqb c) (list_ascii_of_string "<>:/\|?*") || Ascii.eqb c (ascii_of_nat 34).

Fixpoint lstrip (s : string) : string :=
  match s with
  | String c s' => if Ascii.eqb c "." || Ascii.eqb c " " then lstrip s' else s
  | EmptyString => EmptyString
  end.

Definition reverse (s : string) : string :=
  string_of_list_ascii (rev (list_ascii_of_string s)).

Fixpoint sub_invalid (s : string) : string :=
  match s with
  | EmptyString => EmptyString
  | String c s' => String (if invalid_char c then "_"%char else c) (sub_invalid s')
  end.

Definition sanitize_filename (filename : string) : string :=
  reverse (lstrip (reverse (lstrip (sub_invalid filename)))).

(** Lines 557-672, once the resume question is settled. *)
Definition download_all (env : Env) (manga_id : string) (meta : metadata)
    (safe_title dir : string) (downloaded_chapters : gset string) : M unit :=
  chapters ← lift (get_chapters env manga_id);
  let total_chapters := length chapters in
  if bool_decide (total_chapters = 0%nat) then print NoChaptersFound
  else
    let s := {| stats_chapters := []; scanlation_groups := GroupSet ∅ |} in
    s ← download_loop env meta dir downloaded_chapters total_chapters 1 chapters s;
    let s := {| stats_chapters := stats_chapters s;
                scanlation_groups :=
                  match scanlation_groups s with
                  | GroupSet names => GroupList (elements names)
                  | GroupList names => GroupList names
                  end |} in
    _ ← save_stats dir s;
    _ ← print CombiningAll;
    d ← read_dir dir;
    let '(combined, r) := combine_chapters d in
    _ ← match combined with
        | Some entries => write_file dir (safe_title +:+ "_combined.cbz") (Archive entries)
        | None => mret tt
        end;
    _ ← lift r;
    _ ← remove_chapter_files dir;
    print Done.

(** The [try] block of [main], lines 496-672. *)
Definition main_try (env : Env) : M unit :=
  manga_name ← input;
  manga_id ← lift (search_manga env manga_name);
  meta ← lift (get_manga_metadata env manga_id);
  let safe_title := sanitize_filename (title meta) in
  let dir := os_path_join (downloads_dir env) safe_title in
  _ ← bind_output_base dir;
  _ ← makedirs dir;
  d ← read_dir dir;
  let downloaded_chapters := get_downloaded_chapters d in
  choice ← (if bool_decide (downloaded_chapters ≠ ∅)
            then
              _ ← print (FoundPrevious (sorted (elements downloaded_chapters)));
              prompt (fun c => bool_decide (c ∈ ["1"; "2"; "3"])) PleaseEnter123
            else mret "1");
  if String.eqb choice "3" then print DownloadCancelled
  else
    _ ← (if String.eqb choice "2" then remove_chapter_files dir else mret tt);
    let downloaded_chapters :=
      if String.eqb choice "2" then ∅ else downloaded_chapters in
    _ ← write_file dir "manga_metadata.json" (Data (metadata_json meta));
    d ← read_dir dir;
    _ ← (if bool_decide (is_Some (d !! "cover.jpg")) then mret tt
         else
           cover ← lift (download_cover env manga_id);
           match cover with
           | Some img_data =>
               _ ← write_file dir "cover.jpg" (Data img_data);
               print (SavedCover (os_path_join dir "cover.jpg"))
           | None => mret tt
           end);
    missing_chapters ← lift (check_chapter_availability env manga_id);
    choice ← (match missing_chapters with
              | [] => mret "y"
              | _ => c ← prompt (fun c => bool_decide (lower c ∈ ["y"; "n"])) PleaseEnterYN;
                     mret (lower c)
              end);
    if String.eqb choice "n" then print DownloadCancelled
    else download_all env manga_id meta safe_title dir downloaded_chapters.

(** The handler of lines 674-683. *)
Definition cleanup (env : Env) (e : exn) : M unit := fun st =>
  let st := fst (print CleaningUp (fst (print (ErrorOccurred e) st))) in
  match output_base st with
  | Some dir =>
      if bool_decide (is_Some (fs st !! dir)) then
        match rmtree_output_base env with
        | Ok _ =>
            let st := fst (set_fs (delete dir (fs st)) st) in
            (fst (print (RemovedFolder dir) st), Raise e)
        | Raise cleanup_error =>
            if isinstance_Exception cleanup_error
            then (fst (print (CleanupError cleanup_error) st), Raise e)
            else (st, Raise cleanup_error)
        end
      else (st, Raise e)
  | None => (st, Raise e)
  end.

(** [main] *)
Definition main (env : Env) : M unit := fun st =>
  match main_try env st with
  | (st', Raise e) =>
      if isinstance_Exception e then cleanup env e st' else (st', Raise e)
  | r => r
  end.

End Downloader.

(** ** splitter.py *)

Module Splitter.

(** [zipfile.ZipInfo]: the two fields the splitter reads. *)
Record ZipInfo : Type := { filename : string; file_size : N }.

(** A [zipfile.ZipFile] opened for reading: [infolist()]. *)
Definition ZipFile : Type := list ZipInfo.

Definition infolist (cbz : ZipFile) : list ZipInfo := cbz.
Definition namelist (cbz : ZipFile) : list string := map filename cbz.

(** [ZipFile.NameToInfo]: filled entry by entry, a later entry of the
    same name replaces the earlier one. *)
Definition NameToInfo (cbz : ZipFile) : gmap string ZipInfo :=
  foldl (fun m zi => <[filename zi := zi]> m) ∅ cbz.

Definition getinfo (cbz : ZipFile) (name : string) : result ZipInfo :=
  match NameToInfo cbz !! name with
  | Some zi => Ok zi
  | None => Raise (KeyError name)
  end.

(** [get_cbz_size] *)
Definition get_cbz_size (cbz : ZipFile) : Z :=
  foldl (fun total_size file_info => total_size + Z.of_N (file_size file_info))
        0 (infolist cbz).

(** An archive written by [split_cbz]: its path and, in write order, the
    entries added by [writestr(f, cbz.read(f))]; the size of such an
    entry is the length of the data read, [getinfo(f).file_size]. *)
Record OutCbz : Type := { out_path : string; out_entries : list ZipInfo }.

(** The local variables of the loop of [split_cbz], with the archives
    created so far. *)
Record split_state : Type := {
  current_part : Z;
  current_size : Z;
  current_files : list string;
  output_files : list string;
  created : list OutCbz
}.

(** [out_cbz.writestr(f, cbz.read(f))] for every [f] of [files]. *)
Fixpoint write_part (cbz : ZipFile) (files : list string) : result (list ZipInfo) :=
  match files with
  | [] => Ok []
  | f :: fs =>
      zi ← getinfo cbz f;
      rest ← write_part cbz fs;
      Ok ({| filename := f; file_size := file_size zi |} :: rest)
  end.

Definition part_path (output_dir base_name : string) (part : Z) : string :=
  os_path_join output_dir (base_name +:+ "_part" +:+ str_of_int part +:+ ".cbz").

(** Lines 79-84 and 96-100: create the archive of the current part. *)
Definition flush (cbz : ZipFile) (output_dir base_name : string)
    (st : split_state) : result split_state :=
  let output_path := part_path output_dir base_name (current_part st) in
  entries ← write_part cbz (current_files st);
  Ok {| current_part := current_part st;
        current_size := current_size st;
        current_files := current_files st;
        output_files := output_files st ++ [output_path];
        created := created st ++ [{| out_path := output_path; out_entries := entries |}] |}.

(** One iteration of [for file_name in files]. *)
Definition split_step (cbz : ZipFile) (output_dir base_name : string) (max_size : Z)
    (st : split_state) (file_name : string) : result split_state :=
  file_info ← getinfo cbz file_name;
  let file_size := Z.of_N (file_size file_info) in
  st ← (if (max_size <? current_size st + file_size)
            && negb (bool_decide (current_files st = []))
         then
           st' ← flush cbz output_dir base_name st;
           Ok {| current_part := current_part st' + 1;
                 current_size := 0;
                 current_files := [];
                 output_files := output_files st';
                 created := created st' |}
         else Ok st);
  Ok {| current_part := current_part st;
        current_size := current_size st + file_size;
        current_files := current_files st ++ [file_name];
        output_files := output_files st;
        created := created st |}.

Fixpoint split_loop (cbz : ZipFile) (output_dir base_name : string) (max_size : Z)
    (st : split_state) (files : list string) : result split_state :=
  match files with
  | [] => Ok st
  | file_name :: files' =>
      st' ← split_step cbz output_dir base_name max_size st file_name;
      split_loop cbz output_dir base_name max_size st' files'
  end.

(** [split_cbz]: [cbz] is the archive at [input_path], [base_name] is
    [Path(input_path).stem].  Returns [output_files] together with the
    archives created, in creation order. *)
Definition split_cbz (cbz : ZipFile) (base_name output_dir : string) (max_size : Z)
    : result (list string * list OutCbz) :=
  let files := sorted (namelist cbz) in
  st ← split_loop cbz output_dir base_name max_size
          {| current_part := 1; current_size := 0; current_files := [];
             output_files := []; created := [] |} files;
  st ← (if negb (bool_decide (current_files st = []))
         then flush cbz output_dir base_name st
         else Ok st);
  Ok (output_files st, created st).

(** *** [main] *)

(** What the tool is run with: the two command-line arguments, the files
    [os.walk] finds below the downloads directory (path, and the archive
    when the file is one), and the lines typed at the prompt, each as
    [int(...)] reads it ([None] when it raises [ValueError]). *)
Record Env : Type := {
  output_dir : string;
  max_size : PyFloat.float;
  walk : list (string * option ZipFile);
  typed : list (option Z)
}.

Inductive message : Type :=
| NoCbzFilesFound
| AvailableMangaFiles (cbz_files : list string)
| InvalidSelection
| PleaseEnterValidNumber
| NoSplittingNeeded (max_size : PyFloat.float)
| SplittingIntoParts (name : string)
| SplitComplete (output_files : list string).

(** [find_cbz_files] *)
Definition find_cbz_files (files : list (string * option ZipFile))
    : list (string * option ZipFile) :=
  List.filter (fun f => endswith (lower (basename (fst f))) ".cbz") files.

(** The prompt loop of [select_manga]. *)
Fixpoint select_loop {A} (cbz_files : list A) (typed : list (option Z))
    (log : list message) : list message * result (option A) :=
  match typed with
  | [] => (log, Raise EOFError)
  | None :: rest => select_loop cbz_files rest (log ++ [PleaseEnterValidNumber])
  | Some choice :: rest =>
      if (1 <=? choice) && (choice <=? Z.of_nat (length cbz_files))
      then (log, Ok (cbz_files !! Z.to_nat (choice - 1)))
      else select_loop cbz_files rest (log ++ [InvalidSelection])
  end.

(** [select_manga] *)
Definition select_manga (cbz_files : list (string * option ZipFile))
    (typed : list (option Z)) : list message * result (option (string * option ZipFile)) :=
  match cbz_files with
  | [] => ([NoCbzFilesFound], Ok None)
  | _ => select_loop cbz_files typed [AvailableMangaFiles (map fst cbz_files)]
  end.

(** [Path(p).stem] (POSIX, [p] without a trailing slash). *)
Definition path_stem (p : string) : string :=
  let name := basename p in
  let i := rfind "." name in
  if (0 <? i) && (i <? Z.of_nat (String.length name) - 1) then slice 0 i name
  else name.

Definition open_cbz (f : option ZipFile) : result ZipFile :=
  match f with
  | Some cbz => Ok cbz
  | None => Raise (Exception "BadZipFile")
  end.

(** [main]: the log, and the archives created. *)
Definition main (env : Env) : list message * result (list OutCbz) :=
  let k := PyFloat.of_int 1024 in
  match PyFloat.to_int (PyFloat.mul (PyFloat.mul (PyFloat.mul (max_size env) k) k) k) with
  | Raise e => ([], Raise e)
  | Ok max_size_bytes =>
      let cbz_files := find_cbz_files (walk env) in
      match select_manga cbz_files (typed env) with
      | (log, Raise e) => (log, Raise e)
      | (log, Ok None) => (log, Ok [])
      | (log, Ok (Some (selected_file, content))) =>
          if String.eqb selected_file "" then (log, Ok [])
          else
            match open_cbz content with
            | Raise e => (log, Raise e)
            | Ok cbz =>
                let original_size := get_cbz_size cbz in
                if original_size <=? max_size_bytes
                then (log ++ [NoSplittingNeeded (max_size env)], Ok [])
                else
                  let log := log ++ [SplittingIntoParts (basename selected_file)] in
                  match split_cbz cbz (path_stem selected_file) (output_dir env)
                                  max_size_bytes with
                  | Raise e => (log, Raise e)
                  | Ok (output_files, created) =>
                      (log ++ [SplitComplete output_files], Ok created)
                  end
            end
      end
  end.

End Splitter.

(** ** Text typed at a prompt *)

Module PyText.

(** The white space [int] skips around a number, on the code points
    0..255: the C class of space characters, and the two other code
    points that [str.isspace] accepts above 127. *)
Definition int_space (c : ascii) : bool :=
  let n := nat_of_ascii c in
  ((9 <=? n)%nat && (n <=? 13)%nat) || (n =? 32)%nat || (n =? 133)%nat || (n =? 160)%nat.

Fixpoint lstrip (p : ascii -> bool) (s : string) : string :=
  match s with
  | String c s' => if p c then lstrip p s' else s
  | EmptyString => EmptyString
  end.

Definition rstrip (p : ascii -> bool) (s : string) : string :=
  string_of_list_ascii (rev (list_ascii_of_string
    (lstrip p (string_of_list_ascii (rev (list_ascii_of_string s)))))).

(** [s.strip()] *)
Definition strip (s : string) : string := rstrip is_space (lstrip is_space s).

(** The digits of a decimal literal: underscores may stand between two
    digits, one at a time. *)
Fixpoint int_digits (after_digit : bool) (s : string) : option (list ascii) :=
  match s with
  | EmptyString => if after_digit then Some [] else None
  | String c s' =>
      if is_digit c then cons c <$> int_digits true s'
      else if Ascii.eqb c "_" && after_digit then int_digits false s'
      else None
  end.

(** [sys.get_int_max_str_digits()], as the interpreter starts. *)
Definition int_max_str_digits : nat := 4300.

(** [int(s)] for a [str]. *)
Definition int (s : string) : result Z :=
  let t := rstrip int_space (lstrip int_space s) in
  let '(negative, body) :=
    match t with
    | String "-" body => (true, body)
    | String "+" body => (false, body)
    | _ => (false, t)
    end in
  match int_digits false body with
  | Some digits =>
      if (length digits <=? int_max_str_digits)%nat
      then let n := digits_value (string_of_list_ascii digits) in
           Ok (if negative then - n else n)
      else Raise (ValueError "Exceeds the limit for integer string conversion")
  | None => Raise (ValueError "invalid literal for int() with base 10")
  end.

End PyText.

(** ** A console program

    A program that reads lines and prints messages while it changes a
    world [W].  The text of a prompt is not recorded. *)

Module Console.

Record state (W Msg : Type) : Type := {
  world : W;
  stdin : list string;      (* the lines still to be typed *)
  stdout : list Msg
}.
Arguments world {W Msg} _.
Arguments stdin {W Msg} _.
Arguments stdout {W Msg} _.

Definition M (W Msg A : Type) : Type := state W Msg -> state W Msg * result A.

#[global] Instance console_ret {W Msg} : MRet (M W Msg) := fun A a st => (st, Ok a).
#[global] Instance console_bind {W Msg} : MBind (M W Msg) := fun A B k m st =>
  match m st with
  | (st', Ok a) => k a st'
  | (st', Raise e) => (st', Raise e)
  end.

Section Console.
Context {W Msg : Type}.

Definition lift {A} (r : result A) : M W Msg A := fun st => (st, r).
Definition get_world : M W Msg W := fun st => (st, Ok (world st)).
Definition set_world (w : W) : M W Msg unit := fun st =>
  ({| world := w; stdin := stdin st; stdout := stdout st |}, Ok tt).
Definition print (m : Msg) : M W Msg unit := fun st =>
  ({| world := world st; stdin := stdin st; stdout := stdout st ++ [m] |}, Ok tt).
Definition print_all (ms : list Msg) : M W Msg unit := fun st =>
  ({| world := world st; stdin := stdin st; stdout := stdout st ++ ms |}, Ok tt).
(** [input(...)] *)
Definition input : M W Msg string := fun st =>
  match stdin st with
  | [] => (st, Raise EOFError)
  | line :: rest => ({| world := world st; stdin := rest; stdout := stdout st |}, Ok line)
  end.

(** A loop that is unrolled once for each line still to be typed. *)
Definition by_stdin {A} (loop : list string -> M W Msg A) : M W Msg A :=
  fun st => loop (stdin st) st.

End Console.
End Console.

(** ** [chapter_combiner_external.py]: the menu and [main] *)

Module CombinerMain.
Import PyText Console.

(** What the source directory holds under a name: a file (a combined
    archive once [combine_chapters] has written it) or a directory with
    its listing. *)
Inductive node : Type :=
| OtherFile
| Cbz (entries : list (string * string))
| Folder (listing : list (string * Combiner.item)).

(** What a path names: something that is no directory, or a directory
    with its content by name. *)
Inductive place : Type :=
| NotDirectory
| Dir (content : gmap string node).

Inductive message : Type :=
| DefaultDirectory (default_source_dir : string)
| AvailableManga
| MenuEntry (i : nat) (manga : string) (is_combined : bool)
| InvalidChoice
| EnterValidNumber
| EnterYN
| SkippingManga
| CombiningChapters (selected_manga : string)
| Progress (m : Combiner.message)
| Created (output_filename : string)
| Goodbye
| Error (e : exn).

Abbreviation M := (Console.M (gmap string place) message).

Definition default_source_dir : string := "C:\Users\Rhaz\Documents\Mangas".

(** [os.path.exists(path)] *)
Definition exists_path (path : string) : M bool :=
  w ← get_world; mret (negb (String.eqb path "") && bool_decide (is_Some (w !! path))).

Section Main.
(** The order in which [os.listdir] gives the names of a directory. *)
Context (listdir : gmap string node -> list string).

(** [get_manga_directories] *)
Definition get_manga_directories (source_dir : option place) : result (list (string * bool)) :=
  match source_dir with
  | None => Raise (Exception "FileNotFoundError")
  | Some NotDirectory => Raise (Exception "NotADirectoryError")
  | Some (Dir content) =>
      Ok (omap (fun item =>
                  match content !! item with
                  | Some (Folder listing) =>
                      if existsb (fun subdir => Combiner.isdir (snd subdir)) listing
                      then Some (item, bool_decide (is_Some (content !! (item +:+ "_combined.cbz"))))
                      else None
                  | _ => None
                  end)
               (listdir content))
  end.

(** The loop of [select_manga], once for each line still to be typed. *)
Fixpoint select_loop (manga_dirs : list (string * bool)) (fuel : list string) : M string :=
  match fuel with
  | [] => _ ← input; lift (Raise EOFError)
  | _ :: fuel' =>
      choice ← input;
      if String.eqb (lower choice) "q"
      then lift (Raise (Exception "Operation cancelled by user"))
      else
        match int choice with
        | Ok choice =>
            if (1 <=? choice) && (choice <=? Z.of_nat (length manga_dirs))
            then match manga_dirs !! Z.to_nat (choice - 1) with
                 | Some (manga, _) => mret manga
                 | None => lift (Raise (Exception "IndexError"))
                 end
            else (_ ← print InvalidChoice; select_loop manga_dirs fuel')
        | Raise (ValueError _) => _ ← print EnterValidNumber; select_loop manga_dirs fuel'
        | Raise e => lift (Raise e)
        end
  end.

(** [select_manga] *)
Definition select_manga (manga_dirs : list (string * bool)) : M string :=
  match manga_dirs with
  | [] => lift (Raise (Exception "No manga directories found in the source directory"))
  | _ =>
      _ ← print AvailableManga;
      _ ← print_all (imap (fun i '(manga, is_combined) => MenuEntry (S i) manga is_combined)
                          manga_dirs);
      by_stdin (select_loop manga_dirs)
  end.

(** The question loops of lines 188-194, 206-212 and 221-227. *)
Fixpoint ask_loop (fuel : list string) : M string :=
  match fuel with
  | [] => _ ← input; lift (Raise EOFError)
  | _ :: fuel' =>
      line ← input;
      let choice := strip (lower line) in
      let choice := if String.eqb choice "" then "y" else choice in
      if bool_decide (choice ∈ ["y"; "n"]) then mret choice
      else (_ ← print EnterYN; ask_loop fuel')
  end.

Definition ask : M string := by_stdin ask_loop.

(** [combine_chapters(manga_dir, output_path)] on the directories of the
    source directory. *)
Definition combine_chapters (source_dir selected_manga output_filename : string) : M unit :=
  w ← get_world;
  match w !! source_dir with
  | Some (Dir content) =>
      match content !! selected_manga with
      | Some (Folder listing) =>
          let '(log, r) := Combiner.combine_chapters listing in
          _ ← print_all (map Progress log);
          archive ← lift r;
          match content !! output_filename with
          | Some (Folder _) => lift (Raise (Exception "IsADirectoryError"))
          | _ => set_world (<[source_dir := Dir (<[output_filename := Cbz archive]> content)]> w)
          end
      | Some _ => lift (Raise (Exception "NotADirectoryError"))
      | None => lift (Raise (Exception "FileNotFoundError"))
      end
  | Some NotDirectory => lift (Raise (Exception "NotADirectoryError"))
  | None => lift (Raise (Exception "FileNotFoundError"))
  end.

(** How a round of the loop of [main] ends. *)
Inductive outcome : Type :=
| Continue
| Break.

(** The [try] block, lines 175-216. *)
Definition attempt (source_dir : string) : M outcome :=
  w ← get_world;
  manga_dirs ← lift (get_manga_directories (w !! source_dir));
  selected_manga ← select_manga manga_dirs;
  let output_filename := selected_manga +:+ "_combined.cbz" in
  let output_path :=
    match w !! source_dir with
    | Some (Dir content) => content !! output_filename
    | _ => None
    end in
  skip ← (if bool_decide (is_Some output_path)
          then choice ← ask; mret (String.eqb choice "n")
          else mret false);
  if skip : bool then _ ← print SkippingManga; mret Continue
  else
    _ ← print (CombiningChapters selected_manga);
    _ ← combine_chapters source_dir selected_manga output_filename;
    _ ← print (Created output_filename);
    choice ← ask;
    if String.eqb choice "n" then _ ← print Goodbye; mret Break
    else mret Continue.

(** The handler, lines 218-231. *)
Definition handler (e : exn) : M outcome :=
  _ ← print (Error e);
  choice ← ask;
  if String.eqb choice "n" then _ ← print Goodbye; mret Break
  else mret Continue.

(** One round of the loop. *)
Definition round (source_dir : string) : M outcome := fun st =>
  match attempt source_dir st with
  | (st', Raise e) => if isinstance_Exception e then handler e st' else (st', Raise e)
  | r => r
  end.

(** The loop of lines 173-231.  A round that continues has read a line,
    so the loop is unrolled once for each line still to be typed and
    once more; the last round cannot continue. *)
Fixpoint main_loop (source_dir : string) (fuel : list string) : M unit :=
  o ← round source_dir;
  match o with
  | Break => mret tt
  | Continue =>
      match fuel with
      | [] => lift (Raise EOFError)
      | _ :: fuel' => main_loop source_dir fuel'
      end
  end.

(** [main] *)
Definition main : M unit :=
  _ ← print (DefaultDirectory default_source_dir);
  line ← input;
  let use_default := strip (lower line) in
  let use_default := if String.eqb use_default "" then "y" else use_default in
  source_dir ← (if String.eqb use_default "y" then mret default_source_dir
                else line ← input; mret (strip line));
  found ← exists_path source_dir;
  if found : bool then by_stdin (main_loop source_dir)
  else lift (Raise (Exception ("Source directory '" +:+ source_dir +:+ "' does not exist"))).

End Main.
End CombinerMain.

(** ** [downloader.py]: the chapters of the catalog

    [get_chapters] and [check_chapter_availability].  A chapter of the
    catalog is held with the fields the two functions read. *)

Module Catalog.
Import PyText Console.

(** An element of [chapter["relationships"]]: its ["type"], and the
    ["name"] of its ["attributes"] when it has that key. *)
Record relationship : Type := {
  rel_type : string;
  rel_attributes : option string
}.

Record chapter : Type := {
  chapter_id : string;
  attr_externalUrl : option string;          (* [None]: no key, or null *)
  attr_chapter : Downloader.chapter_attr;
  attr_pages : Z;
  attr_createdAt : string;
  attr_version : Z;                          (* [.get('version', 1)] *)
  relationships : list relationship
}.

(** The answer to a request for a page of chapters. *)
Record response : Type := {
  data : list chapter;
  total : Z
}.

(** How a request fails: with an instance of
    [requests.exceptions.RequestException] (of text [str(e)]), with a
    [json.JSONDecodeError] that is none, or with something else. *)
Inductive failure : Type :=
| RequestException (text : string)
| JSONDecodeError
| Uncaught (e : exn).

(** The exception as a caller without handler sees it. *)
Definition raised (f : failure) : exn :=
  match f with
  | RequestException text => Exception text
  | JSONDecodeError => ValueError "JSONDecodeError"
  | Uncaught e => e
  end.

(** The loop of lines 157-175 (and 335-352, 357-373): [get offset] is
    the answer to the request with that offset.  The loop goes on as long
    as the catalog promises more, so it is unrolled [fuel] times; [None]
    stands for a loop still running then. *)
Fixpoint collect (get : Z -> failure + response) (fuel : nat) (offset : Z)
    (chapters : list chapter) : option (failure + list chapter) :=
  match fuel with
  | O => None
  | S fuel' =>
      match get offset with
      | inl f => Some (inl f)
      | inr r =>
          let chapters := chapters ++ data r in
          if total r <=? Z.of_nat (length chapters) then Some (inr chapters)
          else collect get fuel' (offset + 100) chapters
      end
  end.

Inductive message : Type :=
| MultipleGroups
| GroupEntry (i : nat) (group : string)
| SelectedGroup (preferred_group : string)
| InvalidChoice
| EnterNumberOrEnter
| MultipleVersions (chapter_num : option string)
| VersionEntry (i : nat) (group_name : string) (pages : Z) (createdAt : string) (version : Z)
| SkippingChapter (chapter_num : option string)
| EnterNumberOrSkip
| NotAvailable (translated_language : string) (missing_chapters : list (option string)).

Abbreviation M := (Console.M unit message).

(** [chapter["attributes"].get("externalUrl")] as a condition. *)
Definition is_external (ch : chapter) : bool :=
  match attr_externalUrl ch with
  | Some url => negb (String.eqb url "")
  | None => false
  end.

(** [chapter["attributes"]["chapter"]] *)
Definition chapter_num (ch : chapter) : result (option string) :=
  match attr_chapter ch with
  | Downloader.Absent => Raise (KeyError "chapter")
  | Downloader.Null => Ok None
  | Downloader.Label s => Ok (Some s)
  end.

(** [chapter_groups], a dict: the keys in the order in which they were
    first stored. *)
Fixpoint add_version (chapter_num : option string) (ch : chapter)
    (chapter_groups : list (option string * list chapter))
    : list (option string * list chapter) :=
  match chapter_groups with
  | [] => [(chapter_num, [ch])]
  | (k, versions) :: rest =>
      if decide (k = chapter_num) then (k, versions ++ [ch]) :: rest
      else (k, versions) :: add_version chapter_num ch rest
  end.

(** Lines 178-186 *)
Fixpoint group_chapters (chapters : list chapter)
    (chapter_groups : list (option string * list chapter))
    : result (list (option string * list chapter)) :=
  match chapters with
  | [] => Ok chapter_groups
  | ch :: rest =>
      if is_external ch then group_chapters rest chapter_groups
      else
        chapter_num ← chapter_num ch;
        group_chapters rest (add_version chapter_num ch chapter_groups)
  end.

(** The names of the scanlation groups of a version, in the order of its
    relationships. *)
Definition group_names (version : chapter) : list string :=
  omap (fun rel =>
          if String.eqb (rel_type rel) "scanlation_group"
          then Some (default "Unknown" (rel_attributes rel))
          else None)
       (relationships version).

(** Lines 189-195 *)
Definition all_groups (chapter_groups : list (option string * list chapter)) : gset string :=
  list_to_set (concat (map group_names (concat (map snd chapter_groups)))).

(** The loop of lines 205-220. *)
Fixpoint preferred_loop (groups_list : list string) (fuel : list string)
    : M (option string) :=
  match fuel with
  | [] => _ ← input; lift (Raise EOFError)
  | _ :: fuel' =>
      choice ← input;
      if String.eqb (strip choice) "" then mret None
      else
        match int choice with
        | Ok choice =>
            if (1 <=? choice) && (choice <=? Z.of_nat (length groups_list))
            then match groups_list !! Z.to_nat (choice - 1) with
                 | Some preferred_group =>
                     _ ← print (SelectedGroup preferred_group); mret (Some preferred_group)
                 | None => lift (Raise (Exception "IndexError"))
                 end
            else (_ ← print InvalidChoice; preferred_loop groups_list fuel')
        | Raise (ValueError _) => _ ← print EnterNumberOrEnter; preferred_loop groups_list fuel'
        | Raise e => lift (Raise e)
        end
  end.

(** Lines 198-220 *)
Definition choose_group (all_groups : gset string) : M (option string) :=
  if bool_decide (1 < size all_groups)%nat then
    let groups_list := sorted (elements all_groups) in
    _ ← print MultipleGroups;
    _ ← print_all (imap (fun i group => GroupEntry (S i) group) groups_list);
    by_stdin (preferred_loop groups_list)
  else mret None.

(** Lines 228-239: the first version that has the preferred group. *)
Definition preferred_version (preferred_group : option string) (versions : list chapter)
    : option chapter :=
  match preferred_group with
  | Some g =>
      if String.eqb g "" then None
      else List.find (fun version => bool_decide (g ∈ group_names version)) versions
  | None => None
  end.

(** Lines 247-257 *)
Definition version_entry (i : nat) (version : chapter) : message :=
  VersionEntry (S i) (default "Unknown" (head (group_names version)))
               (attr_pages version) (attr_createdAt version) (attr_version version).

(** The loop of lines 259-273: the version chosen, or [None] for a
    chapter that is skipped. *)
Fixpoint version_loop (chapter_num : option string) (versions : list chapter)
    (fuel : list string) : M (option chapter) :=
  match fuel with
  | [] => _ ← input; lift (Raise EOFError)
  | _ :: fuel' =>
      choice ← input;
      if String.eqb (lower choice) "s"
      then _ ← print (SkippingChapter chapter_num); mret None
      else
        match int choice with
        | Ok choice =>
            if (1 <=? choice) && (choice <=? Z.of_nat (length versions))
            then match versions !! Z.to_nat (choice - 1) with
                 | Some version => mret (Some version)
                 | None => lift (Raise (Exception "IndexError"))
                 end
            else (_ ← print InvalidChoice; version_loop chapter_num versions fuel')
        | Raise (ValueError _) =>
            _ ← print EnterNumberOrSkip; version_loop chapter_num versions fuel'
        | Raise e => lift (Raise e)
        end
  end.

(** The body of the loop of lines 223-273 for one chapter number. *)
Definition select_version (preferred_group : option string) (chapter_num : option string)
    (versions : list chapter) : M (option chapter) :=
  match versions with
  | [version] => mret (Some version)
  | _ =>
      match preferred_version preferred_group versions with
      | Some version => mret (Some version)
      | None =>
          _ ← print (MultipleVersions chapter_num);
          _ ← print_all (imap version_entry versions);
          by_stdin (version_loop chapter_num versions)
      end
  end.

(** Lines 222-275 *)
Fixpoint select_chapters (preferred_group : option string)
    (chapter_groups : list (option string * list chapter)) (selected_chapters : list chapter)
    : M (list chapter) :=
  match chapter_groups with
  | [] => mret selected_chapters
  | (chapter_num, versions) :: rest =>
      choice ← select_version preferred_group chapter_num versions;
      select_chapters preferred_group rest
        (match choice with
         | Some version => selected_chapters ++ [version]
         | None => selected_chapters
         end)
  end.

(** [get_chapters], from line 177 on: [chapters] is what the requests
    have given. *)
Definition choose_chapters (chapters : list chapter) : M (list chapter) :=
  chapter_groups ← lift (group_chapters chapters []);
  preferred_group ← choose_group (all_groups chapter_groups);
  select_chapters preferred_group chapter_groups [].

(** [get_chapters] *)
Definition get_chapters (get : Z -> failure + response) (fuel : nat)
    : option (M (list chapter)) :=
  match collect get fuel 0 [] with
  | None => None
  | Some (inl f) => Some (lift (Raise (raised f)))
  | Some (inr chapters) => Some (choose_chapters chapters)
  end.

(** *** [check_chapter_availability] *)

(** [a < b] on chapter numbers, which are [str] or [None]. *)
Definition num_lt (a b : option string) : result bool :=
  match a, b with
  | Some x, Some y => Ok (str_lt x y)
  | _, _ => Raise (TypeError "'<' not supported between instances of 'NoneType' and 'str'")
  end.

(** [sorted] on chapter numbers: as [Py.sorted_by], with a comparison
    that can raise. *)
Fixpoint insert_num (x : option string) (l : list (option string))
    : result (list (option string)) :=
  match l with
  | [] => Ok [x]
  | y :: l' =>
      b ← num_lt y x;
      if b : bool then (r ← insert_num x l'; Ok (y :: r))
      else Ok (x :: y :: l')
  end.

Definition sorted_nums (l : list (option string)) : result (list (option string)) :=
  foldr (fun x acc => acc ← acc; insert_num x acc) (Ok []) l.

(** [{ch["attributes"]["chapter"] for ch in chapters}] *)
Definition chapter_nums (chapters : list chapter) : result (gset (option string)) :=
  nums ← mapM chapter_num chapters; Ok (list_to_set nums).

(** Lines 375-390: [chapters] and [all_chapters] are what the requests
    have given. *)
Definition missing_chapters (translated_language : string)
    (chapters all_chapters : list chapter) : M (list (option string)) :=
  translated_chapter_nums ← lift (chapter_nums chapters);
  all_chapter_nums ← lift (chapter_nums all_chapters);
  missing_chapters ← lift (sorted_nums (elements (all_chapter_nums ∖ translated_chapter_nums)));
  match missing_chapters with
  | [] => mret []
  | _ => _ ← print (NotAvailable translated_language missing_chapters); mret missing_chapters
  end.

(** The handlers of lines 392-395. *)
Definition handled (f : failure) : exn :=
  match f with
  | RequestException text => Exception ("Error checking chapter availability: " +:+ text)
  | JSONDecodeError => Exception "Error parsing response from MangaDex API"
  | Uncaught e => e
  end.

(** [check_chapter_availability]: [get] answers the requests for the
    chapters in the language, [get_all] those for the chapters in any. *)
Definition check_chapter_availability (get get_all : Z -> failure + response)
    (translated_language : string) (fuel : nat) : option (M (list (option string))) :=
  match collect get fuel 0 [] with
  | None => None
  | Some (inl f) => Some (lift (Raise (handled f)))
  | Some (inr chapters) =>
      match collect get_all fuel 0 [] with
      | None => None
      | Some (inl f) => Some (lift (Raise (handled f)))
      | Some (inr all_chapters) =>
          Some (missing_chapters translated_language chapters all_chapters)
      end
  end.

End Catalog.

(** * The vocabulary of the properties *)

(** ** A declarative reading of the patterns *)

Section RegexVocabulary.
Import Re.

(** [starts p s s']: [s'] is [s] without some leading characters of class [p]. *)
Inductive starts (p : ascii -> bool) : string -> string -> Prop :=
| starts_nil s : starts p s s
| starts_cons c s s' : p c = true -> starts p s s' -> starts p (String c s) s'.

(** [matches r s caps s' caps']: [r] can match a prefix of [s] leaving [s'],
    taking the groups from [caps] to [caps'] (whatever the priorities). *)
Inductive matches : regex -> string -> Match -> string -> Match -> Prop :=
| M_Eps s c : matches Eps s c s c
| M_Cls p a s c : p a = true -> matches (Cls p) (String a s) c s c
| M_Seq r1 r2 s c s1 c1 s2 c2 :
    matches r1 s c s1 c1 -> matches r2 s1 c1 s2 c2 -> matches (Seq r1 r2) s c s2 c2
| M_Star p s c s' : starts p s s' -> matches (Star p) s c s' c
| M_Plus p a s c s' : p a = true -> starts p s s' -> matches (Plus p) (String a s) c s' c
| M_Opt_some r s c s' c' : matches r s c s' c' -> matches (Opt r) s c s' c'
| M_Opt_none r s c : matches (Opt r) s c s c
| M_Group n r s c s' c' :
    matches r s c s' c' -> matches (Group n r) s c s' (<[n := consumed s s']> c').

(** [t] is what is left of [s] after some prefix. *)
Definition suffix_of (t s : string) : Prop := exists pre, s = pre +:+ t.

(** A pattern without groups leaves the groups as they are. *)
Fixpoint no_groups (r : regex) : bool :=
  match r with
  | Eps | Cls _ | Star _ | Plus _ => true
  | Seq r1 r2 => no_groups r1 && no_groups r2
  | Opt r' => no_groups r'
  | Group _ _ => false
  end.

End RegexVocabulary.

(** ** The rules of the extractor *)



(** [extract_chapter_number] with its third rule (lines 70-74) deleted. *)
Definition extract_chapter_number_without_rule3 (dirname : string)
    : result (option PyFloat.float) :=
  match Re.re_search Combiner.pattern1 dirname with
  | Some m => Combiner.rule_number m
  | None =>
  match Re.re_search Combiner.pattern2 dirname with
  | Some m => Combiner.rule_number m
  | None =>
  match Re.re_search Combiner.pattern4 dirname with
  | Some m => Combiner.rule_floor m
  | None =>
  match Re.re_search Combiner.pattern5 dirname with
  | Some m => Combiner.rule_extra m
  | None => Ok None
  end end end end.

(** ** What the directory combiner is expected to write *)

Section CombinerVocabulary.
Import Combiner.

(** The integer [int(chapter_num)] a chapter directory is filed under. *)
Definition chapter_int (name : string) : option Z :=
  match extract_chapter_number name with
  | Ok (Some k) => match PyFloat.to_int k with Ok n => Some n | Raise _ => None end
  | _ => None
  end.

(** The extractor finds a chapter number in the name. *)
Definition parses (name : string) : bool :=
  match extract_chapter_number name with Ok (Some _) => true | _ => false end.

(** The images of a chapter directory, in page order, and their contents. *)
Definition image_files (listing : list (string * entry)) : list string :=
  sorted (List.filter is_image (map fst listing)).

Definition image_data (listing : list (string * entry)) (f : string) : string :=
  match List.find (fun e => String.eqb (fst e) f) listing with
  | Some (_, RegularFile data) => data
  | _ => EmptyString
  end.

(** The entries of one chapter: page [i], [i + 1], ... named
    key_index.extension. *)
Fixpoint number_pages (chapter_num_str : string) (listing : list (string * entry))
    (i : Z) (files : list string) : list (string * string) :=
  match files with
  | [] => []
  | f :: rest =>
      (chapter_num_str +:+ "_" +:+ format_0d 3 i +:+ snd (splitext f), image_data listing f)
      :: number_pages chapter_num_str listing (i + 1) rest
  end.

Definition chapter_pages (c : Z * list (string * entry)) : list (string * string) :=
  number_pages (format_0d 4 (fst c)) (snd c) 1 (image_files (snd c)).

(** The chapters of a manga directory: the subdirectories whose names
    parse, each with its integer key. *)
Definition chapters_of (manga_dir : list (string * item))
    : list (Z * list (string * entry)) :=
  omap (fun it => match snd it with
                  | Directory listing => n ← chapter_int (fst it); Some (n, listing)
                  | PlainFile => None
                  end) manga_dir.

(** Chapter after chapter in ascending key order, page after page. *)
Definition expected_archive (manga_dir : list (string * item)) : list (string * string) :=
  flat_map chapter_pages (sorted_by Z.ltb fst (chapters_of manga_dir)).

(** The names in which the extractor finds no chapter number. *)
Definition unparsed (dirs : list string) : list string :=
  List.filter (fun d => negb (parses d)) dirs.

(** The directories the amended claim speaks of. *)
Record clean_chapter (listing : list (string * entry)) : Prop := {
  cc_nodup : NoDup (map fst listing);
  cc_regular : forall f e, (f, e) ∈ listing -> is_image f = true ->
                           exists data, e = RegularFile data;
  cc_pages : (length (List.filter is_image (map fst listing)) <= 999)%nat
}.

Record clean_manga (manga_dir : list (string * item)) : Prop := {
  cm_nodup : NoDup (map fst manga_dir);
  cm_keys : forall name listing k,
    (name, Directory listing) ∈ manga_dir ->
    extract_chapter_number name = Ok (Some k) ->
    exists n, PyFloat.to_int k = Ok n /\ 0 <= n <= 9999;
  cm_distinct : NoDup (map fst (chapters_of manga_dir));
  cm_chapters : forall name listing,
    (name, Directory listing) ∈ manga_dir -> parses name = true -> clean_chapter listing
}.

(** Entry [a] is named before entry [b] in the order of strings. *)
Definition name_lt (a b : string * string) : Prop := str_lt (fst a) (fst b) = true.

(** The sort key of a name, [sort_key] never raising. *)
Definition the_key (x : string) : PyFloat.float :=
  match sort_key x with Ok k => k | Raise _ => PyFloat.inf end.

(** One file copied into the scratch directory. *)
Definition ins (m : gmap string string) (kv : string * string) : gmap string string :=
  <[fst kv := snd kv]> m.

(** The pages a directory name contributes. *)
Definition pages_of (manga_dir : list (string * item)) (d : string)
    : list (string * string) :=
  match chapter_int d with
  | Some n => chapter_pages (n, chapter_listing manga_dir d)
  | None => []
  end.

(** A chapter within the range of the 4-digit and 3-digit fields. *)
Definition in_range (c : Z * list (string * entry)) : Prop :=
  0 <= fst c <= 9999 /\ (length (image_files (snd c)) <= 999)%nat.

End CombinerVocabulary.

(** ** Notions used in the proofs *)

Section SortVocabulary.
Context {A K : Type} (lt : K -> K -> bool) (key : A -> K).

(** [x] may stand before [y]. *)
Definition not_after (x y : A) : Prop := lt (key y) (key x) = false.

End SortVocabulary.

Section SplitVocabulary.
Import Splitter.
Context (cbz : ZipFile) (output_dir base_name : string) (max_size : Z).

(** The entry [getinfo] returns for a name of the archive. *)
Definition info (f : string) : ZipInfo :=
  default {| filename := f; file_size := 0 |} (NameToInfo cbz !! f).

(** The size sum of the entries named by [g]. *)
Definition weight (g : list string) : Z := get_cbz_size (map info g).

(** A part respects the ceiling, or is one entry larger than it. *)
Definition good (g : list string) : Prop :=
  g <> [] /\ (weight g <= max_size
              \/ exists f, g = [f] /\ max_size < Z.of_N (file_size (info f))).




End SplitVocabulary.

(** The texts of the number group: digits, then nothing or a dot and
    digits. *)
Definition number_text (w : string) : Prop :=
  exists d1 rest,
    w = d1 +:+ rest /\ all_digits d1 = true /\ d1 <> EmptyString
    /\ (rest = EmptyString \/ exists d2, rest = String "." d2 /\ all_digits d2 = true).

(** The texts of a group of digits. *)
Definition digits_text (w : string) : Prop := all_digits w = true /\ w <> EmptyString.

(** [n] is printed on exactly [width] characters, and before [n + 1] in
    the order of strings. *)
Definition padded_ok (width : nat) (n : Z) : bool :=
  (String.length (format_0d width n) =? width)%nat
  && str_lt (format_0d width n) (format_0d width (n + 1)).

(** An action that leaves the local variable [output_base] as it is. *)
Definition keeps_base {A} (m : Downloader.M A) : Prop :=
  forall st, Downloader.output_base (fst (m st)) = Downloader.output_base st.

(** ** Runs used as examples *)

Definition small_archive_env : Splitter.Env :=
  {| Splitter.output_dir := "split_output";
     Splitter.max_size := PyFloat.Finite (7 # 2);
     Splitter.walk :=
       [("downloads/T/T_combined.cbz",
         Some [Splitter.Build_ZipInfo "005.0000.jpg" 2000000000;
               Splitter.Build_ZipInfo "005.0001.jpg" 1758096384]);
        ("downloads/T/cover.jpg", None)];
     Splitter.typed := [None; Some 2; Some 1] |}.

Definition one_page_chapter (page : string) : Downloader.fnode :=
  Downloader.Archive [("000.jpg", page); ("metadata.txt", "{}")].


(** The folder of a manga with chapters 5 and 6 completed, the catalog
    listing chapters 5, 6 and 7, and a user who asks to resume. *)
Definition folder_5_6 : gmap string Downloader.fnode :=
  <["Chapter_5.0.cbz" := one_page_chapter "page of chapter 5"]>
    (<["Chapter_6.0.cbz" := one_page_chapter "page of chapter 6"]> ∅).

Definition remote_chapter (label : string) : Downloader.chapter :=
  {| Downloader.ch_id := "id-" +:+ label;
     Downloader.ch_chapter := Downloader.Label label;
     Downloader.ch_scanlation_group := Some "group" |}.

Definition resume_env (fetch : string -> nat -> result string) (rmtree : result unit)
    : Downloader.Env :=
  {| Downloader.downloads_dir := "/home/user/downloads";
     Downloader.search_manga := fun _ => Ok "manga-id";
     Downloader.get_manga_metadata := fun _ =>
       Ok {| Downloader.title := "Title"; Downloader.metadata_json := "{}" |};
     Downloader.download_cover := fun _ => Ok None;
     Downloader.check_chapter_availability := fun _ => Ok [];
     Downloader.get_chapters := fun _ =>
       Ok [remote_chapter "5"; remote_chapter "6"; remote_chapter "7"];
     Downloader.at_home := fun _ => Ok ["x1.png"; "x2.png"];
     Downloader.fetch_page := fetch;
     Downloader.rmtree_output_base := rmtree |}.

Definition resume_state (folder : gmap string Downloader.fnode) : Downloader.state :=
  {| Downloader.fs := {[ "/home/user/downloads/Title" := folder ]};
     Downloader.stdin := ["Title"; "1"];
     Downloader.stdout := [];
     Downloader.output_base := None;
     Downloader.download_calls := [] |}.

(** A first run (nothing on disk yet) in which the second page of the first
    chapter cannot be fetched. *)
Definition failing_fetch (chapter_id : string) (i : nat) : result string :=
  match i with
  | O => Ok "image"
  | S _ => Raise (Exception "connection lost")
  end.

Definition first_run_state : Downloader.state :=
  {| Downloader.fs := ∅;
     Downloader.stdin := ["Title"];
     Downloader.stdout := [];
     Downloader.output_base := None;
     Downloader.download_calls := [] |}.

(** A manga directory with two chapters, a directory that does not parse
    and a stray file. *)
Definition sample_manga : list (string * Combiner.item) :=
  [("Ch.2", Combiner.Directory
              [("b.PNG", Combiner.RegularFile "page 2b");
               ("a.jpg", Combiner.RegularFile "page 2a");
               ("notes.txt", Combiner.RegularFile "notes")]);
   ("Ch.1", Combiner.Directory [("1.webp", Combiner.RegularFile "page 1")]);
   ("artbook", Combiner.Directory [("cover.jpg", Combiner.RegularFile "art")]);
   ("readme.jpg", Combiner.PlainFile)].

(** ** The prompt of the splitter *)

(** A line typed at the prompt of [select_manga] that is refused: not a
    number, or a number that is no position of the list. *)
Definition out_of_range {A} (cbz_files : list A) (t : option Z) : Prop :=
  match t with
  | None => True
  | Some choice => choice < 1 \/ Z.of_nat (length cbz_files) < choice
  end.

(** What [select_manga] prints in return. *)
Definition reply (t : option Z) : Splitter.message :=
  match t with
  | None => Splitter.PleaseEnterValidNumber
  | Some _ => Splitter.InvalidSelection
  end.


(** A float that is a number and not negative infinity: the keys the
    extractor and the sentinel produce. *)
Definition ordinary (x : PyFloat.float) : Prop :=
  match x with
  | PyFloat.Finite _ | PyFloat.PosInf => True
  | PyFloat.NegInf | PyFloat.NaN => False
  end.

(** An entry of the archive that is a page of a chapter directory: the
    data of an image file of a directory whose name parses, under the name
    made of the directory's integer key, a page index and the extension of
    the file. *)
Definition page_of (manga_dir : list (string * Combiner.item)) (e : string * string)
    : Prop :=
  exists dir listing k n i f,
    (dir, Combiner.Directory listing) ∈ manga_dir
    /\ Combiner.extract_chapter_number dir = Ok (Some k)
    /\ PyFloat.to_int k = Ok n
    /\ Combiner.is_image f = true
    /\ (f, Combiner.RegularFile (snd e)) ∈ listing
    /\ 1 <= i
    /\ fst e = format_0d 4 n +:+ "_" +:+ format_0d 3 i +:+ snd (splitext f).

(** No character of [s] belongs to the class [p]. *)
Definition free_of (p : ascii -> bool) (s : string) : Prop :=
  forallb (fun c => negb (p c)) (list_ascii_of_string s) = true.

(** [s] does not go on with a character of the class [p]. *)
Definition stops (p : ascii -> bool) (s : string) : Prop :=
  match s with
  | String c _ => p c = false
  | EmptyString => True
  end.

(** ** Runs of the downloader *)

(** An action that, when it returns normally, has asked for no chapter. *)
Definition quiet {A} (m : Downloader.M A) : Prop :=
  forall st st' a, m st = (st', Ok a) ->
    Downloader.download_calls st' = Downloader.download_calls st.

(** The statistics still hold the scanlation groups as a [set]. *)
Definition groups_are_set (s : Downloader.stats) : Prop :=
  exists names, Downloader.scanlation_groups s = Downloader.GroupSet names.

(** A catalog with the single chapter 5.5, already in the folder, and a
    user who asks to resume. *)
Definition fractional_env : Downloader.Env :=
  {| Downloader.downloads_dir := "/home/user/downloads";
     Downloader.search_manga := fun _ => Ok "manga-id";
     Downloader.get_manga_metadata := fun _ =>
       Ok {| Downloader.title := "Title"; Downloader.metadata_json := "{}" |};
     Downloader.download_cover := fun _ => Ok None;
     Downloader.check_chapter_availability := fun _ => Ok [];
     Downloader.get_chapters := fun _ => Ok [remote_chapter "5.5"];
     Downloader.at_home := fun _ => Ok ["x1.png"];
     Downloader.fetch_page := fun _ _ => Ok "image";
     Downloader.rmtree_output_base := Ok tt |}.

Definition fractional_state : Downloader.state :=
  {| Downloader.fs :=
       {[ "/home/user/downloads/Title" :=
            {[ "Chapter_5.5.cbz" := one_page_chapter "page of chapter 5.5" ]} ]};
     Downloader.stdin := ["Title"; "1"];
     Downloader.stdout := [];
     Downloader.output_base := None;
     Downloader.download_calls := [] |}.

(** The folder of chapters 5 and 6 again, and a user who first types
    something else, then asks to quit. *)
Definition quit_state : Downloader.state :=
  {| Downloader.fs := {[ "/home/user/downloads/Title" := folder_5_6 ]};
     Downloader.stdin := ["Title"; "yes"; "3"; "1"];
     Downloader.stdout := [];
     Downloader.output_base := None;
     Downloader.download_calls := [] |}.

(** The characters [str.strip('. ')] removes. *)
Definition dot_or_space (c : ascii) : bool := Ascii.eqb c "." || Ascii.eqb c " ".


(** A file name the downloader's [combine_chapters] can process: its stem
    starts with "Chapter_" and a digit. *)
Definition chapter_file_name (file : string) : Prop :=
  exists c rest,
    fst (splitext (basename file)) = "Chapter_" +:+ String c rest /\ is_digit c = true.

(** The archive entries of the pages fetched for a chapter, in page
    order: page [i] (from 0) is stored as the 3-digit form of [i] and
    ".jpg", whatever the catalog calls it. *)
Definition page_entries (datas : list string) : list (string * string) :=
  imap (fun i data => (format_0d 3 (Z.of_nat i) +:+ ".jpg", data)) datas.

(** The answer read from a line typed at a yes/no question. *)
Definition answer (line : string) : string :=
  let choice := PyText.strip (lower line) in
  if String.eqb choice "" then "y" else choice.

(** The lines typed for the source directory: one line that accepts the
    default, or one that declines it and then the path. *)
Definition directory_lines (source_dir : string) (lines : list string) : Prop :=
  (exists line, lines = [line] /\ answer line = "y"
                /\ source_dir = CombinerMain.default_source_dir)
  \/ (exists line path, lines = [line; path] /\ answer line <> "y"
                        /\ source_dir = PyText.strip path).

(** The menu [select_manga] prints. *)
Definition menu (manga_dirs : list (string * bool)) : list CombinerMain.message :=
  imap (fun i '(manga, is_combined) => CombinerMain.MenuEntry (S i) manga is_combined)
       manga_dirs.

(** The lines typed at the overwrite question: none when there is no
    combined archive yet, else one that is read as "y". *)
Definition confirms (is_combined : bool) (lines : list string) : Prop :=
  if is_combined then exists line, lines = [line] /\ answer line = "y" else lines = [].

(** [os.listdir] gives every name of a directory once. *)
Definition lists_names (listdir : gmap string CombinerMain.node -> list string) : Prop :=
  forall content, listdir content ≡ₚ map fst (map_to_list content).

(** How a run of [main] can end. *)
Inductive ending (st : Console.state (gmap string CombinerMain.place) CombinerMain.message)
  : Console.state (gmap string CombinerMain.place) CombinerMain.message * result unit -> Prop :=
| ends_with_goodbye st' :
    last (Console.stdout st') = Some CombinerMain.Goodbye -> ending st (st', Ok tt)
| ends_with_input st' :
    Console.stdin st' = [] -> ending st (st', Raise EOFError)
| ends_without_directory st' source_dir :
    Console.world st' = Console.world st ->
    Console.world st !! source_dir = None \/ source_dir = "" ->
    ending st (st', Raise (Exception ("Source directory '" +:+ source_dir
                                       +:+ "' does not exist"))).

(** A result that is no [KeyboardInterrupt]. *)
Definition benign {A} (r : result A) : Prop :=
  forall e, r = Raise e -> isinstance_Exception e = true.

(** A computation that leaves the typed lines or reads some, and raises
    only instances of [Exception]. *)
Definition orderly {A} (m : CombinerMain.M A) : Prop :=
  forall st st' r, m st = (st', r) ->
    (length (Console.stdin st') <= length (Console.stdin st))%nat
    /\ forall e, r = Raise e -> isinstance_Exception e = true.

(** A computation that returns only after it has read a line. *)
Definition reads {A} (m : CombinerMain.M A) : Prop :=
  forall st st' a, m st = (st', Ok a) ->
    (length (Console.stdin st') < length (Console.stdin st))%nat.

(** A computation that raises only at the end of the input. *)
Definition eof_only {A} (m : CombinerMain.M A) : Prop :=
  forall st st' e, m st = (st', Raise e) -> e = EOFError /\ Console.stdin st' = [].

(** A round that ends the loop has said goodbye. *)
Definition parting (m : CombinerMain.M CombinerMain.outcome) : Prop :=
  forall st st', m st = (st', Ok CombinerMain.Break) ->
    last (Console.stdout st') = Some CombinerMain.Goodbye.

(** A source directory with two manga, the second combined before. *)
Definition sample_source : gmap string CombinerMain.node :=
  {[ "Alpha" := CombinerMain.Folder sample_manga;
     "Beta" := CombinerMain.Folder sample_manga;
     "Beta_combined.cbz" := CombinerMain.OtherFile;
     "notes.txt" := CombinerMain.OtherFile ]}.

(** The combiner started on it with the given lines to type. *)
Definition sample_console (lines : list string)
    : Console.state (gmap string CombinerMain.place) CombinerMain.message :=
  {| Console.world := {[ CombinerMain.default_source_dir := CombinerMain.Dir sample_source ]};
     Console.stdin := lines;
     Console.stdout := [] |}.

(** A catalog that holds the chapters [all] and answers the request with
    offset [100 * k] by its page [k] of 100 chapters and the number of
    chapters it holds. *)
Definition serves (all : list Catalog.chapter)
    (get : Z -> Catalog.failure + Catalog.response) : Prop :=
  forall k : nat,
    get (100 * Z.of_nat k)
    = inr {| Catalog.data := take 100 (drop (100 * k) all);
             Catalog.total := Z.of_nat (length all) |}.

(** A catalog that serves the chapters [all] in pages of 100 but says it
    has [extra] more. *)
Definition promises_more (all : list Catalog.chapter) (extra : Z) (offset : Z)
    : Catalog.failure + Catalog.response :=
  inr {| Catalog.data := take 100 (drop (Z.to_nat offset) all);
         Catalog.total := Z.of_nat (length all) + extra |}.

(** The answers of a catalog that holds [all]. *)
Definition pages_of_catalog (all : list Catalog.chapter) (offset : Z)
    : Catalog.failure + Catalog.response :=
  inr {| Catalog.data := take 100 (drop (Z.to_nat offset) all);
         Catalog.total := Z.of_nat (length all) |}.

(** Chapter numbers in increasing order, as [<] on [str] has it. *)
Definition nums_lt (a b : option string) : Prop :=
  match a, b with
  | Some x, Some y => str_lt x y = true
  | _, _ => False
  end.

(** A chapter of the catalog with a number and nothing else of note. *)
Definition numbered (label : Downloader.chapter_attr) : Catalog.chapter :=
  {| Catalog.chapter_id := "id";
     Catalog.attr_externalUrl := None;
     Catalog.attr_chapter := label;
     Catalog.attr_pages := 20;
     Catalog.attr_createdAt := "2024-01-01T00:00:00+00:00";
     Catalog.attr_version := 1;
     Catalog.relationships := [] |}.

(** A console of a program without a world. *)
Definition console (lines : list string) : Console.state unit Catalog.message :=
  {| Console.world := tt; Console.stdin := lines; Console.stdout := [] |}.

(** The chapters that are no external links, in the order of the
    catalog. *)
Definition hosted (chapters : list Catalog.chapter) : list Catalog.chapter :=
  List.filter (fun ch => negb (Catalog.is_external ch)) chapters.

#[global] Instance chapter_attr_eq_dec : EqDecision Downloader.chapter_attr.
Proof. solve_decision. Defined.

(** The chapter attribute that gives a key of [chapter_groups]. *)
Definition attr_of (chapter_num : option string) : Downloader.chapter_attr :=
  match chapter_num with
  | Some s => Downloader.Label s
  | None => Downloader.Null
  end.

(** The key of a chapter that has one. *)
Definition key_of (ch : Catalog.chapter) : option string :=
  match Catalog.attr_chapter ch with
  | Downloader.Label s => Some s
  | _ => None
  end.

(** The hosted chapters with the number of [label], in the order of the
    catalog. *)
Definition versions_of (chapters : list Catalog.chapter) (label : Downloader.chapter_attr)
    : list Catalog.chapter :=
  List.filter (fun ch => bool_decide (Catalog.attr_chapter ch = label)) (hosted chapters).

(** [chapter_groups] after the chapters [seen] have been stored: a key
    for each number seen, with the chapters of that number in the order
    in which they were seen. *)
Definition grouped (seen : list Catalog.chapter)
    (chapter_groups : list (option string * list Catalog.chapter)) : Prop :=
  NoDup (map fst chapter_groups)
  /\ forall k vs, (k, vs) ∈ chapter_groups
       <-> vs = List.filter (fun ch => bool_decide (Catalog.attr_chapter ch = attr_of k)) seen
           /\ vs <> [].

(** A selection from the groups: in their order, one version of each
    group, or none for a group of several versions. *)
Inductive picked : list (option string * list Catalog.chapter) -> list Catalog.chapter -> Prop :=
| picked_nil : picked [] []
| picked_version k vs v groups selected :
    v ∈ vs -> picked groups selected -> picked ((k, vs) :: groups) (v :: selected)
| picked_skip k vs groups selected :
    length vs <> 1%nat -> picked groups selected -> picked ((k, vs) :: groups) selected.

(** The version [get_chapters] takes of a chapter number when the group
    [g] is preferred: the only one, or the first that [g] has made. *)
Definition version_by (g : string) (versions : list Catalog.chapter) : option Catalog.chapter :=
  match versions with
  | [version] => Some version
  | _ => List.find (fun version => bool_decide (g ∈ Catalog.group_names version)) versions
  end.

(** A version of chapter [label] by the scanlation group [group]. *)
Definition version (id label group : string) : Catalog.chapter :=
  {| Catalog.chapter_id := id;
     Catalog.attr_externalUrl := None;
     Catalog.attr_chapter := Downloader.Label label;
     Catalog.attr_pages := 20;
     Catalog.attr_createdAt := "2024-01-01T00:00:00+00:00";
     Catalog.attr_version := 1;
     Catalog.relationships :=
       [{| Catalog.rel_type := "scanlation_group"; Catalog.rel_attributes := Some group |}] |}.

(** Three chapters of a catalog: two versions of chapter 1, by two
    groups, and chapter 2. *)
Definition sample_versions : list Catalog.chapter :=
  [version "a" "1" "Alpha Scans"; version "b" "1" "Beta Scans"; version "c" "2" "Alpha Scans"].

(** * Properties *)

(** ** The stable sort *)

Section SortedBy.
Context {A K : Type} (lt : K -> K -> bool) (key : A -> K).

Hypothesis lt_asym : forall a b, lt a b = true -> lt b a = false.
Hypothesis not_after_trans : Transitive (not_after lt key).

Lemma insert_sorted_perm x l : insert_sorted lt key x l ≡ₚ x :: l.
Proof using Type.
  induction l as [|y l IH]; simpl; [done|].
  destruct (lt (key y) (key x)); [|done].
  rewrite IH. apply Permutation_swap.
Qed.

Lemma sorted_by_perm l : sorted_by lt key l ≡ₚ l.
Proof using Type.
  induction l as [|x l IH]; simpl; [done|].
  rewrite insert_sorted_perm. by rewrite IH.
Qed.

Lemma insert_sorted_sorted x l :
  StronglySorted (not_after lt key) l -> StronglySorted (not_after lt key) (insert_sorted lt key x l).
Proof using lt_asym not_after_trans.
  induction l as [|y l IH]; simpl; intros Hl.
  - repeat constructor.
  - apply StronglySorted_cons in Hl as [Hy Hl].
    destruct (lt (key y) (key x)) eqn:E.
    + apply StronglySorted_cons. split; [|by apply IH].
      rewrite insert_sorted_perm. constructor; [|done].
      by apply lt_asym.
    + apply StronglySorted_cons. split.
      * constructor; [done|].
        eapply Forall_impl; [exact Hy|]. intros z Hz. by etrans.
      * by apply StronglySorted_cons.
Qed.

Lemma sorted_by_sorted l : StronglySorted (not_after lt key) (sorted_by lt key l).
Proof using lt_asym not_after_trans.
  induction l as [|x l IH]; simpl; [constructor|].
  by apply insert_sorted_sorted.
Qed.
End SortedBy.

(** [sorted] on strings. *)
Lemma str_lt_false_le x y : str_lt y x = false <-> String.le x y.
Proof.
  unfold str_lt, String.ltb, String.le, String.leb.
  rewrite (String.compare_antisym y x).
  destruct (String.compare x y); simpl; split; intros H; done.
Qed.

Lemma str_lt_asym a b : str_lt a b = true -> str_lt b a = false.
Proof.
  unfold str_lt, String.ltb. rewrite (String.compare_antisym b a).
  by destruct (String.compare a b).
Qed.

Lemma sorted_perm l : sorted l ≡ₚ l.
Proof. apply sorted_by_perm. Qed.

Lemma sorted_sorted l : StronglySorted String.le (sorted l).
Proof.
  assert (H : StronglySorted (not_after str_lt id) (sorted l)).
  { apply sorted_by_sorted; [apply str_lt_asym|].
    intros x y z. unfold not_after, id. rewrite !str_lt_false_le. by etrans. }
  revert H. generalize (sorted l). clear l.
  induction 1 as [|x l Hl IH Hx]; constructor; [done|].
  eapply Forall_impl; [exact Hx|]. intros y. unfold not_after, id.
  by rewrite str_lt_false_le.
Qed.

(** ** splitter.py: [split_cbz] *)

Section SplitCbz.
Import Splitter.
Context (cbz : ZipFile) (output_dir base_name : string) (max_size : Z).





Lemma get_cbz_size_snoc (l : ZipFile) zi :
  get_cbz_size (l ++ [zi]) = get_cbz_size l + Z.of_N (file_size zi).
Proof. unfold get_cbz_size, infolist. by rewrite foldl_app. Qed.








End SplitCbz.




(** ** splitter.py: [main] *)

Lemma select_loop_elem {A} (cbz_files : list A) typed log log' x :
  Splitter.select_loop cbz_files typed log = (log', Ok (Some x)) -> x ∈ cbz_files.
Proof.
  revert log. induction typed as [|[choice|] typed IH]; intros log; simpl; [done| |by apply IH].
  destruct ((1 <=? choice) && (choice <=? Z.of_nat (length cbz_files))); [|by apply IH].
  intros [= _ Hx]. by eapply list_elem_of_lookup_2.
Qed.

Lemma select_manga_cbz files typed log path content :
  Splitter.select_manga (Splitter.find_cbz_files files) typed
    = (log, Ok (Some (path, content))) ->
  path <> "".
Proof.
  unfold Splitter.select_manga.
  destruct (Splitter.find_cbz_files files) as [|f fs] eqn:Hfs; [done|].
  intros Hsel%select_loop_elem. rewrite <- Hfs in Hsel.
  apply list_elem_of_In, filter_In in Hsel as [_ Hcbz]. simpl in Hcbz.
  intros ->. done.
Qed.

(** C9.  When the archive selected has a total uncompressed entry size
    that does not exceed the ceiling configured on the command line,
    [main] creates no archive and ends by reporting that no splitting is
    needed. *)
Theorem main_no_split_needed (env : Splitter.Env) (max_size_bytes : Z)
    (log : list Splitter.message) (selected_file : string) (cbz : Splitter.ZipFile) :
  PyFloat.to_int
    (PyFloat.mul (PyFloat.mul (PyFloat.mul (Splitter.max_size env) (PyFloat.of_int 1024))
                              (PyFloat.of_int 1024)) (PyFloat.of_int 1024))
    = Ok max_size_bytes ->
  Splitter.select_manga (Splitter.find_cbz_files (Splitter.walk env)) (Splitter.typed env)
    = (log, Ok (Some (selected_file, Some cbz))) ->
  Splitter.get_cbz_size cbz <= max_size_bytes ->
  Splitter.main env
    = (log ++ [Splitter.NoSplittingNeeded (Splitter.max_size env)], Ok []).
Proof.
  intros Hmax Hsel Hsize. unfold Splitter.main. rewrite Hmax, Hsel.
  apply select_manga_cbz in Hsel. apply String.eqb_neq in Hsel. rewrite Hsel. simpl.
  apply Z.leb_le in Hsize. by rewrite Hsize.
Qed.

Lemma main_no_split_needed_witness :
  Splitter.main small_archive_env
  = ([Splitter.AvailableMangaFiles ["downloads/T/T_combined.cbz"];
      Splitter.PleaseEnterValidNumber; Splitter.InvalidSelection;
      Splitter.NoSplittingNeeded (PyFloat.Finite (7 # 2))], Ok []).
Proof.
  apply (main_no_split_needed small_archive_env 3758096384
           [Splitter.AvailableMangaFiles ["downloads/T/T_combined.cbz"];
            Splitter.PleaseEnterValidNumber; Splitter.InvalidSelection]
           "downloads/T/T_combined.cbz"
           [Splitter.Build_ZipInfo "005.0000.jpg" 2000000000;
            Splitter.Build_ZipInfo "005.0001.jpg" 1758096384]).
  - vm_compute. reflexivity.
  - vm_compute. reflexivity.
  - vm_compute. discriminate.
Defined.

(** ** Strings *)

Lemma str_app_cons a s t : String a s +:+ t = String a (s +:+ t).
Proof. reflexivity. Qed.

Lemma str_app_nil_l t : "" +:+ t = t.
Proof. reflexivity. Qed.

Lemma str_app_nil_r s : s +:+ "" = s.
Proof. induction s as [|a s IH]; [done|]. by rewrite str_app_cons, IH. Qed.

Lemma str_app_assoc s t u : s +:+ (t +:+ u) = (s +:+ t) +:+ u.
Proof. induction s as [|a s IH]; [done|]. by rewrite !str_app_cons, IH. Qed.

Lemma str_length_app s t : String.length (s +:+ t) = (String.length s + String.length t)%nat.
Proof. induction s as [|a s IH]; [done|]. rewrite str_app_cons. simpl. by rewrite IH. Qed.

(** ** The matcher against a declarative reading of the patterns *)

Section RegexSemantics.
Import Re.

Lemma star_sound {A} p s (k : string -> option A) a :
  star p s k = Some a -> exists s', starts p s s' /\ k s' = Some a.
Proof.
  induction s as [|c s IH]; simpl; intros H.
  - exists EmptyString. split; [constructor|done].
  - destruct (p c) eqn:Hp.
    + destruct (star p s k) as [b|] eqn:Hs.
      * injection H as <-. destruct (IH eq_refl) as (s' & Hs' & Hk).
        exists s'. split; [by constructor|done].
      * exists (String c s). split; [constructor|done].
    + exists (String c s). split; [constructor|done].
Qed.

Lemma star_complete {A} p s s' (k : string -> option A) :
  starts p s s' -> is_Some (k s') -> is_Some (star p s k).
Proof.
  induction 1 as [s|c s s' Hp Hs IH]; intros Hk.
  - destruct s as [|c s]; simpl; [done|].
    destruct (p c); [|done]. by destruct (star p s k).
  - simpl. rewrite Hp. destruct (star p s k) eqn:E; [done|].
    apply IH in Hk. by destruct Hk.
Qed.

Lemma go_sound {A} r : forall s c (k : string -> Match -> option A) a,
  go r s c k = Some a -> exists s' c', matches r s c s' c' /\ k s' c' = Some a.
Proof.
  induction r as [|p|r1 IH1 r2 IH2|p|p|r IH|n r IH]; intros s c k a; simpl.
  - intros H. exists s, c. split; [constructor|done].
  - destruct s as [|x s]; [done|]. destruct (p x) eqn:Hp; [|done].
    intros H. exists s, c. split; [by constructor|done].
  - intros H. apply IH1 in H as (s1 & c1 & H1 & H).
    apply IH2 in H as (s2 & c2 & H2 & H).
    exists s2, c2. split; [by econstructor|done].
  - intros H. apply star_sound in H as (s' & Hs & H).
    exists s', c. split; [by constructor|done].
  - destruct s as [|x s]; [done|]. destruct (p x) eqn:Hp; [|done].
    intros H. apply star_sound in H as (s' & Hs & H).
    exists s', c. split; [by constructor|done].
  - destruct (go r s c k) as [b|] eqn:E.
    + intros [= <-]. apply IH in E as (s' & c' & Hm & Hk).
      exists s', c'. split; [by constructor|done].
    + intros H. exists s, c. split; [by apply M_Opt_none|done].
  - intros H. apply IH in H as (s' & c' & Hm & Hk).
    exists s', (<[n := consumed s s']> c'). split; [by constructor|done].
Qed.

Lemma go_complete {A} r s c s' c' :
  matches r s c s' c' ->
  forall k : string -> Match -> option A, is_Some (k s' c') -> is_Some (go r s c k).
Proof.
  induction 1 as [s c|p a s c Hp|r1 r2 s c s1 c1 s2 c2 _ IH1 _ IH2|p s c s' Hs
                  |p a s c s' Hp Hs|r s c s' c' _ IH|r s c|n r s c s' c' _ IH];
    intros k Hk; simpl.
  - done.
  - by rewrite Hp.
  - apply IH1. by apply IH2.
  - by apply (star_complete p s s').
  - rewrite Hp. by apply (star_complete p s s').
  - apply IH in Hk. by destruct (go r s c k).
  - by destruct (go r s c k).
  - by apply IH.
Qed.

Lemma suffix_of_refl s : suffix_of s s.
Proof. by exists EmptyString. Qed.

Lemma suffix_of_cons a t s : suffix_of t s -> suffix_of t (String a s).
Proof. intros [pre ->]. by exists (String a pre). Qed.

Lemma suffix_of_trans t u s : suffix_of t u -> suffix_of u s -> suffix_of t s.
Proof.
  intros [p1 ->] [p2 ->]. exists (p2 +:+ p1). apply str_app_assoc.
Qed.

Lemma starts_suffix p s s' : starts p s s' -> suffix_of s' s.
Proof.
  induction 1; [apply suffix_of_refl|by apply suffix_of_cons].
Qed.

Lemma matches_suffix r s c s' c' : matches r s c s' c' -> suffix_of s' s.
Proof.
  induction 1; eauto using suffix_of_refl, suffix_of_cons, suffix_of_trans, starts_suffix.
Qed.

Lemma re_match_sound r s m :
  re_match r s = Some m -> exists s', matches r s ∅ s' m.
Proof.
  unfold re_match. intros H. apply go_sound in H as (s' & c' & Hm & [= ->]). eauto.
Qed.

Lemma re_match_complete r s s' m : matches r s ∅ s' m -> is_Some (re_match r s).
Proof. intros H. by apply (go_complete r s ∅ s' m H). Qed.

Lemma re_search_sound r s m :
  re_search r s = Some m -> exists t t', suffix_of t s /\ matches r t ∅ t' m.
Proof.
  induction s as [|a s IH]; simpl.
  - destruct (re_match r "") as [m'|] eqn:E; [|done].
    intros [= ->]. apply re_match_sound in E as [t' H].
    exists EmptyString, t'. split; [apply suffix_of_refl|done].
  - destruct (re_match r (String a s)) as [m'|] eqn:E.
    + intros [= ->]. apply re_match_sound in E as [t' H].
      exists (String a s), t'. split; [apply suffix_of_refl|done].
    + intros H. apply IH in H as (t & t' & Hsuf & H).
      exists t, t'. split; [by apply suffix_of_cons|done].
Qed.

Lemma re_search_complete r s t t' m :
  suffix_of t s -> matches r t ∅ t' m -> is_Some (re_search r s).
Proof.
  intros [pre ->] H. induction pre as [|a pre IH]; simpl.
  - apply re_match_complete in H as [m' Hm'].
    destruct t; simpl; by rewrite Hm'.
  - by destruct (re_match r (String a (pre +:+ t))).
Qed.

Lemma matches_no_groups r s c s' c' :
  matches r s c s' c' -> no_groups r = true -> c' = c.
Proof.
  induction 1; simpl; intros Hg; try done.
  - apply andb_true_iff in Hg as [H1 H2]. rewrite IHmatches2, IHmatches1; done.
  - by apply IHmatches.
Qed.

Lemma matches_seq_inv r1 r2 s c s2 c2 :
  matches (Seq r1 r2) s c s2 c2 ->
  exists s1 c1, matches r1 s c s1 c1 /\ matches r2 s1 c1 s2 c2.
Proof. inversion 1; subst; eauto. Qed.

End RegexSemantics.

(** ** chapter_combiner_external.py: [extract_chapter_number] *)

(** Whatever [pattern3] matches ends in a match of [pattern1]. *)
Lemma pattern3_ends_in_pattern1 t t' m :
  matches Combiner.pattern3 t ∅ t' m ->
  exists u, suffix_of u t /\ matches Combiner.pattern1 u ∅ t' m.
Proof.
  change Combiner.pattern3 with
    (Re.Seq (Re.Cls (Re.either "V" "v"))
       (Re.Seq (Re.lit "ol.")
          (Re.Seq (Re.Plus is_digit) (Re.Seq (Re.Star is_space) Combiner.pattern1)))).
  intros H.
  apply matches_seq_inv in H as (s1 & c1 & H1 & H).
  apply matches_seq_inv in H as (s2 & c2 & H2 & H).
  apply matches_seq_inv in H as (s3 & c3 & H3 & H).
  apply matches_seq_inv in H as (s4 & c4 & H4 & H).
  pose proof (matches_no_groups _ _ _ _ _ H1 eq_refl) as ->.
  pose proof (matches_no_groups _ _ _ _ _ H2 eq_refl) as ->.
  pose proof (matches_no_groups _ _ _ _ _ H3 eq_refl) as ->.
  pose proof (matches_no_groups _ _ _ _ _ H4 eq_refl) as ->.
  exists s4. split; [|done].
  apply matches_suffix in H1, H2, H3, H4.
  eapply suffix_of_trans; [exact H4|]. eapply suffix_of_trans; [exact H3|].
  eapply suffix_of_trans; [exact H2|exact H1].
Qed.

Lemma pattern3_implies_pattern1 s :
  Re.re_search Combiner.pattern1 s = None -> Re.re_search Combiner.pattern3 s = None.
Proof.
  intros H1. destruct (Re.re_search Combiner.pattern3 s) as [m|] eqn:H3; [|done].
  apply re_search_sound in H3 as (t & t' & Hsuf & Hm).
  apply pattern3_ends_in_pattern1 in Hm as (u & Hu & Hm).
  destruct (re_search_complete Combiner.pattern1 s u t' m) as [m' Hm'];
    [by eapply suffix_of_trans|done|congruence].
Qed.

(** C10.  The third rule of [extract_chapter_number] never decides: on
    every string the extractor without that rule returns what the full
    extractor returns (whatever [pattern3] matches, [pattern1] has matched
    before). *)
Theorem rule3_unreachable (dirname : string) :
  extract_chapter_number_without_rule3 dirname = Combiner.extract_chapter_number dirname.
Proof.
  unfold extract_chapter_number_without_rule3, Combiner.extract_chapter_number.
  destruct (Re.re_search Combiner.pattern1 dirname) eqn:H1; [done|].
  destruct (Re.re_search Combiner.pattern2 dirname); [done|].
  by rewrite (pattern3_implies_pattern1 dirname H1).
Qed.

(** ** chapter_combiner_external.py: [get_chapter_directories] *)

(** C8.  A directory whose name carries chapter number 0 is parsed (its
    key is 0.0), yet the sort key of line 103 replaces the key by the
    infinite sentinel: the directory is sorted after chapter 1. *)
Theorem get_chapter_directories_chapter_zero_last :
  Combiner.extract_chapter_number "Ch.0" = Ok (Some (PyFloat.Finite 0))
  /\ Combiner.extract_chapter_number "Ch.1" = Ok (Some (PyFloat.Finite 1))
  /\ Combiner.sort_key "Ch.0" = Ok PyFloat.PosInf
  /\ Combiner.get_chapter_directories
       [("Ch.0", Combiner.Directory []); ("Ch.1", Combiner.Directory [])]
     = Ok ["Ch.1"; "Ch.0"].
Proof. repeat split; vm_compute; reflexivity. Qed.

(** ** downloader.py: [combine_chapters] and [get_downloaded_chapters] *)


(** C3.  In that run the labels "5" and "6" are not in the set of
    [get_downloaded_chapters], which holds "5.0" and "6.0": chapter 5 is
    not skipped but downloaded again; saving the statistics then raises
    (line 645 dumps a [set]), the whole folder is removed, and chapters 6
    and 7 are never asked for. *)
Theorem resume_does_not_skip :
  let run := Downloader.main (resume_env (fun _ _ => Ok "image") (Ok tt))
                             (resume_state folder_5_6) in
  Downloader.get_downloaded_chapters folder_5_6 = {[ "5.0"; "6.0" ]}
  /\ Downloader.in_downloaded (Some "5") (Downloader.get_downloaded_chapters folder_5_6)
     = false
  /\ Downloader.download_calls (fst run) = ["id-5"]
  /\ snd run = Raise (TypeError "Object of type set is not JSON serializable")
  /\ Downloader.fs (fst run) !! "/home/user/downloads/Title" = None.
Proof. repeat split; vm_compute; reflexivity. Qed.

(** ** downloader.py: the cleanup of [main] *)

Section MainCleanup.
Import Downloader.

Lemma keeps_ret {A} (a : A) : keeps_base (mret a).
Proof. done. Qed.

Lemma keeps_bind {A B} (m : M A) (k : A -> M B) :
  keeps_base m -> (forall a, keeps_base (k a)) -> keeps_base (m ≫= k).
Proof.
  intros Hm Hk st. unfold mbind, M_bind. specialize (Hm st).
  destruct (m st) as [st' [a|e]]; simpl in *; [|done]. by rewrite Hk.
Qed.

Lemma keeps_lift {A} (r : result A) : keeps_base (lift r).
Proof. done. Qed.

Lemma keeps_get_fs : keeps_base get_fs.
Proof. done. Qed.

Lemma keeps_set_fs f : keeps_base (set_fs f).
Proof. done. Qed.

Lemma keeps_print msg : keeps_base (print msg).
Proof. done. Qed.

Lemma keeps_input : keeps_base input.
Proof. intros st. unfold input. by destruct (stdin st). Qed.

Lemma keeps_log_download c : keeps_base (log_download c).
Proof. done. Qed.

Create HintDb keeps.
#[local] Hint Resolve keeps_ret keeps_lift keeps_get_fs keeps_set_fs keeps_print
  keeps_input keeps_log_download : keeps.

Ltac keeps_step :=
  first
    [ solve [auto with keeps]
    | apply keeps_bind; [|intros ?]
    | match goal with
      | |- keeps_base (if ?b then _ else _) => destruct b
      | |- keeps_base (match ?x with _ => _ end) => destruct x
      | |- keeps_base (let '(_, _) := ?x in _) => destruct x
      end ].

Ltac keeps := repeat keeps_step.

Lemma keeps_read_dir path : keeps_base (read_dir path).
Proof. unfold read_dir. keeps. Qed.

Lemma keeps_write_dir path d : keeps_base (write_dir path d).
Proof. unfold write_dir. keeps. Qed.

#[local] Hint Resolve keeps_read_dir keeps_write_dir : keeps.

Lemma keeps_makedirs path : keeps_base (makedirs path).
Proof. unfold makedirs. keeps. Qed.

Lemma keeps_write_file dir name n : keeps_base (write_file dir name n).
Proof. unfold write_file. keeps. Qed.

Lemma keeps_remove_chapter_files dir : keeps_base (remove_chapter_files dir).
Proof. unfold remove_chapter_files. keeps. Qed.

#[local] Hint Resolve keeps_makedirs keeps_write_file keeps_remove_chapter_files : keeps.

Lemma keeps_prompt_until valid retry fuel : keeps_base (prompt_until valid retry fuel).
Proof. induction fuel as [|x fuel IH]; simpl; keeps. Qed.

Lemma keeps_prompt valid retry : keeps_base (prompt valid retry).
Proof. intros st. unfold prompt. apply keeps_prompt_until. Qed.

Lemma keeps_download_chapter env id title dir :
  keeps_base (download_chapter env id title dir).
Proof. unfold download_chapter. keeps. Qed.

Lemma keeps_create_cbz dir image_dir name meta :
  keeps_base (create_cbz dir image_dir name meta).
Proof. unfold create_cbz. keeps. Qed.

Lemma keeps_save_stats dir s : keeps_base (save_stats dir s).
Proof. unfold save_stats. keeps. Qed.

#[local] Hint Resolve keeps_prompt keeps_download_chapter keeps_create_cbz
  keeps_save_stats : keeps.

Lemma keeps_process_chapter env meta dir ch title s :
  keeps_base (process_chapter env meta dir ch title s).
Proof. unfold process_chapter. keeps. Qed.

Lemma keeps_reporting {A} title (m : M A) : keeps_base m -> keeps_base (reporting title m).
Proof.
  intros Hm st. unfold reporting. specialize (Hm st).
  destruct (m st) as [st' [a|e]]; simpl in *; [done|].
  by destruct (isinstance_Exception e).
Qed.

#[local] Hint Resolve keeps_process_chapter keeps_reporting : keeps.

Lemma keeps_download_loop env meta dir downloaded total chapters : forall i s,
  keeps_base (download_loop env meta dir downloaded total i chapters s).
Proof.
  induction chapters as [|ch chapters IH]; intros i s; simpl; keeps.
Qed.

Lemma keeps_download_all env manga_id meta safe_title dir downloaded :
  keeps_base (download_all env manga_id meta safe_title dir downloaded).
Proof. unfold download_all. pose proof keeps_download_loop. keeps. Qed.

(** Once the manga is resolved, [output_base] is bound, whatever happens
    next. *)
Lemma main_try_binds env st manga_name rest manga_id meta :
  stdin st = manga_name :: rest ->
  search_manga env manga_name = Ok manga_id ->
  get_manga_metadata env manga_id = Ok meta ->
  output_base (fst (main_try env st))
  = Some (os_path_join (downloads_dir env) (sanitize_filename (title meta))).
Proof.
  intros Hin Hsearch Hmeta. unfold main_try.
  unfold mbind at 1. unfold M_bind at 1. unfold input at 1. rewrite Hin. simpl.
  unfold mbind at 1. unfold M_bind at 1. unfold lift at 1. rewrite Hsearch. simpl.
  unfold mbind at 1. unfold M_bind at 1. unfold lift at 1. rewrite Hmeta. simpl.
  unfold mbind at 1. unfold M_bind at 1. unfold bind_output_base at 1. simpl.
  match goal with |- output_base (fst (?m ?s)) = _ =>
    assert (Hk : keeps_base m); [|by rewrite (Hk s)] end.
  pose proof keeps_download_all. keeps.
Qed.

End MainCleanup.

(** C6, as stated, fails: when the removal of the folder raises as well, the
    handler prints the second error and goes on; the fetch error still
    propagates, but the folder, with the partly downloaded chapter, is
    there after the run. *)
Lemma failed_cleanup_leaves_folder :
  let run := Downloader.main
               (resume_env failing_fetch (Raise (Exception "PermissionError")))
               first_run_state in
  snd run = Raise (Exception "connection lost")
  /\ (exists files,
        Downloader.fs (fst run) !! "/home/user/downloads/Title" = Some files
        /\ files !! "Chapter_5.0" = Some (Downloader.Folder {[ "000.jpg" := "image" ]})).
Proof.
  split; [vm_compute; reflexivity|].
  eexists. split; vm_compute; reflexivity.
Qed.

(** C6, amended.  Once the manga is resolved, if anything in the [try]
    block of [main] (a page fetch or write, or any later step) raises an
    instance of [Exception], then [main] raises that same exception,
    provided the removal of the folder does not itself raise something
    that is no [Exception]; and the output folder is absent after the run
    provided [shutil.rmtree] succeeds. *)
Theorem main_failure_cleanup (env : Downloader.Env) (st st1 : Downloader.state)
    (manga_name : string) (rest : list string) (manga_id : string)
    (meta : Downloader.metadata) (e : exn) :
  Downloader.stdin st = manga_name :: rest ->
  Downloader.search_manga env manga_name = Ok manga_id ->
  Downloader.get_manga_metadata env manga_id = Ok meta ->
  Downloader.main_try env st = (st1, Raise e) ->
  isinstance_Exception e = true ->
  ((forall ce, Downloader.rmtree_output_base env = Raise ce ->
               isinstance_Exception ce = true) ->
   snd (Downloader.main env st) = Raise e)
  /\ (Downloader.rmtree_output_base env = Ok tt ->
      Downloader.fs (fst (Downloader.main env st))
        !! os_path_join (Downloader.downloads_dir env)
                        (Downloader.sanitize_filename (Downloader.title meta))
      = None).
Proof.
  intros Hin Hsearch Hmeta Htry He.
  pose proof (main_try_binds env st manga_name rest manga_id meta Hin Hsearch Hmeta)
    as Hbase.
  unfold Downloader.main. rewrite Htry in *. simpl in Hbase. rewrite He.
  unfold Downloader.cleanup. simpl. rewrite Hbase.
  set (dir := os_path_join _ _).
  destruct (bool_decide (is_Some (Downloader.fs st1 !! dir))) eqn:Hex.
  - destruct (Downloader.rmtree_output_base env) as [[]|ce] eqn:Hrm.
    + split; [done|]. intros _. simpl. apply lookup_delete_eq.
    + split; [|done]. intros Hce. by rewrite (Hce ce eq_refl).
  - apply bool_decide_eq_false in Hex. split; [done|]. intros _. simpl.
    by apply eq_None_not_Some.
Qed.

Lemma main_failure_cleanup_witness :
  let run := Downloader.main (resume_env failing_fetch (Ok tt)) first_run_state in
  snd run = Raise (Exception "connection lost")
  /\ Downloader.fs (fst run) !! "/home/user/downloads/Title" = None.
Proof.
  destruct (main_failure_cleanup (resume_env failing_fetch (Ok tt)) first_run_state
              (fst (Downloader.main_try (resume_env failing_fetch (Ok tt)) first_run_state))
              "Title" [] "manga-id"
              {| Downloader.title := "Title"; Downloader.metadata_json := "{}" |}
              (Exception "connection lost")) as [Hraise Habsent].
  - reflexivity.
  - reflexivity.
  - reflexivity.
  - vm_compute. reflexivity.
  - reflexivity.
  - split.
    + apply Hraise. intros ce H. discriminate H.
    + apply Habsent. reflexivity.
Defined.

(** ** [extract_chapter_number] never raises *)

Section ExtractTotal.
Import Re Combiner.

Lemma all_digits_app s t : all_digits (s +:+ t) = all_digits s && all_digits t.
Proof.
  unfold all_digits. induction s as [|a s IH]; [done|].
  rewrite str_app_cons. simpl. by rewrite IH, andb_assoc.
Qed.

Lemma starts_text p s s' :
  starts p s s' ->
  exists w, s = w +:+ s' /\ forallb p (list_ascii_of_string w) = true.
Proof.
  induction 1 as [s|a s s' Hp _ (w & -> & Hw)].
  - by exists EmptyString.
  - exists (String a w). split; [done|]. simpl. by rewrite Hp.
Qed.

Lemma substring_prefix w s : String.substring 0 (String.length w) (w +:+ s) = w.
Proof.
  induction w as [|a w IH]; [by destruct s|].
  rewrite str_app_cons. simpl. by rewrite IH.
Qed.

Lemma consumed_app w s : consumed (w +:+ s) s = w.
Proof.
  unfold consumed. rewrite str_length_app.
  replace (String.length w + String.length s - String.length s)%nat
    with (String.length w) by lia.
  apply substring_prefix.
Qed.

Lemma matches_cls_inv p s c s' c' :
  matches (Cls p) s c s' c' -> exists a, s = String a s' /\ p a = true /\ c' = c.
Proof. inversion 1; subst; eauto. Qed.

Lemma matches_eps_inv s c s' c' : matches Eps s c s' c' -> s' = s /\ c' = c.
Proof. by inversion 1. Qed.

Lemma matches_star_inv p s c s' c' : matches (Star p) s c s' c' -> starts p s s' /\ c' = c.
Proof. by inversion 1. Qed.

Lemma matches_plus_inv p s c s' c' :
  matches (Plus p) s c s' c' ->
  exists a s0, s = String a s0 /\ p a = true /\ starts p s0 s' /\ c' = c.
Proof. inversion 1; subst; eauto 10. Qed.

Lemma matches_opt_inv r s c s' c' :
  matches (Opt r) s c s' c' -> matches r s c s' c' \/ (s' = s /\ c' = c).
Proof. inversion 1; subst; eauto. Qed.

Lemma matches_group_inv n r s c s' c' :
  matches (Group n r) s c s' c' ->
  exists c0, matches r s c s' c0 /\ c' = <[n := consumed s s']> c0.
Proof. inversion 1; subst; eauto. Qed.

Lemma matches_plus_digits n s c s' c' :
  matches (Group n (Plus is_digit)) s c s' c' ->
  exists w, digits_text w /\ c' = <[n := w]> c.
Proof.
  intros H. apply matches_group_inv in H as (c0 & H & ->).
  apply matches_plus_inv in H as (a & s0 & -> & Ha & Hs & ->).
  apply starts_text in Hs as (w & -> & Hw).
  exists (String a w). rewrite <- str_app_cons, consumed_app.
  split; [|done]. split; [|done]. unfold all_digits. simpl. by rewrite Ha.
Qed.

Lemma matches_number_group s c s' c' :
  matches number_group s c s' c' -> exists w, number_text w /\ c' = <[1%nat := w]> c.
Proof.
  intros H. apply matches_group_inv in H as (c0 & H & ->).
  change (seq [Plus is_digit; Opt (Cls (chr ".")); Star is_digit])
    with (Seq (Plus is_digit) (Seq (Opt (Cls (chr "."))) (Seq (Star is_digit) Eps))) in H.
  apply matches_seq_inv in H as (s1 & c1 & H1 & H).
  apply matches_seq_inv in H as (s2 & c2 & H2 & H).
  apply matches_seq_inv in H as (s3 & c3 & H3 & H).
  apply matches_eps_inv in H as [-> ->].
  apply matches_plus_inv in H1 as (a & s0 & -> & Ha & Hs1 & ->).
  apply starts_text in Hs1 as (w1 & -> & Hw1).
  apply matches_star_inv in H3 as [Hs3 ->].
  apply starts_text in Hs3 as (w3 & Hs2 & Hw3).
  apply matches_opt_inv in H2 as [H2|[E ->]].
  - apply matches_cls_inv in H2 as (b & -> & Hb & ->). subst s2.
    apply Ascii.eqb_eq in Hb as <-.
    exists (String a w1 +:+ String "." w3). split.
    + exists (String a w1), (String "." w3).
      split; [done|]. split; [unfold all_digits; simpl; by rewrite Ha|].
      split; [done|]. right. by exists w3.
    + f_equal. rewrite <- (consumed_app (String a w1 +:+ String "." w3) s3).
      f_equal. by rewrite !str_app_cons, <- !str_app_assoc.
  - subst s2 s1. exists (String a (w1 +:+ w3)). split.
    + exists (String a (w1 +:+ w3)), EmptyString.
      split; [by rewrite str_app_nil_r|].
      split; [|by split; [|left]].
      change (String a (w1 +:+ w3)) with (String a w1 +:+ w3).
      rewrite all_digits_app. unfold all_digits. simpl. rewrite Ha. simpl.
      by rewrite Hw1, Hw3.
    + f_equal. rewrite <- (consumed_app (String a (w1 +:+ w3)) s3).
      f_equal. by rewrite !str_app_cons, <- !str_app_assoc.
Qed.

Lemma split_dot_digits d rest :
  all_digits d = true ->
  PyFloat.split_dot (d +:+ rest) = let '(a, b) := PyFloat.split_dot rest in (d +:+ a, b).
Proof.
  unfold all_digits. induction d as [|c d IH]; intros H.
  - rewrite str_app_nil_l. by destruct (PyFloat.split_dot rest).
  - cbn [list_ascii_of_string forallb] in H.
    apply andb_true_iff in H as [Hc Hd]. rewrite str_app_cons.
    cbn [PyFloat.split_dot].
    destruct (Ascii.eqb c ".") eqn:E.
    + apply Ascii.eqb_eq in E as ->. done.
    + rewrite (IH Hd). by destruct (PyFloat.split_dot rest).
Qed.

Lemma of_str_number_text w : number_text w -> exists x, PyFloat.of_str w = Ok x.
Proof.
  intros (d1 & rest & -> & Hd1 & Hne & Hrest). unfold PyFloat.of_str.
  rewrite (split_dot_digits d1 rest Hd1).
  destruct Hrest as [->|(d2 & -> & Hd2)]; simpl.
  - rewrite str_app_nil_r, Hd1. simpl.
    apply String.eqb_neq in Hne. rewrite Hne. simpl. eauto.
  - rewrite str_app_nil_r, Hd1, Hd2. simpl.
    apply String.eqb_neq in Hne. rewrite Hne. simpl. eauto.
Qed.

Lemma of_str_digits w : digits_text w -> exists x, PyFloat.of_str w = Ok x.
Proof.
  intros [Hw Hne]. apply of_str_number_text. exists w, EmptyString.
  rewrite str_app_nil_r. auto.
Qed.

Lemma int_of_str_digits w : digits_text w -> int_of_str w = Ok (digits_value w).
Proof.
  intros [Hw Hne]. unfold int_of_str. rewrite Hw.
  apply String.eqb_neq in Hne. by rewrite Hne.
Qed.

Lemma digits_value_nonneg w : all_digits w = true -> 0 <= digits_value w.
Proof.
  unfold all_digits, digits_value.
  assert (H : forall l acc, forallb is_digit l = true -> 0 <= acc ->
              0 <= fold_left (fun acc c => 10 * acc + digit_value c) l acc).
  { induction l as [|c l IH]; simpl; intros acc Hl Hacc; [done|].
    apply andb_true_iff in Hl as [Hc Hl]. apply IH; [done|].
    unfold is_digit in Hc. apply andb_true_iff in Hc as [Hc1 Hc2].
    apply Nat.leb_le in Hc1. unfold digit_value. lia. }
  intros Hw. by apply H.
Qed.

Lemma string_of_uint_digits d : all_digits (NilEmpty.string_of_uint d) = true.
Proof. unfold all_digits. induction d; simpl; done. Qed.

Lemma str_of_int_digits n : 0 <= n -> digits_text (str_of_int n).
Proof.
  intros Hn. unfold str_of_int. destruct n as [|p|p]; [done| |lia].
  simpl. split; [apply string_of_uint_digits|].
  pose proof (DecimalPos.Unsigned.to_uint_nonnil p) as Hnil.
  by destruct (Pos.to_uint p).
Qed.

Lemma zfill_digits width s : digits_text s -> digits_text (zfill width s).
Proof.
  intros [Hs Hne]. unfold zfill. split.
  - rewrite all_digits_app, Hs, andb_true_r.
    unfold all_digits. rewrite list_ascii_of_string_of_list_ascii.
    induction (width - String.length s)%nat; simpl; done.
  - destruct (string_of_list_ascii _); [done|]. by rewrite str_app_cons.
Qed.

Lemma format_0d_digits width n : 0 <= n -> digits_text (format_0d width n).
Proof.
  intros Hn. unfold format_0d. destruct (n <? 0) eqn:E; [lia|].
  by apply zfill_digits, str_of_int_digits.
Qed.

Lemma digits_text_app s t : digits_text s -> digits_text t -> digits_text (s +:+ t).
Proof.
  intros [Hs Hne] [Ht _]. split; [by rewrite all_digits_app, Hs, Ht|].
  destruct s; [done|]. by rewrite str_app_cons.
Qed.

Lemma rule_number_ok s c s' m :
  matches number_group s c s' m -> exists x, rule_number m = Ok (Some x).
Proof.
  intros H. apply matches_number_group in H as (w & Hw & ->).
  unfold rule_number, group, Match in *. rewrite lookup_insert_eq. simpl.
  destruct (of_str_number_text w Hw) as [x ->]. eauto.
Qed.

End ExtractTotal.

Section ExtractTotalRules.
Import Re Combiner.

(** Peel a leading element without groups off a sequence. *)
Ltac peel H :=
  let Hp := fresh "Hp" in
  apply matches_seq_inv in H as (? & ? & Hp & H);
  apply matches_no_groups in Hp as ->; [|reflexivity].

Lemma pattern1_ok t t' m :
  matches pattern1 t ∅ t' m -> exists x, rule_number m = Ok (Some x).
Proof.
  unfold pattern1, seq. simpl. intros H. do 3 peel H.
  apply matches_seq_inv in H as (? & ? & Hg & H).
  apply matches_eps_inv in H as [-> ->]. by eapply rule_number_ok.
Qed.

Lemma pattern2_ok t t' m :
  matches pattern2 t ∅ t' m -> exists x, rule_number m = Ok (Some x).
Proof.
  unfold pattern2, seq. simpl. intros H. do 3 peel H.
  apply matches_seq_inv in H as (? & ? & Hg & H).
  apply matches_eps_inv in H as [-> ->]. by eapply rule_number_ok.
Qed.

Lemma pattern3_ok t t' m :
  matches pattern3 t ∅ t' m -> exists x, rule_number m = Ok (Some x).
Proof.
  intros H. apply pattern3_ends_in_pattern1 in H as (u & _ & H).
  by eapply pattern1_ok.
Qed.

Lemma pattern4_ok t t' m :
  matches pattern4 t ∅ t' m -> exists x, rule_floor m = Ok (Some x).
Proof.
  unfold pattern4, seq. simpl. intros H. do 3 peel H.
  apply matches_seq_inv in H as (? & ? & Hg1 & H).
  apply matches_plus_digits in Hg1 as (w1 & Hw1 & ->).
  do 4 peel H.
  apply matches_seq_inv in H as (? & ? & Hg2 & H).
  apply matches_plus_digits in Hg2 as (w2 & Hw2 & ->).
  apply matches_eps_inv in H as [-> ->].
  unfold rule_floor, group, Match in *.
  rewrite (lookup_insert_ne _ 2%nat 1%nat) by lia. rewrite !lookup_insert_eq. simpl.
  rewrite (int_of_str_digits w1 Hw1), (int_of_str_digits w2 Hw2). simpl.
  destruct (of_str_digits (str_of_int (digits_value w1) +:+ format_0d 3 (digits_value w2)))
    as [y ->]; [|by eauto].
  apply digits_text_app.
  - apply str_of_int_digits, digits_value_nonneg, Hw1.
  - apply format_0d_digits, digits_value_nonneg, Hw2.
Qed.

Lemma pattern5_ok t t' m :
  matches pattern5 t ∅ t' m -> exists x, rule_extra m = Ok (Some x).
Proof.
  unfold pattern5, seq. simpl. intros H. do 3 peel H.
  apply matches_seq_inv in H as (? & ? & Hg1 & H).
  apply matches_plus_digits in Hg1 as (w1 & Hw1 & ->).
  do 3 peel H.
  apply matches_eps_inv in H as [-> ->].
  unfold rule_extra, group, Match in *.
  rewrite lookup_insert_eq. simpl.
  rewrite (int_of_str_digits w1 Hw1). simpl.
  destruct (of_str_digits (str_of_int (digits_value w1 + 1) +:+ "000")) as [y ->];
    [|by eauto].
  apply digits_text_app; [|done].
  apply str_of_int_digits. pose proof (digits_value_nonneg w1 (proj1 Hw1)). lia.
Qed.

(** [extract_chapter_number] returns on every string. *)
Lemma extract_chapter_number_total s : exists r, extract_chapter_number s = Ok r.
Proof.
  unfold extract_chapter_number.
  destruct (re_search pattern1 s) eqn:H1.
  { apply re_search_sound in H1 as (t & t' & _ & H).
    apply pattern1_ok in H as [x ->]. eauto. }
  destruct (re_search pattern2 s) eqn:H2.
  { apply re_search_sound in H2 as (t & t' & _ & H).
    apply pattern2_ok in H as [x ->]. eauto. }
  destruct (re_search pattern3 s) eqn:H3.
  { apply re_search_sound in H3 as (t & t' & _ & H).
    apply pattern3_ok in H as [x ->]. eauto. }
  destruct (re_search pattern4 s) eqn:H4.
  { apply re_search_sound in H4 as (t & t' & _ & H).
    apply pattern4_ok in H as [x ->]. eauto. }
  destruct (re_search pattern5 s) eqn:H5.
  { apply re_search_sound in H5 as (t & t' & _ & H).
    apply pattern5_ok in H as [x ->]. eauto. }
  eauto.
Qed.

End ExtractTotalRules.



(** ** Zero-padded numbers and the order of strings *)

Lemma str_lt_compare x y : str_lt x y = true <-> String.compare x y = Lt.
Proof. unfold str_lt, String.ltb. by destruct (String.compare x y). Qed.

Lemma str_lt_le x y : str_lt x y = true -> String.le x y.
Proof.
  rewrite str_lt_compare. unfold String.le, String.leb. by intros ->.
Qed.

Lemma str_lt_trans x y z : str_lt x y = true -> str_lt y z = true -> str_lt x z = true.
Proof.
  intros Hxy Hyz. destruct (str_lt x z) eqn:Hxz; [done|].
  apply str_lt_false_le in Hxz. apply str_lt_le in Hxy.
  assert (String.le z y) as Hzy by (by etrans).
  apply str_lt_false_le in Hzy. congruence.
Qed.

Lemma str_lt_irrefl x : str_lt x x = false.
Proof. apply str_lt_false_le. done. Qed.

Lemma ascii_compare_refl a : Ascii.compare a a = Eq.
Proof. unfold Ascii.compare. apply N.compare_refl. Qed.

Lemma compare_app_prefix p x y :
  String.compare (p +:+ x) (p +:+ y) = String.compare x y.
Proof.
  induction p as [|a p IH]; [done|].
  rewrite !str_app_cons. simpl. by rewrite ascii_compare_refl.
Qed.

Lemma compare_app_same_length u : forall v x y,
  String.length u = String.length v ->
  String.compare u v = Lt -> String.compare (u +:+ x) (v +:+ y) = Lt.
Proof.
  induction u as [|a u IH]; intros [|b v] x y Hlen Hlt;
    rewrite ?str_app_cons; simpl in *; try done.
  destruct (Ascii.compare a b); [|done|done].
  apply IH; [lia|done].
Qed.

(** A property of all integers below a bound, checked one by one. *)
Lemma forall_below (P : Z -> bool) (N : Z) :
  forallb P (map Z.of_nat (List.seq 0 (Z.to_nat N))) = true ->
  forall n, 0 <= n < N -> P n = true.
Proof.
  intros H n Hn. rewrite forallb_forall in H. apply H.
  apply in_map_iff. exists (Z.to_nat n). split; [lia|].
  apply in_seq. lia.
Qed.

Lemma pad4_ok n : 0 <= n < 9999 -> padded_ok 4 n = true.
Proof. apply (forall_below (padded_ok 4) 9999). vm_compute. reflexivity. Qed.

Lemma pad3_ok n : 0 <= n < 999 -> padded_ok 3 n = true.
Proof. apply (forall_below (padded_ok 3) 999). vm_compute. reflexivity. Qed.

Lemma pad4_length n : 0 <= n <= 9999 -> String.length (format_0d 4 n) = 4%nat.
Proof.
  intros Hn. destruct (decide (n = 9999)) as [->|]; [done|].
  pose proof (pad4_ok n ltac:(lia)) as H. apply andb_true_iff in H as [H _].
  by apply Nat.eqb_eq in H.
Qed.

Lemma pad3_length n : 0 <= n <= 999 -> String.length (format_0d 3 n) = 3%nat.
Proof.
  intros Hn. destruct (decide (n = 999)) as [->|]; [done|].
  pose proof (pad3_ok n ltac:(lia)) as H. apply andb_true_iff in H as [H _].
  by apply Nat.eqb_eq in H.
Qed.

Lemma padded_lt (width : nat) (bound : Z) :
  (forall n, 0 <= n < bound -> padded_ok width n = true) ->
  forall a b, 0 <= a -> a < b -> b <= bound ->
  str_lt (format_0d width a) (format_0d width b) = true.
Proof.
  intros Hok a b Ha Hab Hb.
  replace b with (a + 1 + Z.of_nat (Z.to_nat (b - a - 1))) by lia.
  assert (Hk : a + 1 + Z.of_nat (Z.to_nat (b - a - 1)) <= bound) by lia.
  revert Hk. generalize (Z.to_nat (b - a - 1)). clear b Hab Hb.
  induction n as [|k IH]; intros Hk.
  - rewrite Z.add_0_r. pose proof (Hok a ltac:(lia)) as H.
    by apply andb_true_iff in H as [_ H].
  - eapply str_lt_trans; [apply IH; lia|].
    replace (a + 1 + Z.of_nat (S k)) with (a + 1 + Z.of_nat k + 1) by lia.
    pose proof (Hok (a + 1 + Z.of_nat k) ltac:(lia)) as H.
    by apply andb_true_iff in H as [_ H].
Qed.

Lemma pad4_lt a b :
  0 <= a -> a < b -> b <= 9999 -> str_lt (format_0d 4 a) (format_0d 4 b) = true.
Proof. apply (padded_lt 4 9999). apply pad4_ok. Qed.

Lemma pad3_lt a b :
  0 <= a -> a < b -> b <= 999 -> str_lt (format_0d 3 a) (format_0d 3 b) = true.
Proof. apply (padded_lt 3 999). apply pad3_ok. Qed.

(** ** chapter_combiner_external.py: the 4-digit form of a key *)

(** C7, as stated, fails.  The keys of "Ch.11" and "Ch.11.5" are 11.0 and
    11.5, in that order, and both receive the form "0011"; the keys of
    "Vol.9 Floor 999" and "Vol.9 Extra" are 9999.0 and 10000.0, and the form
    of the larger one, "10000", precedes "9999". *)
Lemma padded_forms_collide_and_reverse :
  (exists a b,
      Combiner.extract_chapter_number "Ch.11" = Ok (Some a)
      /\ Combiner.extract_chapter_number "Ch.11.5" = Ok (Some b)
      /\ PyFloat.ltb a b = true
      /\ Combiner.chapter_num_str a = Ok "0011"
      /\ Combiner.chapter_num_str b = Ok "0011")
  /\ (exists a b,
        Combiner.extract_chapter_number "Vol.9 Floor 999" = Ok (Some a)
        /\ Combiner.extract_chapter_number "Vol.9 Extra" = Ok (Some b)
        /\ PyFloat.ltb a b = true
        /\ Combiner.chapter_num_str a = Ok "9999"
        /\ Combiner.chapter_num_str b = Ok "10000"
        /\ str_lt "10000" "9999" = true).
Proof.
  split.
  - exists (PyFloat.Finite 11), (PyFloat.Finite (23 # 2)).
    repeat split; vm_compute; reflexivity.
  - exists (PyFloat.Finite 9999), (PyFloat.Finite 10000).
    repeat split; vm_compute; reflexivity.
Qed.

(** C7, amended.  For two keys whose integer parts [a] and [b] (what
    [int(chapter_num)] yields) satisfy [0 <= a < b <= 9999], in particular
    for whole-number keys below 10000 in that order, the 4-digit form of the
    first strictly precedes the form of the second in the order of strings;
    the two forms are therefore distinct. *)
Theorem padded_order (x y : PyFloat.float) (a b : Z) :
  PyFloat.to_int x = Ok a -> PyFloat.to_int y = Ok b ->
  0 <= a -> a < b -> b <= 9999 ->
  exists sa sb,
    Combiner.chapter_num_str x = Ok sa /\ Combiner.chapter_num_str y = Ok sb
    /\ str_lt sa sb = true /\ sa <> sb.
Proof.
  intros Hx Hy Ha Hab Hb. unfold Combiner.chapter_num_str. rewrite Hx, Hy. simpl.
  exists (format_0d 4 a), (format_0d 4 b).
  pose proof (pad4_lt a b Ha Hab Hb) as Hlt.
  repeat split; [done|]. intros E. rewrite E, str_lt_irrefl in Hlt. done.
Qed.

Lemma padded_order_witness :
  exists sa sb,
    Combiner.chapter_num_str (PyFloat.Finite 11) = Ok sa
    /\ Combiner.chapter_num_str (PyFloat.Finite (157 # 2)) = Ok sb
    /\ str_lt sa sb = true /\ sa <> sb.
Proof.
  apply (padded_order (PyFloat.Finite 11) (PyFloat.Finite (157 # 2)) 11 78).
  - reflexivity.
  - reflexivity.
  - lia.
  - lia.
  - lia.
Defined.

(** ** chapter_combiner_external.py: [combine_chapters] *)

Section DirectoryCombiner.
Import Combiner.

(** *** The order of processing *)

Lemma sort_key_total x : sort_key x = Ok (the_key x).
Proof.
  unfold the_key, sort_key. by destruct (extract_chapter_number_total x) as [r ->].
Qed.

Lemma mapM_ok {A B} (f : A -> result B) (g : A -> B) l :
  (forall x, f x = Ok (g x)) -> mapM f l = Ok (map g l).
Proof.
  intros Hf. induction l as [|x l IH]; [done|].
  simpl. rewrite Hf. simpl. by rewrite IH.
Qed.

Lemma get_chapter_directories_perm manga_dir :
  exists dirs,
    get_chapter_directories manga_dir = Ok dirs
    /\ dirs ≡ₚ map fst (List.filter (fun it => isdir (snd it)) manga_dir).
Proof.
  unfold get_chapter_directories.
  set (chapter_dirs := map fst (List.filter _ manga_dir)).
  rewrite (mapM_ok _ (fun x => (the_key x, x))).
  2:{ intros x. by rewrite sort_key_total. }
  simpl. eexists. split; [done|].
  rewrite sorted_by_perm. rewrite map_map. simpl. by rewrite map_id.
Qed.

(** *** The scratch directory *)

Lemma find_name_some (listing : list (string * entry)) f :
  f ∈ map fst listing ->
  exists e, List.find (fun x => String.eqb (fst x) f) listing = Some (f, e)
            /\ (f, e) ∈ listing.
Proof.
  intros Hf. destruct (List.find _ listing) as [[f' e]|] eqn:E.
  - apply find_some in E as [Hin Heq]. simpl in Heq. apply String.eqb_eq in Heq as ->.
    exists e. split; [done|]. by apply list_elem_of_In.
  - apply list_elem_of_fmap in Hf as ([f' e] & -> & Hin).
    apply list_elem_of_In in Hin. apply (find_none _ _ E) in Hin. simpl in Hin.
    by rewrite String.eqb_refl in Hin.
Qed.

Lemma process_images_ok listing s files : forall i temp_dir,
  (forall f e, (f, e) ∈ listing -> is_image f = true -> exists data, e = RegularFile data) ->
  Forall (fun f => f ∈ map fst listing /\ is_image f = true) files ->
  process_images listing s i files temp_dir
  = Ok (foldl ins temp_dir (number_pages s listing i files)).
Proof.
  intros i temp_dir Hreg Hfiles. revert i temp_dir.
  induction Hfiles as [|f files [Hf Himg] _ IH]; intros i temp_dir; [done|].
  cbn [process_images number_pages foldl]. destruct (splitext f) as [name ext] eqn:Hext.
  destruct (find_name_some listing f Hf) as (e & Hfind & Hin).
  destruct (Hreg f e Hin Himg) as [data ->].
  unfold copy2. rewrite Hfind. cbn [mbind result_bind Py.bind].
  rewrite IH. unfold ins at 3. cbn [fst snd]. unfold image_data. by rewrite Hfind.
Qed.

Lemma image_files_spec listing f :
  f ∈ image_files listing -> f ∈ map fst listing /\ is_image f = true.
Proof.
  unfold image_files. rewrite sorted_perm. intros Hf.
  apply list_elem_of_In, filter_In in Hf as [Hf Himg]. by apply list_elem_of_In in Hf.
Qed.

Lemma process_chapter_ok listing temp_dir s :
  clean_chapter listing ->
  process_chapter listing temp_dir s
  = Ok (foldl ins temp_dir (number_pages s listing 1 (image_files listing))).
Proof.
  intros [_ Hreg _]. unfold process_chapter. fold (image_files listing).
  apply process_images_ok; [done|].
  apply Forall_forall. apply image_files_spec.
Qed.

Lemma chapter_listing_lookup manga_dir name listing :
  NoDup (map fst manga_dir) -> (name, Directory listing) ∈ manga_dir ->
  chapter_listing manga_dir name = listing.
Proof.
  intros Hnd Hin. unfold chapter_listing.
  destruct (List.find _ manga_dir) as [[name' it]|] eqn:E.
  - apply find_some in E as [Hin' Heq]. simpl in Heq. apply String.eqb_eq in Heq as ->.
    apply list_elem_of_In in Hin'.
    assert (it = Directory listing) as ->; [|done].
    clear -Hnd Hin Hin'. induction manga_dir as [|[n i] l IH]; [by apply elem_of_nil in Hin|].
    simpl in Hnd. apply NoDup_cons in Hnd as [Hn Hnd].
    apply elem_of_cons in Hin as [Hin|Hin]; apply elem_of_cons in Hin' as [Hin'|Hin'].
    + congruence.
    + exfalso. apply Hn. apply list_elem_of_fmap. exists (name, it).
      split; [|done]. simpl. congruence.
    + exfalso. apply Hn. apply list_elem_of_fmap. exists (name, Directory listing).
      split; [|done]. simpl. congruence.
    + by apply IH.
  - apply list_elem_of_In in Hin. apply (find_none _ _ E) in Hin. simpl in Hin.
    by rewrite String.eqb_refl in Hin.
Qed.

Lemma process_chapters_ok manga_dir dirs : forall temp_dir log,
  clean_manga manga_dir ->
  Forall (fun d => exists listing, (d, Directory listing) ∈ manga_dir) dirs ->
  process_chapters manga_dir dirs temp_dir log
  = (log ++ map WarningNoChapterNumber (unparsed dirs),
     Ok (foldl ins temp_dir (flat_map (pages_of manga_dir) dirs))).
Proof.
  intros temp_dir log Hclean Hdirs. revert temp_dir log.
  induction Hdirs as [|d dirs [listing Hd] _ IH]; intros temp_dir log.
  { simpl. by rewrite app_nil_r. }
  cbn [process_chapters flat_map unparsed List.filter].
  unfold pages_of at 1, parses at 1, chapter_int.
  destruct (extract_chapter_number_total d) as [[k|] Hk]; rewrite Hk.
  - destruct (cm_keys _ Hclean d listing k Hd Hk) as (n & Hn & Hrange).
    unfold chapter_num_str. rewrite Hn. cbn [mbind result_bind Py.bind negb].
    rewrite (chapter_listing_lookup manga_dir d listing (cm_nodup _ Hclean) Hd).
    rewrite process_chapter_ok.
    2:{ apply (cm_chapters _ Hclean d listing Hd). unfold parses. by rewrite Hk. }
    rewrite IH. by rewrite foldl_app.
  - cbn [negb map]. rewrite IH. simpl. by rewrite <- app_assoc.
Qed.

(** *** The generated names are in chapter-then-page order *)

Lemma number_pages_elem s listing files : forall i e,
  e ∈ number_pages s listing i files ->
  exists j f, i <= j < i + Z.of_nat (length files)
              /\ fst e = s +:+ "_" +:+ format_0d 3 j +:+ snd (splitext f).
Proof.
  induction files as [|f files IH]; intros i e He; [by apply elem_of_nil in He|].
  cbn [number_pages] in He. apply elem_of_cons in He as [->|He].
  - exists i, f. split; [simpl; lia|done].
  - apply IH in He as (j & f' & Hj & He). exists j, f'. split; [simpl; lia|done].
Qed.

Lemma page_name_lt s j j' x y :
  0 <= j -> j < j' -> j' <= 999 ->
  str_lt (s +:+ "_" +:+ format_0d 3 j +:+ x) (s +:+ "_" +:+ format_0d 3 j' +:+ y) = true.
Proof.
  intros Hj Hlt Hj'. apply str_lt_compare.
  rewrite compare_app_prefix, (compare_app_prefix "_").
  apply compare_app_same_length.
  - rewrite !pad3_length by lia. done.
  - apply str_lt_compare. by apply pad3_lt.
Qed.

Lemma number_pages_sorted s listing files : forall i,
  0 <= i -> i + Z.of_nat (length files) <= 1000 ->
  StronglySorted name_lt (number_pages s listing i files).
Proof.
  induction files as [|f files IH]; intros i Hi Hlen; [constructor|].
  cbn [number_pages]. simpl in Hlen. constructor.
  - apply IH; lia.
  - apply Forall_forall. intros e He.
    apply number_pages_elem in He as (j & f' & Hj & He).
    unfold name_lt. rewrite He. cbn [fst]. apply page_name_lt; lia.
Qed.

Lemma chapter_name_lt n n' x y :
  0 <= n -> n < n' -> n' <= 9999 ->
  str_lt (format_0d 4 n +:+ x) (format_0d 4 n' +:+ y) = true.
Proof.
  intros Hn Hlt Hn'. apply str_lt_compare. apply compare_app_same_length.
  - rewrite !pad4_length by lia. done.
  - apply str_lt_compare. by apply pad4_lt.
Qed.

Lemma chapter_pages_elem c e :
  e ∈ chapter_pages c -> exists x, fst e = format_0d 4 (fst c) +:+ x.
Proof.
  unfold chapter_pages. intros He.
  apply number_pages_elem in He as (j & f & _ & ->). eauto.
Qed.

Lemma flat_map_chapters_sorted cs :
  StronglySorted (fun x y : Z * list (string * entry) => fst x < fst y) cs ->
  Forall in_range cs ->
  StronglySorted name_lt (flat_map chapter_pages cs).
Proof.
  induction 1 as [|c cs Hcs IH Hc]; intros Hr; [constructor|].
  apply Forall_cons in Hr as [[Hc1 Hc2] Hr]. cbn [flat_map].
  apply StronglySorted_app. split; [|split].
  - intros a b Ha Hb.
    apply chapter_pages_elem in Ha as [x Ha].
    apply list_elem_of_In, in_flat_map in Hb as (c' & Hc' & Hb).
    apply list_elem_of_In in Hc', Hb.
    apply chapter_pages_elem in Hb as [y Hb].
    unfold name_lt. rewrite Ha, Hb.
    pose proof (proj1 (Forall_forall _ _) Hc c' Hc') as Hlt.
    pose proof (proj1 (Forall_forall _ _) Hr c' Hc') as [Hc'1 _].
    simpl in Hlt. apply chapter_name_lt; lia.
  - unfold chapter_pages. apply number_pages_sorted; lia.
  - by apply IH.
Qed.

Lemma strictly_sorted (cs : list (Z * list (string * entry))) :
  StronglySorted (not_after Z.ltb fst) cs -> NoDup (map fst cs) ->
  StronglySorted (fun x y => fst x < fst y) cs.
Proof.
  induction 1 as [|c cs Hcs IH Hc]; intros Hnd; [constructor|].
  simpl in Hnd. apply NoDup_cons in Hnd as [Hnotin Hnd].
  constructor; [by apply IH|].
  apply Forall_forall. intros c' Hc'.
  pose proof (proj1 (Forall_forall _ _) Hc c' Hc') as Hle.
  unfold not_after in Hle. simpl in Hle. apply Z.ltb_ge in Hle.
  assert (fst c <> fst c'); [|lia].
  intros E. apply Hnotin. rewrite E. apply list_elem_of_fmap. by exists c'.
Qed.

Lemma sorted_chapters_strict cs :
  NoDup (map fst cs) ->
  StronglySorted (fun x y => fst x < fst y)
                 (sorted_by Z.ltb (fst : Z * list (string * entry) -> Z) cs).
Proof.
  intros Hnd. apply strictly_sorted.
  - apply sorted_by_sorted.
    + intros a b. rewrite Z.ltb_lt, Z.ltb_ge. lia.
    + intros x y z. unfold not_after. rewrite !Z.ltb_ge. lia.
  - by rewrite sorted_by_perm.
Qed.

Lemma chapters_of_elem manga_dir n listing :
  (n, listing) ∈ chapters_of manga_dir ->
  exists name, (name, Directory listing) ∈ manga_dir /\ chapter_int name = Some n.
Proof.
  unfold chapters_of. intros H.
  apply list_elem_of_omap in H as ([name it] & Hin & H). simpl in H.
  destruct it as [|l]; [done|].
  destruct (chapter_int name) as [n'|] eqn:E; simplify_eq/=. eauto.
Qed.

Lemma chapter_int_some name n :
  chapter_int name = Some n ->
  exists k, extract_chapter_number name = Ok (Some k) /\ PyFloat.to_int k = Ok n.
Proof.
  unfold chapter_int. destruct (extract_chapter_number name) as [[k|]|]; try done.
  destruct (PyFloat.to_int k) eqn:E; intros [= <-]. eauto.
Qed.

Lemma chapters_in_range manga_dir :
  clean_manga manga_dir -> Forall in_range (chapters_of manga_dir).
Proof.
  intros Hclean. apply Forall_forall. intros [n listing] Hc.
  apply chapters_of_elem in Hc as (name & Hin & Hint).
  apply chapter_int_some in Hint as (k & Hk & Hn).
  destruct (cm_keys _ Hclean name listing k Hin Hk) as (n' & Hn' & Hrange).
  assert (n' = n) as -> by congruence.
  split; [done|]. simpl.
  assert (Hp : parses name = true) by (unfold parses; by rewrite Hk).
  pose proof (cc_pages _ (cm_chapters _ Hclean name listing Hin Hp)) as Hlen.
  unfold image_files. by rewrite sorted_perm.
Qed.

Lemma expected_archive_sorted manga_dir :
  clean_manga manga_dir -> StronglySorted name_lt (expected_archive manga_dir).
Proof.
  intros Hclean. unfold expected_archive. apply flat_map_chapters_sorted.
  - apply sorted_chapters_strict, (cm_distinct _ Hclean).
  - rewrite sorted_by_perm. by apply chapters_in_range.
Qed.

(** *** The archive written *)

Lemma foldl_ins_list_to_map (l : list (string * string)) (m : gmap string string) :
  foldl ins m l = list_to_map (reverse l) ∪ m.
Proof.
  induction l as [|[k v] l IH] using rev_ind.
  - simpl. by rewrite (left_id_L ∅ (∪)).
  - rewrite foldl_app, reverse_snoc. simpl. unfold ins at 1. simpl.
    by rewrite IH, insert_union_l.
Qed.

Lemma name_lt_nodup (l : list (string * string)) :
  StronglySorted name_lt l -> NoDup (l.*1).
Proof.
  induction 1 as [|e l Hl IH He]; [constructor|].
  rewrite fmap_cons. apply NoDup_cons. split; [|done].
  intros Hin. apply list_elem_of_fmap in Hin as (e' & Heq & Hin).
  pose proof (proj1 (Forall_forall _ _) He e' Hin) as Hlt.
  unfold name_lt in Hlt. rewrite Heq, str_lt_irrefl in Hlt. done.
Qed.

Lemma name_lt_le (l : list (string * string)) :
  StronglySorted name_lt l -> StronglySorted String.le (l.*1).
Proof.
  induction 1 as [|e l Hl IH He]; [constructor|].
  rewrite fmap_cons. constructor; [done|].
  apply Forall_fmap. eapply Forall_impl; [exact He|].
  intros e' Hlt. by apply str_lt_le.
Qed.

Lemma omap_lookup (m : gmap string string) (l : list (string * string)) :
  (forall k v, (k, v) ∈ l -> m !! k = Some v) ->
  omap (fun file => data ← m !! file; Some (file, data)) (l.*1) = l.
Proof.
  induction l as [|[k v] l IH]; intros H; [done|].
  rewrite fmap_cons. cbn [omap list_omap fst]. rewrite (H k v) by left. simpl.
  f_equal. apply IH. intros k' v' Hin. apply H. by right.
Qed.

Lemma write_archive_sorted (entries expected : list (string * string)) :
  entries ≡ₚ expected -> StronglySorted name_lt expected ->
  write_archive (foldl ins ∅ entries) = expected.
Proof.
  intros Hperm Hsorted. unfold write_archive.
  rewrite foldl_ins_list_to_map, (right_id_L ∅ (∪)).
  assert (Hnd : NoDup ((reverse entries).*1)).
  { rewrite reverse_Permutation, Hperm. by apply name_lt_nodup. }
  assert (Hkeys : sorted (listdir (list_to_map (reverse entries) : gmap string string))
                  = expected.*1).
  { apply (StronglySorted_unique String.le).
    - apply sorted_sorted.
    - by apply name_lt_le.
    - rewrite sorted_perm. unfold listdir.
      change (map fst ?l) with (l.*1).
      by rewrite (map_to_list_to_map _ Hnd), reverse_Permutation, Hperm. }
  rewrite Hkeys. apply omap_lookup.
  intros k v Hin. apply elem_of_list_to_map; [done|].
  by rewrite reverse_Permutation, Hperm.
Qed.

Lemma pages_of_chapters manga_dir (l0 : list (string * item)) :
  NoDup (map fst manga_dir) ->
  (forall x, x ∈ l0 -> x ∈ manga_dir) ->
  flat_map (pages_of manga_dir) (map fst (List.filter (fun it => isdir (snd it)) l0))
  = flat_map chapter_pages (chapters_of l0).
Proof.
  intros Hnd. induction l0 as [|[name it] l0 IH]; intros Hsub; [done|].
  assert (IH' : flat_map (pages_of manga_dir)
                  (map fst (List.filter (fun it => isdir (snd it)) l0))
                = flat_map chapter_pages (chapters_of l0)).
  { apply IH. intros x Hx. apply Hsub. by right. }
  unfold chapters_of in *. cbn [List.filter snd fst omap list_omap].
  destruct it as [|listing]; cbn [isdir]; [done|].
  cbn [map flat_map fst]. rewrite IH'. unfold pages_of at 1.
  destruct (chapter_int name) as [n|]; cbn [mbind option_bind]; [|done].
  cbn [flat_map]. f_equal. f_equal.
  rewrite (chapter_listing_lookup manga_dir name listing Hnd); [done|].
  apply Hsub. by left.
Qed.

Lemma entries_perm manga_dir dirs :
  NoDup (map fst manga_dir) ->
  dirs ≡ₚ map fst (List.filter (fun it => isdir (snd it)) manga_dir) ->
  flat_map (pages_of manga_dir) dirs ≡ₚ expected_archive manga_dir.
Proof.
  intros Hnd Hperm. rewrite Hperm. rewrite (pages_of_chapters manga_dir manga_dir Hnd) by done.
  unfold expected_archive. by rewrite sorted_by_perm.
Qed.

Lemma directory_names manga_dir (d : string) :
  d ∈ map fst (List.filter (fun it => isdir (snd it)) manga_dir) ->
  exists listing, (d, Directory listing) ∈ manga_dir.
Proof.
  intros Hd. apply list_elem_of_fmap in Hd as ([name it] & -> & Hin).
  apply list_elem_of_In, filter_In in Hin as [Hin Hdir]. simpl in *.
  destruct it as [|listing]; [done|]. exists listing. by apply list_elem_of_In.
Qed.

End DirectoryCombiner.

(** C5, as stated, fails: two directories with the same key ("Ch.5" and
    "Chapter 5") are written under the same names, so only one of their
    images reaches the archive; and a key of five digits ("Vol.9 Extra",
    10000) is not cut to four, its entries sort before those of key 9999. *)
Lemma combine_chapters_collision_and_overflow :
  Combiner.combine_chapters
    [("Ch.5", Combiner.Directory [("a.jpg", Combiner.RegularFile "first")]);
     ("Chapter 5", Combiner.Directory [("b.jpg", Combiner.RegularFile "second")])]
  = ([Combiner.FoundChapters 2], Ok [("0005_001.jpg", "second")])
  /\ Combiner.combine_chapters
       [("Vol.9 Floor 999", Combiner.Directory [("a.jpg", Combiner.RegularFile "9999")]);
        ("Vol.9 Extra", Combiner.Directory [("b.jpg", Combiner.RegularFile "10000")])]
     = ([Combiner.FoundChapters 2],
        Ok [("10000_001.jpg", "10000"); ("9999_001.jpg", "9999")]).
Proof. split; vm_compute; reflexivity. Qed.

(** C5, amended.  Take a manga directory whose entries have distinct
    names, in which the chapter subdirectories that parse have integer keys
    within 0..9999, no two of them the same, and hold at most 999 images
    each, all of them regular files, and which has at least one
    subdirectory.  Then [combine_chapters] returns normally; the archive
    holds, for each parsed chapter in ascending key order, one entry per
    image of the chapter in sorted name order, named key_index.extension
    with the key on 4 and the index on 3 digits, and nothing else, its names
    strictly ascending; the log holds one warning for each subdirectory
    whose name does not parse, and those contribute no entry. *)
Theorem combine_chapters_clean (manga_dir : list (string * Combiner.item)) :
  clean_manga manga_dir ->
  (exists name listing, (name, Combiner.Directory listing) ∈ manga_dir) ->
  exists dirs,
    Combiner.get_chapter_directories manga_dir = Ok dirs
    /\ dirs ≡ₚ map fst (List.filter (fun it => Combiner.isdir (snd it)) manga_dir)
    /\ Combiner.combine_chapters manga_dir
       = (Combiner.FoundChapters (length dirs)
            :: map Combiner.WarningNoChapterNumber (unparsed dirs),
          Ok (expected_archive manga_dir))
    /\ StronglySorted name_lt (expected_archive manga_dir).
Proof.
  intros Hclean (name & listing & Hdir).
  destruct (get_chapter_directories_perm manga_dir) as (dirs & Hget & Hperm).
  exists dirs. split; [done|]. split; [done|].
  split; [|by apply expected_archive_sorted].
  unfold Combiner.combine_chapters. rewrite Hget.
  destruct dirs as [|d dirs].
  { exfalso. apply Permutation_nil_l in Hperm.
    assert (Hin : name ∈ map fst (List.filter (fun it => Combiner.isdir (snd it)) manga_dir)).
    { apply list_elem_of_fmap. exists (name, Combiner.Directory listing).
      split; [done|]. apply list_elem_of_In, filter_In.
      split; [by apply list_elem_of_In|done]. }
    rewrite <- Hperm in Hin. by apply elem_of_nil in Hin. }
  rewrite process_chapters_ok; [|done|].
  2:{ apply Forall_forall. intros d' Hd'. apply (directory_names manga_dir).
      by rewrite <- Hperm. }
  cbn [mbind result_bind Py.bind app]. do 2 f_equal.
  apply write_archive_sorted.
  - apply entries_perm; [apply (cm_nodup _ Hclean)|done].
  - by apply expected_archive_sorted.
Qed.

Ltac cases_in H :=
  repeat (apply elem_of_cons in H as [H|H]);
  [..|by apply elem_of_nil in H]; simplify_eq.

Lemma sample_manga_clean : clean_manga sample_manga.
Proof.
  split.
  - apply (bool_decide_unpack _). vm_compute. exact I.
  - intros name listing k Hin Hk. cases_in Hin; vm_compute in Hk; simplify_eq.
    + exists 2. split; [reflexivity|lia].
    + exists 1. split; [reflexivity|lia].
  - apply (bool_decide_unpack _). vm_compute. exact I.
  - intros name listing Hin Hp. cases_in Hin; vm_compute in Hp; try discriminate Hp.
    + split.
      * apply (bool_decide_unpack _). vm_compute. exact I.
      * intros f e He Himg. cases_in He; eauto.
      * vm_compute. lia.
    + split.
      * apply (bool_decide_unpack _). vm_compute. exact I.
      * intros f e He Himg. cases_in He; eauto.
      * vm_compute. lia.
Defined.

Lemma combine_chapters_clean_witness :
  Combiner.combine_chapters sample_manga
  = ([Combiner.FoundChapters 3; Combiner.WarningNoChapterNumber "artbook"],
     Ok [("0001_001.webp", "page 1"); ("0002_001.jpg", "page 2a");
         ("0002_002.PNG", "page 2b")]).
Proof.
  destruct (combine_chapters_clean sample_manga sample_manga_clean)
    as (dirs & Hdirs & _ & Hrun & _).
  - exists "Ch.2". eexists. left.
  - vm_compute in Hdirs. injection Hdirs as <-. exact Hrun.
Defined.

(** * Further properties

    Properties of the prompts, the main programs and the functions they
    call, read off the code. *)

(** ** splitter.py: what [split_cbz] writes *)

Section SplitCbzMore.
Import Splitter.
Context (cbz : ZipFile) (output_dir base_name : string) (max_size : Z).

Lemma get_cbz_size_cons zi (l : ZipFile) :
  get_cbz_size (zi :: l) = Z.of_N (file_size zi) + get_cbz_size l.
Proof.
  induction l as [|x l IH] using rev_ind; [unfold get_cbz_size; simpl; lia|].
  rewrite app_comm_cons, !get_cbz_size_snoc, IH. lia.
Qed.



Lemma get_cbz_size_nonneg (l : ZipFile) : 0 <= get_cbz_size l.
Proof. induction l as [|zi l IH]; [done|]. rewrite get_cbz_size_cons. lia. Qed.







End SplitCbzMore.



(** *** The paths of the parts *)

Lemma list_ascii_app s t :
  list_ascii_of_string (s +:+ t) = list_ascii_of_string s ++ list_ascii_of_string t.
Proof. induction s as [|a s IH]; [done|]. rewrite str_app_cons. simpl. by rewrite IH. Qed.






(** ** splitter.py: [select_manga] and [main] *)

Lemma select_loop_rejects {A} (cbz_files : list A) bad typed log :
  Forall (out_of_range cbz_files) bad ->
  Splitter.select_loop cbz_files (bad ++ typed) log
  = Splitter.select_loop cbz_files typed (log ++ map reply bad).
Proof.
  intros Hbad. revert log.
  induction Hbad as [|[choice|] bad Hb _ IH]; intros log; simpl.
  - by rewrite app_nil_r.
  - simpl in Hb.
    replace ((1 <=? choice) && (choice <=? Z.of_nat (length cbz_files))) with false by lia.
    rewrite IH. by rewrite <- app_assoc.
  - rewrite IH. by rewrite <- app_assoc.
Qed.

(** X4.  The prompt of [select_manga] (the list of files not being
    empty): every line that is no number or no position of the list is
    answered by one message and the prompt is repeated; the first line that
    is a position selects the file at that position, whatever is typed
    after it; when the input ends before such a line, [EOFError] is
    raised. *)
Theorem select_manga_retries (cbz_files : list (string * option Splitter.ZipFile))
    (bad : list (option Z)) :
  cbz_files <> [] ->
  Forall (out_of_range cbz_files) bad ->
  (forall choice rest, 1 <= choice <= Z.of_nat (length cbz_files) ->
     exists f,
       cbz_files !! Z.to_nat (choice - 1) = Some f
       /\ Splitter.select_manga cbz_files (bad ++ Some choice :: rest)
          = (Splitter.AvailableMangaFiles (map fst cbz_files) :: map reply bad,
             Ok (Some f)))
  /\ Splitter.select_manga cbz_files bad
     = (Splitter.AvailableMangaFiles (map fst cbz_files) :: map reply bad, Raise EOFError).
Proof.
  intros Hne Hbad. unfold Splitter.select_manga.
  destruct cbz_files as [|f0 fs] eqn:E; [done|]. rewrite <- E in *. clear Hne.
  split.
  - intros choice rest Hc.
    destruct (lookup_lt_is_Some_2 cbz_files (Z.to_nat (choice - 1))) as [f Hf]; [lia|].
    exists f. split; [done|].
    rewrite select_loop_rejects by done. simpl.
    replace ((1 <=? choice) && (choice <=? Z.of_nat (length cbz_files))) with true by lia.
    by rewrite Hf.
  - rewrite <- (app_nil_r bad) at 1. by rewrite select_loop_rejects.
Qed.

Lemma select_manga_retries_witness :
  Splitter.select_manga [("a.cbz", None); ("b.cbz", Some [])] [None; Some 7; Some 2; Some 1]
  = ([Splitter.AvailableMangaFiles ["a.cbz"; "b.cbz"]; Splitter.PleaseEnterValidNumber;
      Splitter.InvalidSelection], Ok (Some ("b.cbz", Some []))).
Proof.
  destruct (select_manga_retries [("a.cbz", None); ("b.cbz", Some [])] [None; Some 7])
    as [Hsel _].
  - discriminate.
  - constructor; [exact I|]. constructor; [right; simpl; lia|constructor].
  - destruct (Hsel 2 [Some 1]) as (f & Hf & Hrun); [simpl; lia|].
    simpl in Hf. injection Hf as <-. exact Hrun.
Defined.





(** ** chapter_combiner_external.py: the order of [get_chapter_directories] *)

(** The stable sort on a list whose keys are totally ordered, whatever
    the comparison does elsewhere. *)
Section SortedOn.
Context {A K : Type} (lt : K -> K -> bool) (key : A -> K) (P : A -> Prop).

Hypothesis lt_asym : forall a b, P a -> P b -> lt (key a) (key b) = true -> lt (key b) (key a) = false.
Hypothesis not_after_trans : forall a b c, P a -> P b -> P c ->
  not_after lt key a b -> not_after lt key b c -> not_after lt key a c.

Lemma insert_sorted_sorted_on x l :
  P x -> Forall P l ->
  StronglySorted (not_after lt key) l ->
  StronglySorted (not_after lt key) (insert_sorted lt key x l).
Proof using lt_asym not_after_trans.
  intros Hx. induction l as [|y l IH]; simpl; intros HP Hl.
  - repeat constructor.
  - apply Forall_cons in HP as [Hy HP].
    apply StronglySorted_cons in Hl as [Hyl Hl].
    destruct (lt (key y) (key x)) eqn:E.
    + apply StronglySorted_cons. split; [|by apply IH].
      rewrite insert_sorted_perm. constructor; [|done].
      by apply lt_asym.
    + apply StronglySorted_cons. split.
      * constructor; [done|].
        apply Forall_forall. intros z Hz.
        apply (not_after_trans x y z); try done.
        -- by apply (proj1 (Forall_forall _ _) HP).
        -- by apply (proj1 (Forall_forall _ _) Hyl).
      * by apply StronglySorted_cons.
Qed.

Lemma sorted_by_sorted_on l :
  Forall P l -> StronglySorted (not_after lt key) (sorted_by lt key l).
Proof using lt_asym not_after_trans.
  induction l as [|x l IH]; simpl; intros HP; [constructor|].
  apply Forall_cons in HP as [Hx HP].
  apply insert_sorted_sorted_on; [done| |by apply IH].
  by rewrite sorted_by_perm.
Qed.
End SortedOn.

Lemma StronglySorted_lookup {A} (R : A -> A -> Prop) l i j x y :
  StronglySorted R l -> (i < j)%nat -> l !! i = Some x -> l !! j = Some y -> R x y.
Proof.
  intros Hl. revert i j. induction Hl as [|a l Hl IH Ha]; intros i j Hij Hx Hy; [done|].
  destruct j as [|j]; [lia|]. simpl in Hy. destruct i as [|i]; simpl in Hx.
  - injection Hx as <-. apply (proj1 (Forall_forall _ _) Ha). by eapply list_elem_of_lookup_2.
  - apply (IH i j); [lia|done|done].
Qed.

Lemma Qltb_asym p q : PyFloat.Qltb p q = true -> PyFloat.Qltb q p = false.
Proof.
  unfold PyFloat.Qltb. rewrite negb_true_iff, negb_false_iff.
  intros H. apply Qle_bool_iff. destruct (Qle_bool q p) eqn:E; [done|].
  apply Qlt_le_weak, Qnot_le_lt. intros Hle. apply Qle_bool_iff in Hle. congruence.
Qed.

Lemma Qltb_false p q : PyFloat.Qltb p q = false <-> (q <= p)%Q.
Proof. unfold PyFloat.Qltb. rewrite negb_false_iff. apply Qle_bool_iff. Qed.

Lemma ltb_asym x y : ordinary x -> ordinary y -> PyFloat.ltb x y = true -> PyFloat.ltb y x = false.
Proof. destruct x, y; simpl; try done. intros _ _. apply Qltb_asym. Qed.

Lemma ltb_not_after_trans x y z :
  ordinary x -> ordinary y -> ordinary z ->
  PyFloat.ltb y x = false -> PyFloat.ltb z y = false -> PyFloat.ltb z x = false.
Proof.
  destruct x, y, z; simpl; try done. intros _ _ _.
  rewrite !Qltb_false. intros H1 H2. by eapply Qle_trans.
Qed.

Lemma round_ordinary q : (0 <= Qnum q) -> ordinary (PyFloat.round q).
Proof.
  unfold PyFloat.round. destruct (Qnum q) as [|n|n]; [done| |lia].
  intros _. unfold PyFloat.round_pos.
  destruct (PyFloat.nearest_binary64 _ _) as [m e].
  destruct (0 <=? e); [|done]. by destruct (2 ^ 1024 <=? m * 2 ^ e).
Qed.

Lemma of_str_ordinary s x : PyFloat.of_str s = Ok x -> ordinary x.
Proof.
  unfold PyFloat.of_str. destruct (PyFloat.split_dot s) as [int_part rest].
  destruct (all_digits int_part && all_digits (default "" rest)
            && negb (String.eqb int_part "")) eqn:E; [|done].
  intros [= <-]. apply round_ordinary. simpl.
  apply digits_value_nonneg. rewrite all_digits_app.
  apply andb_true_iff in E as [E _]. done.
Qed.

Section Keys.
Import Combiner.

Lemma rule_number_ordinary m k : rule_number m = Ok (Some k) -> ordinary k.
Proof.
  unfold rule_number, float_of_group. destruct (Re.group m 1) as [s|]; simpl; [|done].
  destruct (PyFloat.of_str s) as [x|] eqn:E; simpl; [|done].
  intros [= <-]. by eapply of_str_ordinary.
Qed.

Lemma rule_floor_ordinary m k : rule_floor m = Ok (Some k) -> ordinary k.
Proof.
  unfold rule_floor. destruct (int_of_group (Re.group m 1)) as [v|]; simpl; [|done].
  destruct (int_of_group (Re.group m 2)) as [f|]; simpl; [|done].
  destruct (PyFloat.of_str _) as [x|] eqn:E; simpl; [|done].
  intros [= <-]. by eapply of_str_ordinary.
Qed.

Lemma rule_extra_ordinary m k : rule_extra m = Ok (Some k) -> ordinary k.
Proof.
  unfold rule_extra. destruct (int_of_group _) as [v|]; simpl; [|done].
  destruct (PyFloat.of_str _) as [x|] eqn:E; simpl; [|done].
  intros [= <-]. by eapply of_str_ordinary.
Qed.

Lemma extract_chapter_number_ordinary s k :
  extract_chapter_number s = Ok (Some k) -> ordinary k.
Proof.
  unfold extract_chapter_number.
  repeat (destruct (Re.re_search _ s);
          [eauto using rule_number_ordinary, rule_floor_ordinary, rule_extra_ordinary|]).
  done.
Qed.

Lemma the_key_ordinary x : ordinary (the_key x).
Proof.
  unfold the_key, sort_key.
  destruct (extract_chapter_number x) as [[k|]|] eqn:E; simpl; try done.
  unfold or_else. destruct (PyFloat.truthy k); [|done].
  by eapply extract_chapter_number_ordinary.
Qed.

End Keys.

(** X6.  [get_chapter_directories] never raises.  It returns the names
    of the subdirectories of the manga directory, each one as often as it is
    listed and no plain file, in an order in which no name has a sort key
    (line 103: the extracted number, or the infinite sentinel when there is
    none or when it is zero) smaller than the key of a name before it. *)
Theorem get_chapter_directories_sorted (manga_dir : list (string * Combiner.item)) :
  exists dirs,
    Combiner.get_chapter_directories manga_dir = Ok dirs
    /\ dirs ≡ₚ map fst (List.filter (fun it => Combiner.isdir (snd it)) manga_dir)
    /\ (forall i j x y kx ky, (i < j)%nat ->
          dirs !! i = Some x -> dirs !! j = Some y ->
          Combiner.sort_key x = Ok kx -> Combiner.sort_key y = Ok ky ->
          PyFloat.ltb ky kx = false).
Proof.
  destruct (get_chapter_directories_perm manga_dir) as (dirs & Hget & Hperm).
  exists dirs. split; [done|]. split; [done|].
  unfold Combiner.get_chapter_directories in Hget.
  set (chapter_dirs := map fst (List.filter _ manga_dir)) in *.
  rewrite (mapM_ok _ (fun x => (the_key x, x))) in Hget.
  2:{ intros x. by rewrite sort_key_total. }
  simpl in Hget. injection Hget as <-.
  set (keyed := map (fun x => (the_key x, x)) chapter_dirs).
  assert (Hkeyed : Forall (fun p : PyFloat.float * string => fst p = the_key (snd p))
                     (sorted_by PyFloat.ltb fst keyed)).
  { rewrite sorted_by_perm. unfold keyed. apply Forall_fmap. by apply Forall_true. }
  assert (Hsorted : StronglySorted (not_after PyFloat.ltb fst) (sorted_by PyFloat.ltb fst keyed)).
  { apply (sorted_by_sorted_on PyFloat.ltb fst
             (fun p : PyFloat.float * string => fst p = the_key (snd p))).
    - intros a b Ha Hb. rewrite Ha, Hb. apply ltb_asym; apply the_key_ordinary.
    - intros a b c Ha Hb Hc. unfold not_after. rewrite Ha, Hb, Hc.
      apply ltb_not_after_trans; apply the_key_ordinary.
    - unfold keyed. apply Forall_fmap. by apply Forall_true. }
  intros i j x y kx ky Hij Hx Hy Hkx Hky.
  rewrite list_lookup_fmap in Hx, Hy.
  destruct (sorted_by PyFloat.ltb fst keyed !! i) as [p|] eqn:Hp; simplify_eq/=.
  destruct (sorted_by PyFloat.ltb fst keyed !! j) as [q|] eqn:Hq; simplify_eq/=.
  rewrite sort_key_total in Hkx, Hky. simplify_eq.
  pose proof (proj1 (Forall_forall _ _) Hkeyed p (list_elem_of_lookup_2 _ _ _ Hp)) as Ep.
  pose proof (proj1 (Forall_forall _ _) Hkeyed q (list_elem_of_lookup_2 _ _ _ Hq)) as Eq.
  rewrite <- Ep, <- Eq.
  apply (StronglySorted_lookup _ _ i j p q Hsorted Hij Hp Hq).
Qed.

(** ** chapter_combiner_external.py: what [combine_chapters] writes *)

Section CombinerArchive.
Import Combiner.

Lemma process_chapters_log manga_dir dirs : forall temp_dir log,
  exists extra, fst (process_chapters manga_dir dirs temp_dir log) = log ++ extra.
Proof.
  induction dirs as [|d dirs IH]; intros temp_dir log; simpl.
  - exists []. by rewrite app_nil_r.
  - destruct (extract_chapter_number d) as [[k|]|e].
    + destruct (_ ≫= _) as [t|e]; [apply IH|]. exists []. by rewrite app_nil_r.
    + destruct (IH temp_dir (log ++ [WarningNoChapterNumber d])) as [extra ->].
      exists (WarningNoChapterNumber d :: extra). by rewrite <- app_assoc.
    + exists []. by rewrite app_nil_r.
Qed.

Lemma str_le_neq_lt x y : String.le x y -> x <> y -> str_lt x y = true.
Proof.
  intros Hle Hne. apply str_lt_false_le in Hle.
  unfold str_lt, String.ltb in *. rewrite (String.compare_antisym y x) in Hle.
  destruct (String.compare x y) eqn:E; simpl in *; try done.
  by apply String.compare_eq_iff in E.
Qed.

Lemma write_archive_spec (temp_dir : gmap string string) (Q : string * string -> Prop) :
  (forall k v, temp_dir !! k = Some v -> Q (k, v)) ->
  StronglySorted name_lt (write_archive temp_dir) /\ Forall Q (write_archive temp_dir).
Proof.
  intros HQ. unfold write_archive.
  assert (Hnd : NoDup (sorted (listdir temp_dir))).
  { rewrite sorted_perm. unfold listdir. apply NoDup_fst_map_to_list. }
  pose proof (sorted_sorted (listdir temp_dir)) as Hs.
  revert Hnd Hs. generalize (sorted (listdir temp_dir)). intros l.
  induction l as [|x l IH]; intros Hnd Hs; [split; constructor|].
  apply NoDup_cons in Hnd as [Hx Hnd]. apply StronglySorted_cons in Hs as [Hxl Hs].
  destruct (IH Hnd Hs) as [IH1 IH2].
  cbn [omap list_omap]. destruct (temp_dir !! x) as [data|] eqn:E; simpl; [|done].
  split; [|constructor; [by apply HQ|done]].
  constructor; [done|]. apply Forall_forall. intros e He.
  apply list_elem_of_omap in He as (y & Hy & He).
  destruct (temp_dir !! y); simplify_eq/=.
  unfold name_lt. simpl. apply str_le_neq_lt.
  - by apply (proj1 (Forall_forall _ _) Hxl).
  - intros ->. done.
Qed.

Lemma process_images_inv listing s (Q : string * string -> Prop) files : forall i temp_dir temp_dir',
  process_images listing s i files temp_dir = Ok temp_dir' ->
  (forall k v, temp_dir !! k = Some v -> Q (k, v)) ->
  (forall f j data, f ∈ files -> i <= j -> (f, RegularFile data) ∈ listing ->
     Q (s +:+ "_" +:+ format_0d 3 j +:+ snd (splitext f), data)) ->
  forall k v, temp_dir' !! k = Some v -> Q (k, v).
Proof.
  induction files as [|f files IH]; intros i temp_dir temp_dir' Hrun Ht Hnew.
  { simpl in Hrun. by injection Hrun as <-. }
  cbn [process_images] in Hrun. destruct (splitext f) as [name ext] eqn:Hext.
  unfold copy2 in Hrun.
  destruct (List.find _ listing) as [[f' [data|]]|] eqn:Hfind; simpl in Hrun; try done.
  apply find_some in Hfind as [Hin Heq]. simpl in Heq. apply String.eqb_eq in Heq as ->.
  apply list_elem_of_In in Hin.
  apply (IH (i + 1) _ _ Hrun).
  - intros k v. rewrite lookup_insert. case_decide as Hk.
    + intros [= <-]. subst k.
      pose proof (Hnew f i data ltac:(left) ltac:(lia) Hin) as H.
      by rewrite Hext in H.
    + apply Ht.
  - intros f' j data' Hf' Hj. apply Hnew; [by right|lia].
Qed.

Lemma chapter_listing_dir manga_dir name f e :
  (f, e) ∈ chapter_listing manga_dir name ->
  (name, Directory (chapter_listing manga_dir name)) ∈ manga_dir.
Proof.
  unfold chapter_listing.
  destruct (List.find _ manga_dir) as [[name' [|listing]]|] eqn:Hfind;
    try (intros H; by apply elem_of_nil in H).
  intros _. apply find_some in Hfind as [Hin Heq]. simpl in Heq.
  apply String.eqb_eq in Heq as ->. by apply list_elem_of_In.
Qed.

Lemma process_chapters_inv manga_dir dirs : forall temp_dir log log' temp_dir',
  process_chapters manga_dir dirs temp_dir log = (log', Ok temp_dir') ->
  (forall k v, temp_dir !! k = Some v -> page_of manga_dir (k, v)) ->
  (forall k v, temp_dir' !! k = Some v -> page_of manga_dir (k, v))
  /\ log' = log ++ map WarningNoChapterNumber (unparsed dirs).
Proof.
  induction dirs as [|d dirs IH]; intros temp_dir log log' temp_dir' Hrun Ht.
  { simpl in Hrun. injection Hrun as <- <-. by rewrite app_nil_r. }
  cbn [process_chapters] in Hrun. cbn [unparsed List.filter]. unfold parses at 1.
  destruct (extract_chapter_number d) as [[k|]|e] eqn:Hk; [| |done].
  - unfold chapter_num_str in Hrun.
    destruct (PyFloat.to_int k) as [n|e] eqn:Hn; simpl in Hrun; [|done].
    destruct (process_chapter _ temp_dir _) as [t|e] eqn:Hp; [|done].
    simpl. apply (IH _ _ _ _ Hrun).
    unfold process_chapter in Hp.
    apply (process_images_inv _ _ (page_of manga_dir) _ _ _ _ Hp Ht).
    intros f j data Hf Hj Hin.
    rewrite sorted_perm in Hf. apply list_elem_of_In, filter_In in Hf as [_ Himg].
    exists d, (chapter_listing manga_dir d), k, n, j, f.
    split; [by eapply chapter_listing_dir|]. repeat split; done || lia.
  - simpl. destruct (IH _ _ _ _ Hrun Ht) as [H1 ->].
    split; [done|]. by rewrite <- app_assoc.
Qed.

End CombinerArchive.

(** X7.  [combine_chapters] ends with the error "No chapter directories
    found in the selected manga directory", having printed nothing, exactly
    when the manga directory has no subdirectory. *)
Theorem combine_chapters_no_directories (manga_dir : list (string * Combiner.item)) :
  Combiner.combine_chapters manga_dir
  = ([], Raise (Exception "No chapter directories found in the selected manga directory"))
  <-> Forall (fun it => Combiner.isdir (snd it) = false) manga_dir.
Proof.
  destruct (get_chapter_directories_perm manga_dir) as (dirs & Hget & Hperm).
  unfold Combiner.combine_chapters. rewrite Hget. split.
  - destruct dirs as [|d dirs].
    + intros _. apply Permutation_nil_l in Hperm.
      apply Forall_forall. intros it Hin.
      destruct (Combiner.isdir (snd it)) eqn:E; [|done].
      assert (it ∈ List.filter (fun it => Combiner.isdir (snd it)) manga_dir) as H.
      { apply list_elem_of_In, filter_In. split; [by apply list_elem_of_In|done]. }
      destruct (List.filter _ manga_dir); [by apply elem_of_nil in H|done].
    + destruct (process_chapters_log manga_dir (d :: dirs) ∅
                  [Combiner.FoundChapters (length (d :: dirs))]) as [extra Hlog].
      destruct (Combiner.process_chapters _ _ _ _) as [log r]. simpl in Hlog.
      rewrite Hlog. intros H. by inversion H.
  - intros Hall.
    assert (List.filter (fun it => Combiner.isdir (snd it)) manga_dir = []) as E.
    { clear -Hall. induction Hall as [|it l Hit _ IH]; [done|]. simpl. by rewrite Hit. }
    rewrite E in Hperm. simpl in Hperm. apply Permutation_nil_r in Hperm. by subst dirs.
Qed.

(** X8.  Whenever [combine_chapters] returns normally, whatever the
    directory holds: the names of the entries of the archive are strictly
    ascending in the order of strings (no name occurs twice); every entry is
    a page, i.e. holds the data of an image file of a subdirectory whose
    name parses, under the name made of the 4-digit form of [int(key)], an
    underscore, a page index from 1 on 3 digits and the extension of the
    file; and the log is the count of the subdirectories followed by one
    warning for each name that does not parse, in processing order. *)
Theorem combine_chapters_archive (manga_dir : list (string * Combiner.item))
    (log : list Combiner.message) (entries : list (string * string)) :
  Combiner.combine_chapters manga_dir = (log, Ok entries) ->
  StronglySorted name_lt entries
  /\ Forall (page_of manga_dir) entries
  /\ exists dirs,
       Combiner.get_chapter_directories manga_dir = Ok dirs
       /\ log = Combiner.FoundChapters (length dirs)
                  :: map Combiner.WarningNoChapterNumber (unparsed dirs).
Proof.
  unfold Combiner.combine_chapters.
  destruct (Combiner.get_chapter_directories manga_dir) as [[|d dirs]|e] eqn:Hget; try done.
  destruct (Combiner.process_chapters _ _ _ _) as [log' [temp_dir|e]] eqn:Hrun; [|done].
  simpl. intros [= <- <-].
  apply process_chapters_inv in Hrun as [Hpages ->]; [|by intros k v; rewrite lookup_empty].
  destruct (write_archive_spec temp_dir (page_of manga_dir) Hpages) as [H1 H2].
  split; [done|]. split; [done|]. by exists (d :: dirs).
Qed.

Section CombinerFailure.
Import Combiner.

Lemma find_nodup (listing : list (string * entry)) f e :
  NoDup (map fst listing) -> (f, e) ∈ listing ->
  List.find (fun x => String.eqb (fst x) f) listing = Some (f, e).
Proof.
  intros Hnd Hin. destruct (find_name_some listing f) as (e' & Hfind & Hin').
  { apply list_elem_of_fmap. by exists (f, e). }
  rewrite Hfind. do 2 f_equal.
  clear Hfind. induction listing as [|[n x] l IH]; [by apply elem_of_nil in Hin|].
  simpl in Hnd. apply NoDup_cons in Hnd as [Hn Hnd].
  apply elem_of_cons in Hin as [Hin|Hin]; apply elem_of_cons in Hin' as [Hin'|Hin'].
  - congruence.
  - exfalso. apply Hn. apply list_elem_of_fmap. exists (f, e'). split; [|done]. simpl. congruence.
  - exfalso. apply Hn. apply list_elem_of_fmap. exists (f, e). split; [|done]. simpl. congruence.
  - by apply IH.
Qed.

Lemma process_images_raises listing s f files : forall i temp_dir,
  NoDup (map fst listing) -> (f, Subdirectory) ∈ listing -> f ∈ files ->
  exists e, process_images listing s i files temp_dir = Raise e.
Proof.
  intros i temp_dir Hnd Hin Hf. revert i temp_dir.
  induction files as [|g files IH]; intros i temp_dir; [by apply elem_of_nil in Hf|].
  cbn [process_images]. destruct (splitext g) as [name ext].
  destruct (copy2 listing g _ temp_dir) as [t|e] eqn:Hcopy; simpl; [|by eauto].
  apply elem_of_cons in Hf as [->|Hf]; [|by apply IH].
  unfold copy2 in Hcopy. by rewrite (find_nodup listing g Subdirectory Hnd Hin) in Hcopy.
Qed.

Lemma process_chapters_raises manga_dir dir listing k f dirs : forall temp_dir log,
  NoDup (map fst manga_dir) -> NoDup (map fst listing) ->
  (dir, Directory listing) ∈ manga_dir ->
  extract_chapter_number dir = Ok (Some k) ->
  (f, Subdirectory) ∈ listing -> is_image f = true ->
  dir ∈ dirs ->
  exists e, snd (process_chapters manga_dir dirs temp_dir log) = Raise e.
Proof.
  intros temp_dir log Hnd Hndl Hdir Hk Hf Himg Hin. revert temp_dir log.
  induction dirs as [|d dirs IH]; intros temp_dir log; [by apply elem_of_nil in Hin|].
  cbn [process_chapters].
  destruct (decide (d = dir)) as [->|Hne].
  - rewrite Hk. rewrite (chapter_listing_lookup manga_dir dir listing Hnd Hdir).
    destruct (chapter_num_str k) as [s|e]; simpl; [|by eauto].
    destruct (process_images_raises listing s f
                (sorted (List.filter is_image (map fst listing))) 1 temp_dir Hndl Hf)
      as [e He].
    { rewrite sorted_perm. apply list_elem_of_In, filter_In. split; [|done].
      apply list_elem_of_In, list_elem_of_fmap. by exists (f, Subdirectory). }
    unfold process_chapter. rewrite He. simpl. eauto.
  - apply elem_of_cons in Hin as [->|Hin]; [done|].
    destruct (extract_chapter_number d) as [[k'|]|e]; simpl; [| |by eauto].
    + destruct (_ ≫= _) as [t|e]; simpl; [|by eauto]. by apply IH.
    + by apply IH.
Qed.

End CombinerFailure.

(** X9.  A subdirectory of a chapter directory whose name ends like an
    image name aborts the whole combination: when a chapter directory whose
    name parses lists such an entry (names being distinct in both
    listings), [combine_chapters] raises and no archive is written. *)
Theorem combine_chapters_directory_image (manga_dir : list (string * Combiner.item))
    (dir : string) (listing : list (string * Combiner.entry)) (k : PyFloat.float)
    (f : string) :
  NoDup (map fst manga_dir) -> NoDup (map fst listing) ->
  (dir, Combiner.Directory listing) ∈ manga_dir ->
  Combiner.extract_chapter_number dir = Ok (Some k) ->
  (f, Combiner.Subdirectory) ∈ listing -> Combiner.is_image f = true ->
  exists e, snd (Combiner.combine_chapters manga_dir) = Raise e.
Proof.
  intros Hnd Hndl Hdir Hk Hf Himg.
  destruct (get_chapter_directories_perm manga_dir) as (dirs & Hget & Hperm).
  assert (Hin : dir ∈ dirs).
  { rewrite Hperm. apply list_elem_of_fmap. exists (dir, Combiner.Directory listing).
    split; [done|]. apply list_elem_of_In, filter_In. split; [by apply list_elem_of_In|done]. }
  unfold Combiner.combine_chapters. rewrite Hget.
  destruct dirs as [|d dirs]; [by apply elem_of_nil in Hin|].
  destruct (process_chapters_raises manga_dir dir listing k f (d :: dirs) ∅
              [Combiner.FoundChapters (length (d :: dirs))] Hnd Hndl Hdir Hk Hf Himg Hin)
    as [e He].
  destruct (Combiner.process_chapters _ _ _ _) as [log r]. simpl in *. subst r.
  by exists e.
Qed.

Lemma combine_chapters_directory_image_witness :
  exists e,
    snd (Combiner.combine_chapters
           [("Ch.1", Combiner.Directory [("1.jpg", Combiner.RegularFile "page")]);
            ("Ch.2", Combiner.Directory [("scans.png", Combiner.Subdirectory)])])
    = Raise e.
Proof.
  apply (combine_chapters_directory_image _ "Ch.2" [("scans.png", Combiner.Subdirectory)]
           (PyFloat.Finite 2) "scans.png").
  - apply (bool_decide_unpack _). vm_compute. exact I.
  - apply (bool_decide_unpack _). vm_compute. exact I.
  - right. left.
  - vm_compute. reflexivity.
  - left.
  - reflexivity.
Defined.

Lemma combine_chapters_archive_witness :
  Forall (page_of sample_manga)
    [("0001_001.webp", "page 1"); ("0002_001.jpg", "page 2a"); ("0002_002.PNG", "page 2b")].
Proof.
  destruct (combine_chapters_archive sample_manga
              [Combiner.FoundChapters 3; Combiner.WarningNoChapterNumber "artbook"]
              [("0001_001.webp", "page 1"); ("0002_001.jpg", "page 2a");
               ("0002_002.PNG", "page 2b")]) as (_ & H & _).
  - vm_compute. reflexivity.
  - exact H.
Defined.

(** ** chapter_combiner_external.py: the documented name forms *)

(** How the matcher runs on a text of known shape. *)
Section MatcherRuns.
Import Re.

Lemma go_seq {A} r1 r2 s caps (k : string -> Match -> option A) :
  go (Seq r1 r2) s caps k = go r1 s caps (fun s' caps' => go r2 s' caps' k).
Proof. reflexivity. Qed.

Lemma go_group {A} n r s caps (k : string -> Match -> option A) :
  go (Group n r) s caps k
  = go r s caps (fun s' caps' => k s' (<[n := consumed s s']> caps')).
Proof. reflexivity. Qed.

Lemma go_opt {A} r s caps (k : string -> Match -> option A) :
  go (Opt r) s caps k
  = match go r s caps k with Some a => Some a | None => k s caps end.
Proof. reflexivity. Qed.

Lemma go_star {A} p s caps (k : string -> Match -> option A) :
  go (Star p) s caps k = star p s (fun s' => k s' caps).
Proof. reflexivity. Qed.


Lemma go_eps {A} s caps (k : string -> Match -> option A) : go Eps s caps k = k s caps.
Proof. reflexivity. Qed.

Lemma go_cls_ok {A} p c s caps (k : string -> Match -> option A) :
  p c = true -> go (Cls p) (String c s) caps k = k s caps.
Proof. intros H. simpl. by rewrite H. Qed.

Lemma go_cls_stops {A} p s caps (k : string -> Match -> option A) :
  stops p s -> go (Cls p) s caps k = None.
Proof. destruct s as [|c s]; simpl; [done|]. by intros ->. Qed.

Lemma star_greedy {A} p w s (k : string -> option A) a :
  forallb p (list_ascii_of_string w) = true -> stops p s ->
  k s = Some a -> star p (w +:+ s) k = Some a.
Proof.
  intros Hw Hs Hk. induction w as [|c w IH].
  - rewrite str_app_nil_l. destruct s as [|c s]; simpl; [done|].
    simpl in Hs. by rewrite Hs.
  - simpl in Hw. apply andb_true_iff in Hw as [Hc Hw].
    rewrite str_app_cons. simpl. rewrite Hc. by rewrite (IH Hw).
Qed.

Lemma plus_greedy {A} p w s caps (k : string -> Match -> option A) a :
  forallb p (list_ascii_of_string w) = true -> w <> EmptyString -> stops p s ->
  k s caps = Some a -> go (Plus p) (w +:+ s) caps k = Some a.
Proof.
  intros Hw Hne Hs Hk. destruct w as [|c w]; [done|].
  simpl in Hw. apply andb_true_iff in Hw as [Hc Hw].
  rewrite str_app_cons. simpl. rewrite Hc. by apply star_greedy.
Qed.

Lemma lit_run {A} w s caps (k : string -> Match -> option A) :
  go (lit w) (w +:+ s) caps k = k s caps.
Proof.
  induction w as [|c w IH]; [done|].
  rewrite str_app_cons. simpl. unfold chr. by rewrite Ascii.eqb_refl.
Qed.

Lemma search_skip p r pre s :
  free_of p pre -> re_search (Seq (Cls p) r) (pre +:+ s) = re_search (Seq (Cls p) r) s.
Proof.
  unfold free_of. induction pre as [|c pre IH]; intros H; [done|].
  simpl in H. apply andb_true_iff in H as [Hc H]. apply negb_true_iff in Hc.
  rewrite str_app_cons. cbn [re_search]. unfold re_match at 1. cbn [go]. rewrite Hc.
  by apply IH.
Qed.

Lemma search_none p r s : free_of p s -> re_search (Seq (Cls p) r) s = None.
Proof.
  intros H. rewrite <- (str_app_nil_r s). rewrite search_skip by done. done.
Qed.

Lemma search_here r s m : re_match r s = Some m -> re_search r s = Some m.
Proof. intros H. destruct s; simpl; by rewrite H. Qed.

Lemma free_of_app p s t : free_of p (s +:+ t) <-> free_of p s /\ free_of p t.
Proof.
  unfold free_of. rewrite list_ascii_app, forallb_app. apply andb_true_iff.
Qed.

Lemma free_of_weaken (p q : ascii -> bool) s :
  (forall c, q c = true -> p c = true) -> free_of p s -> free_of q s.
Proof.
  unfold free_of. intros Hpq. induction s as [|c s IH]; simpl; [done|].
  rewrite !andb_true_iff, !negb_true_iff. intros [Hc Hs]. split; [|by apply IH].
  destruct (q c) eqn:E; [|done]. apply Hpq in E. congruence.
Qed.

End MatcherRuns.

Section NumberForms.
Import Re Combiner.

Lemma digit_not_space c : is_digit c = true -> is_space c = false.
Proof. destruct c as [[] [] [] [] [] [] [] []]; by vm_compute. Qed.

Lemma digit_not_dot c : is_digit c = true -> chr "." c = false.
Proof. destruct c as [[] [] [] [] [] [] [] []]; by vm_compute. Qed.

Lemma digits_free_of p d :
  (forall c, is_digit c = true -> p c = false) -> all_digits d = true -> free_of p d.
Proof.
  unfold all_digits, free_of. intros Hp. induction d as [|c d IH]; simpl; [done|].
  rewrite !andb_true_iff. intros [Hc Hd]. split; [|by apply IH].
  by rewrite (Hp c Hc).
Qed.

(** The number group takes the whole of a number text that is not
    followed by a digit or a dot. *)
Lemma number_group_run {A} w suf caps (k : string -> Match -> option A) a :
  number_text w -> stops is_digit suf -> stops (chr ".") suf ->
  k suf (<[1%nat := w]> caps) = Some a ->
  go number_group (w +:+ suf) caps k = Some a.
Proof.
  intros (d1 & rest & -> & Hd1 & Hne & Hrest) Hs1 Hs2 Hk.
  unfold number_group, seq. cbn [foldr]. rewrite go_group, go_seq.
  rewrite <- str_app_assoc.
  destruct Hrest as [->|(d2 & -> & Hd2)].
  - rewrite str_app_nil_l. apply plus_greedy; [done|done|done|].
    rewrite go_seq, go_opt, go_cls_stops by done.
    rewrite go_seq, go_star.
    rewrite <- (str_app_nil_l suf) at 1. apply star_greedy; [done|done|].
    cbn beta. rewrite go_eps. rewrite str_app_nil_r in Hk. by rewrite consumed_app.
  - apply plus_greedy; [done|done|simpl; by vm_compute|].
    rewrite go_seq, go_opt, str_app_cons, go_cls_ok by (unfold chr; apply Ascii.eqb_refl).
    rewrite go_seq, go_star.
    erewrite star_greedy; [done|done|done|].
    cbn beta. rewrite go_eps.
    replace (d1 +:+ String "." (d2 +:+ suf)) with ((d1 +:+ String "." d2) +:+ suf)
      by (by rewrite <- str_app_assoc).
    by rewrite consumed_app.
Qed.

End NumberForms.

Section ChapterForms.
Import Re Combiner.

Lemma number_text_first w suf :
  number_text w -> exists c rest, w +:+ suf = String c rest /\ is_digit c = true.
Proof.
  intros (d1 & rest & -> & Hd1 & Hne & _). destruct d1 as [|c d1]; [done|].
  unfold all_digits in Hd1. simpl in Hd1. apply andb_true_iff in Hd1 as [Hc _].
  exists c, ((d1 +:+ rest) +:+ suf). by rewrite !str_app_cons.
Qed.

Lemma number_text_stops_space w suf : number_text w -> stops is_space (w +:+ suf).
Proof.
  intros Hw. destruct (number_text_first w suf Hw) as (c & rest & -> & Hc).
  simpl. by apply digit_not_space.
Qed.

Lemma number_text_free_of p w :
  (forall c, is_digit c = true -> p c = false) -> p "."%char = false ->
  number_text w -> free_of p w.
Proof.
  intros Hp Hdot (d1 & rest & -> & Hd1 & _ & Hrest).
  apply free_of_app. split; [by apply digits_free_of|].
  destruct Hrest as [->|(d2 & -> & Hd2)]; [done|].
  change (String "." d2) with ("." +:+ d2). apply free_of_app. split.
  - unfold free_of. simpl. by rewrite Hdot.
  - by apply digits_free_of.
Qed.

Lemma digit_not_Cc c : is_digit c = true -> either "C" "c" c = false.
Proof. destruct c as [[] [] [] [] [] [] [] []]; by vm_compute. Qed.

Lemma pattern1_run w suf :
  number_text w -> stops is_digit suf -> stops (chr ".") suf ->
  re_match pattern1 ("Ch." +:+ w +:+ suf) = Some {[ 1%nat := w ]}.
Proof.
  intros Hw Hs1 Hs2. unfold re_match, pattern1, seq. cbn [foldr].
  rewrite go_seq, !str_app_cons, go_cls_ok by done.
  rewrite go_seq. change (String "h" (String "." ("" +:+ w +:+ suf))) with ("h." +:+ (w +:+ suf)).
  rewrite lit_run, go_seq, go_star.
  rewrite <- (str_app_nil_l (w +:+ suf)).
  apply star_greedy; [done|by apply number_text_stops_space|].
  cbn beta. rewrite go_seq.
  by apply number_group_run.
Qed.

Lemma pattern2_run w suf :
  number_text w -> stops is_digit suf -> stops (chr ".") suf ->
  re_match pattern2 ("Chapter " +:+ w +:+ suf) = Some {[ 1%nat := w ]}.
Proof.
  intros Hw Hs1 Hs2. unfold re_match, pattern2, seq. cbn [foldr].
  rewrite go_seq, !str_app_cons, go_cls_ok by done.
  rewrite go_seq.
  change (String "h" (String "a" (String "p" (String "t" (String "e" (String "r"
            (String " " ("" +:+ w +:+ suf))))))))
    with ("hapter" +:+ (" " +:+ (w +:+ suf))).
  rewrite lit_run, go_seq.
  apply plus_greedy; [done|done|by apply number_text_stops_space|].
  rewrite go_seq.
  by apply number_group_run.
Qed.

Lemma skip1 pre s :
  free_of (either "C" "c") pre -> re_search pattern1 (pre +:+ s) = re_search pattern1 s.
Proof. apply (search_skip (either "C" "c")). Qed.

Lemma skip2 pre s :
  free_of (either "C" "c") pre -> re_search pattern2 (pre +:+ s) = re_search pattern2 s.
Proof. apply (search_skip (either "C" "c")). Qed.



Lemma rule_number_single w : rule_number {[ 1%nat := w ]} = x ← PyFloat.of_str w; Ok (Some x).
Proof. unfold rule_number, group, Match. by rewrite lookup_singleton_eq. Qed.

End ChapterForms.

(** X10.  The documented "Ch." and "Chapter" forms in general.  Let a name
    be made of a prefix without the letter C (either case), then "Ch." and
    a number text (digits, optionally a dot and digits), then anything that
    does not go on with a digit or a dot: [extract_chapter_number] returns
    [float] of the number text.  The same holds with "Chapter " in place of
    "Ch.", provided [pattern1] is not found in what follows the number. *)
Theorem extract_chapter_number_chapter_forms (pre w suf : string) :
  free_of (Re.either "C" "c") pre ->
  number_text w ->
  stops is_digit suf -> stops (Re.chr ".") suf ->
  exists x,
    PyFloat.of_str w = Ok x
    /\ Combiner.extract_chapter_number (pre +:+ "Ch." +:+ w +:+ suf) = Ok (Some x)
    /\ (Re.re_search Combiner.pattern1 suf = None ->
        Combiner.extract_chapter_number (pre +:+ "Chapter " +:+ w +:+ suf) = Ok (Some x)).
Proof.
  intros Hpre Hw Hs1 Hs2.
  destruct (of_str_number_text w Hw) as [x Hx]. exists x. split; [done|]. split.
  - unfold Combiner.extract_chapter_number.
    rewrite skip1 by done.
    rewrite (search_here _ _ _ (pattern1_run w suf Hw Hs1 Hs2)).
    by rewrite rule_number_single, Hx.
  - intros Hsuf.
    unfold Combiner.extract_chapter_number.
    assert (H1 : Re.re_search Combiner.pattern1 (pre +:+ "Chapter " +:+ w +:+ suf) = None).
    { rewrite skip1 by done.
      rewrite !str_app_cons. cbn [Re.re_search].
      replace (Re.re_match _ _) with (@None Re.Match) by (by vm_compute).
      change (String "h" (String "a" (String "p" (String "t" (String "e" (String "r"
                (String " " ("" +:+ w +:+ suf))))))))
        with ("hapter " +:+ (w +:+ suf)).
      rewrite skip1 by (by vm_compute).
      rewrite skip1.
      2:{ apply number_text_free_of; [apply digit_not_Cc|done|done]. }
      exact Hsuf. }
    rewrite H1.
    rewrite skip2 by done.
    rewrite (search_here _ _ _ (pattern2_run w suf Hw Hs1 Hs2)).
    by rewrite rule_number_single, Hx.
Qed.

Section DigitsValue.










End DigitsValue.

Section VolumeForms.
Import Re Combiner.








End VolumeForms.

Section VolumeExtra.
Import Re Combiner.








End VolumeExtra.



Lemma extract_chapter_number_chapter_forms_witness :
  Combiner.extract_chapter_number "Vol.01 Ch.003 - Network-Implants"
  = Ok (Some (PyFloat.Finite 3))
  /\ Combiner.extract_chapter_number "Chapter 78.5" = Ok (Some (PyFloat.Finite (157 # 2))).
Proof.
  split.
  - destruct (extract_chapter_number_chapter_forms "Vol.01 " "003" " - Network-Implants")
      as (x & Hx & Hch & _).
    + reflexivity.
    + exists "003", "". repeat split; [discriminate|by left].
    + reflexivity.
    + reflexivity.
    + vm_compute in Hx. injection Hx as <-. exact Hch.
  - destruct (extract_chapter_number_chapter_forms "" "78.5" "") as (x & Hx & _ & Hch).
    + reflexivity.
    + exists "78", ".5". repeat split; [discriminate|]. right. by exists "5".
    + exact I.
    + exact I.
    + vm_compute in Hx. injection Hx as <-. apply Hch. reflexivity.
Defined.



(** ** downloader.py: a run that downloads a chapter never ends well *)

Section MainDownloads.
Import Downloader.

Lemma bind_ok {A B} (m : M A) (k : A -> M B) st st' b :
  (m ≫= k) st = (st', Ok b) ->
  exists st1 a, m st = (st1, Ok a) /\ k a st1 = (st', Ok b).
Proof.
  unfold mbind, M_bind. destruct (m st) as [st1 [a|e]]; [|done]. eauto.
Qed.

Lemma quiet_ret {A} (a : A) : quiet (mret a).
Proof. by intros st st' a' [= <- _]. Qed.

Lemma quiet_bind {A B} (m : M A) (k : A -> M B) :
  quiet m -> (forall a, quiet (k a)) -> quiet (m ≫= k).
Proof.
  intros Hm Hk st st' b H. apply bind_ok in H as (st1 & a & H1 & H2).
  rewrite (Hk a _ _ _ H2). by eapply Hm.
Qed.

Lemma quiet_lift {A} (r : result A) : quiet (lift r).
Proof. by intros st st' a [= <- _]. Qed.

Lemma quiet_get_fs : quiet get_fs.
Proof. by intros st st' a [= <- _]. Qed.

Lemma quiet_set_fs f : quiet (set_fs f).
Proof. by intros st st' a [= <- _]. Qed.

Lemma quiet_print msg : quiet (print msg).
Proof. by intros st st' a [= <- _]. Qed.

Lemma quiet_input : quiet input.
Proof. intros st st' a. unfold input. destruct (stdin st); [done|]. by intros [= <- _]. Qed.

Lemma quiet_bind_output_base path : quiet (bind_output_base path).
Proof. by intros st st' a [= <- _]. Qed.

Create HintDb quiet.
#[local] Hint Resolve quiet_ret quiet_lift quiet_get_fs quiet_set_fs quiet_print
  quiet_input quiet_bind_output_base : quiet.

Ltac quiet_step :=
  first
    [ solve [auto with quiet]
    | apply quiet_bind; [|intros ?]
    | match goal with
      | |- quiet (if ?b then _ else _) => destruct b
      | |- quiet (match ?x with _ => _ end) => destruct x
      | |- quiet (let '(_, _) := ?x in _) => destruct x
      end ].

Ltac quiet := repeat quiet_step.

Lemma quiet_read_dir path : quiet (read_dir path).
Proof. unfold read_dir. quiet. Qed.

Lemma quiet_write_dir path d : quiet (write_dir path d).
Proof. unfold write_dir. quiet. Qed.

#[local] Hint Resolve quiet_read_dir quiet_write_dir : quiet.

Lemma quiet_makedirs path : quiet (makedirs path).
Proof. unfold makedirs. quiet. Qed.

Lemma quiet_write_file dir name n : quiet (write_file dir name n).
Proof. unfold write_file. quiet. Qed.

Lemma quiet_remove_chapter_files dir : quiet (remove_chapter_files dir).
Proof. unfold remove_chapter_files. quiet. Qed.

#[local] Hint Resolve quiet_makedirs quiet_write_file quiet_remove_chapter_files : quiet.

Lemma quiet_prompt_until valid retry fuel : quiet (prompt_until valid retry fuel).
Proof. induction fuel as [|x fuel IH]; simpl; quiet. Qed.

Lemma quiet_prompt valid retry : quiet (prompt valid retry).
Proof. intros st. unfold prompt. apply quiet_prompt_until. Qed.

Lemma quiet_save_stats dir s : quiet (save_stats dir s).
Proof. unfold save_stats. quiet. Qed.

#[local] Hint Resolve quiet_prompt quiet_save_stats : quiet.

(** Saving the statistics raises as long as the groups are a set. *)
Lemma save_stats_set dir s st st' a :
  groups_are_set s -> save_stats dir s st <> (st', Ok a).
Proof.
  intros [names Hs] H. unfold save_stats in H.
  apply bind_ok in H as (st1 & [] & _ & H). rewrite Hs in H. done.
Qed.

Lemma add_group_set g s : groups_are_set s -> groups_are_set (add_group g s).
Proof.
  intros [names Hs]. unfold add_group. rewrite Hs. destruct g; [|by exists names].
  by eexists.
Qed.

Lemma process_chapter_raises env meta dir ch title s st st' a :
  groups_are_set s -> process_chapter env meta dir ch title s st <> (st', Ok a).
Proof.
  intros Hs H. unfold process_chapter in H.
  apply bind_ok in H as (st1 & image_dir & _ & H).
  apply bind_ok in H as (st2 & [] & _ & H).
  apply bind_ok in H as (st3 & [] & H & _).
  apply save_stats_set in H; [done|].
  destruct (add_group_set (ch_scanlation_group ch) s Hs) as [names Hn].
  exists names. done.
Qed.

Lemma reporting_raises {A} title (m : M A) st st' a :
  (forall st st' a, m st <> (st', Ok a)) -> reporting title m st <> (st', Ok a).
Proof.
  intros Hm H. unfold reporting in H.
  destruct (m st) as [st1 [a1|e]] eqn:E; [by apply Hm in E|].
  by destruct (isinstance_Exception e).
Qed.

Lemma quiet_never {A B} (m : M A) (k : A -> M B) :
  (forall st st' a, m st <> (st', Ok a)) -> quiet (m ≫= k).
Proof.
  intros Hm st st' b H. apply bind_ok in H as (st1 & a & H & _). by apply Hm in H.
Qed.

Lemma quiet_download_loop env meta dir downloaded total chapters : forall i s,
  groups_are_set s -> quiet (download_loop env meta dir downloaded total i chapters s).
Proof.
  induction chapters as [|ch chapters IH]; intros i s Hs; simpl; [quiet|].
  apply quiet_bind; [quiet|]. intros title.
  destruct (in_downloaded _ _).
  - apply quiet_bind; [quiet|]. intros _. by apply IH.
  - apply quiet_bind; [quiet|]. intros _.
    apply quiet_never. intros st st' a.
    apply reporting_raises. intros st0 st0' a0. by apply process_chapter_raises.
Qed.

Lemma quiet_download_all env manga_id meta safe_title dir downloaded :
  quiet (download_all env manga_id meta safe_title dir downloaded).
Proof.
  unfold download_all. apply quiet_bind; [quiet|]. intros chapters.
  destruct (bool_decide _); [quiet|].
  apply quiet_bind; [apply quiet_download_loop; by eexists|]. intros s. quiet.
Qed.

Lemma quiet_main_try env : quiet (main_try env).
Proof. unfold main_try. pose proof quiet_download_all. quiet. Qed.

Lemma cleanup_raises env e st st' a : cleanup env e st <> (st', Ok a).
Proof.
  unfold cleanup. simpl. destruct (output_base st); [|done].
  destruct (bool_decide _); [|done].
  destruct (rmtree_output_base env) as [u|ce]; [done|].
  by destruct (isinstance_Exception ce).
Qed.

End MainDownloads.

(** X13.  [main] returns normally only from a run in which no chapter
    was downloaded: whatever the catalog, the disk and the user do, if
    [main] ends without raising then [download_chapter] was never called.
    (Every chapter that is processed ends in the [TypeError] of line 645,
    where the statistics are dumped while the scanlation groups are still a
    [set].) *)
Theorem main_ok_downloads_nothing (env : Downloader.Env) (st st' : Downloader.state) :
  Downloader.main env st = (st', Ok tt) ->
  Downloader.download_calls st' = Downloader.download_calls st.
Proof.
  unfold Downloader.main. intros H.
  destruct (Downloader.main_try env st) as [st1 [[]|e]] eqn:E.
  - injection H as <-. by apply (quiet_main_try env st st1 tt).
  - destruct (isinstance_Exception e); [|done]. by apply cleanup_raises in H.
Qed.

Lemma main_ok_downloads_nothing_witness :
  exists st',
    Downloader.main fractional_env fractional_state = (st', Ok tt)
    /\ Downloader.download_calls st' = [].
Proof.
  exists (fst (Downloader.main fractional_env fractional_state)).
  assert (H : Downloader.main fractional_env fractional_state
              = (fst (Downloader.main fractional_env fractional_state), Ok tt)).
  { vm_compute. reflexivity. }
  split; [exact H|].
  exact (main_ok_downloads_nothing fractional_env fractional_state _ H).
Defined.

(** ** downloader.py: quitting at the resume question *)

Section MainQuit.
Import Downloader.

Lemma prompt_until_run valid retry good rest junk : forall fuel st,
  (length junk <= length fuel)%nat ->
  stdin st = junk ++ good :: rest ->
  Forall (fun line => valid line = false) junk -> valid good = true ->
  prompt_until valid retry fuel st
  = ({| fs := fs st; stdin := rest; stdout := stdout st ++ map (fun _ => retry) junk;
        output_base := output_base st; download_calls := download_calls st |}, Ok good).
Proof.
  induction junk as [|line junk IH]; intros fuel st Hlen Hin Hjunk Hgood.
  - simpl in Hin. rewrite app_nil_r.
    destruct fuel as [|x fuel]; simpl; unfold mbind, M_bind, input; rewrite Hin; [done|].
    by rewrite Hgood.
  - apply Forall_cons in Hjunk as [Hline Hjunk].
    destruct fuel as [|x fuel]; [simpl in Hlen; lia|].
    simpl in Hin, Hlen. cbn [prompt_until]. unfold mbind, M_bind, input. rewrite Hin, Hline.
    unfold print at 1. rewrite (IH fuel); [|simpl; lia|done|done|done].
    simpl. by rewrite <- app_assoc.
Qed.

Lemma prompt_run valid retry good rest junk st :
  stdin st = junk ++ good :: rest ->
  Forall (fun line => valid line = false) junk -> valid good = true ->
  prompt valid retry st
  = ({| fs := fs st; stdin := rest; stdout := stdout st ++ map (fun _ => retry) junk;
        output_base := output_base st; download_calls := download_calls st |}, Ok good).
Proof.
  intros Hin Hjunk Hgood. unfold prompt. apply prompt_until_run; try done.
  rewrite Hin, length_app. lia.
Qed.

End MainQuit.

(** X14.  Quitting at the resume question.  When the folder of the manga
    already holds chapter archives and the user, after any number of lines
    that are none of 1, 2 and 3 (each answered by "Please enter 1, 2, or 3"),
    types 3, [main] prints "Download cancelled by user." and returns
    normally; the files on disk are what they were, no chapter is asked for,
    and the lines typed after the 3 are left unread. *)
Theorem main_quit_keeps_folder (env : Downloader.Env) (st : Downloader.state)
    (manga_name : string) (junk rest : list string) (manga_id : string)
    (meta : Downloader.metadata) (folder : gmap string Downloader.fnode) :
  let dir := os_path_join (Downloader.downloads_dir env)
                          (Downloader.sanitize_filename (Downloader.title meta)) in
  Downloader.stdin st = manga_name :: junk ++ "3" :: rest ->
  Downloader.search_manga env manga_name = Ok manga_id ->
  Downloader.get_manga_metadata env manga_id = Ok meta ->
  Downloader.fs st !! dir = Some folder ->
  Downloader.get_downloaded_chapters folder <> ∅ ->
  Forall (fun line => line ∉ ["1"; "2"; "3"]) junk ->
  Downloader.main env st
  = ({| Downloader.fs := Downloader.fs st;
        Downloader.stdin := rest;
        Downloader.stdout :=
          Downloader.stdout st
          ++ [Downloader.FoundPrevious
                (sorted (elements (Downloader.get_downloaded_chapters folder)))]
          ++ map (fun _ => Downloader.PleaseEnter123) junk
          ++ [Downloader.DownloadCancelled];
        Downloader.output_base := Some dir;
        Downloader.download_calls := Downloader.download_calls st |}, Ok tt).
Proof.
  intros dir Hin Hsearch Hmeta Hdir Hprev Hjunk.
  unfold Downloader.main, Downloader.main_try.
  unfold mbind at 1. unfold Downloader.M_bind at 1. unfold Downloader.input at 1.
  rewrite Hin.
  unfold mbind at 1. unfold Downloader.M_bind at 1. unfold Downloader.lift at 1.
  rewrite Hsearch.
  unfold mbind at 1. unfold Downloader.M_bind at 1. unfold Downloader.lift at 1.
  rewrite Hmeta. fold dir.
  unfold mbind at 1. unfold Downloader.M_bind at 1. unfold Downloader.bind_output_base at 1.
  unfold mbind at 1. unfold Downloader.M_bind at 1. unfold Downloader.makedirs at 1.
  unfold Downloader.read_dir, Downloader.write_dir, Downloader.get_fs, Downloader.set_fs.
  unfold mbind at 1 2 3 4. unfold Downloader.M_bind at 1 2 3 4. simpl.
  rewrite Hdir. simpl. rewrite insert_id by done.
  unfold mbind at 1. unfold Downloader.M_bind at 1. unfold mbind at 1.
  unfold Downloader.M_bind at 1. simpl. rewrite Hdir. simpl.
  rewrite bool_decide_true by done.
  unfold mbind at 1. unfold Downloader.M_bind at 1.
  unfold mbind at 1. unfold Downloader.M_bind at 1. unfold Downloader.print at 1.
  erewrite (prompt_run _ _ "3" rest junk); [| simpl; reflexivity | | reflexivity].
  2:{ eapply Forall_impl; [exact Hjunk|]. intros line Hl. by apply bool_decide_eq_false. }
  simpl. by rewrite <- !app_assoc.
Qed.

Lemma main_quit_keeps_folder_witness :
  Downloader.main (resume_env (fun _ _ => Ok "image") (Ok tt)) quit_state
  = ({| Downloader.fs := Downloader.fs quit_state;
        Downloader.stdin := ["1"];
        Downloader.stdout :=
          [Downloader.FoundPrevious ["5.0"; "6.0"]; Downloader.PleaseEnter123;
           Downloader.DownloadCancelled];
        Downloader.output_base := Some "/home/user/downloads/Title";
        Downloader.download_calls := [] |}, Ok tt).
Proof.
  rewrite (main_quit_keeps_folder (resume_env (fun _ _ => Ok "image") (Ok tt)) quit_state
             "Title" ["yes"] ["1"] "manga-id"
             {| Downloader.title := "Title"; Downloader.metadata_json := "{}" |}
             folder_5_6).
  - vm_compute. reflexivity.
  - reflexivity.
  - reflexivity.
  - reflexivity.
  - vm_compute. reflexivity.
  - apply (bool_decide_unpack _). vm_compute. exact I.
  - constructor; [|constructor]. apply (bool_decide_unpack _). vm_compute. exact I.
Defined.

(** ** downloader.py: [sanitize_filename] *)

Section Sanitize.
Import Downloader.

Lemma list_ascii_reverse s : list_ascii_of_string (reverse s) = rev (list_ascii_of_string s).
Proof. unfold reverse. apply list_ascii_of_string_of_list_ascii. Qed.

Lemma reverse_involutive s : reverse (reverse s) = s.
Proof.
  unfold reverse at 1. rewrite list_ascii_reverse, rev_involutive.
  apply string_of_list_ascii_of_string.
Qed.

Lemma str_of_list_inj s t : list_ascii_of_string s = list_ascii_of_string t -> s = t.
Proof.
  intros E. rewrite <- (string_of_list_ascii_of_string s), <- (string_of_list_ascii_of_string t).
  by rewrite E.
Qed.

Lemma lstrip_spec s :
  exists w, s = w +:+ lstrip s
            /\ forallb dot_or_space (list_ascii_of_string w) = true
            /\ stops dot_or_space (lstrip s).
Proof.
  induction s as [|c s (w & Hs & Hw & Hstop)]; [by exists EmptyString|].
  simpl. fold (dot_or_space c). destruct (dot_or_space c) eqn:Hc.
  - exists (String c w). rewrite str_app_cons, <- Hs. simpl. by rewrite Hc.
  - exists EmptyString. done.
Qed.

Lemma lstrip_id s : stops dot_or_space s -> lstrip s = s.
Proof. destruct s as [|c s]; simpl; [done|]. fold (dot_or_space c). by intros ->. Qed.

Lemma sub_invalid_free s : free_of invalid_char (sub_invalid s).
Proof.
  unfold free_of. induction s as [|c s IH]; simpl; [done|].
  rewrite IH, andb_true_r. by destruct (invalid_char c) eqn:E; [|rewrite E].
Qed.

Lemma sub_invalid_id s : free_of invalid_char s -> sub_invalid s = s.
Proof.
  unfold free_of. induction s as [|c s IH]; simpl; [done|].
  rewrite andb_true_iff, negb_true_iff. intros [-> Hs]. by rewrite IH.
Qed.

Lemma sub_invalid_length s : String.length (sub_invalid s) = String.length s.
Proof. induction s as [|c s IH]; simpl; [done|]. by rewrite IH. Qed.

(** The result is the text between the stripped ends. *)
Lemma sanitize_filename_spec filename :
  exists w1 w2,
    sub_invalid filename = w1 +:+ sanitize_filename filename +:+ w2
    /\ stops dot_or_space (sanitize_filename filename)
    /\ stops dot_or_space (reverse (sanitize_filename filename)).
Proof.
  unfold sanitize_filename.
  destruct (lstrip_spec (sub_invalid filename)) as (w1 & H1 & _ & Hstop1).
  set (t := lstrip (sub_invalid filename)) in *.
  destruct (lstrip_spec (reverse t)) as (w2 & H2 & _ & Hstop2).
  set (r := lstrip (reverse t)) in *.
  assert (Ht : t = reverse r +:+ reverse w2).
  { apply str_of_list_inj. rewrite list_ascii_app, !list_ascii_reverse.
    rewrite <- rev_app_distr, <- list_ascii_app, <- H2, list_ascii_reverse.
    by rewrite rev_involutive. }
  exists w1, (reverse w2). split; [by rewrite <- Ht|].
  split; [|by rewrite reverse_involutive].
  rewrite Ht in Hstop1. destruct (reverse r); [done|]. by rewrite str_app_cons in Hstop1.
Qed.

End Sanitize.

(** X15.  The result of [sanitize_filename] holds none of the nine
    characters replaced by line 19, neither starts nor ends with a dot or a
    space, is not longer than the argument, and is left as it is by a second
    application. *)
Theorem sanitize_filename_safe (filename : string) :
  let safe := Downloader.sanitize_filename filename in
  free_of Downloader.invalid_char safe
  /\ stops dot_or_space safe
  /\ stops dot_or_space (Downloader.reverse safe)
  /\ (String.length safe <= String.length filename)%nat
  /\ Downloader.sanitize_filename safe = safe.
Proof.
  intros safe. destruct (sanitize_filename_spec filename) as (w1 & w2 & Hsub & Hs1 & Hs2).
  fold safe in Hsub, Hs1, Hs2.
  assert (Hfree : free_of Downloader.invalid_char safe).
  { pose proof (sub_invalid_free filename) as H. rewrite Hsub in H.
    apply free_of_app in H as [_ H]. by apply free_of_app in H as [H _]. }
  split; [done|]. split; [done|]. split; [done|]. split.
  - rewrite <- (sub_invalid_length filename), Hsub, !str_length_app. lia.
  - unfold Downloader.sanitize_filename at 1.
    rewrite (sub_invalid_id safe Hfree), (lstrip_id safe Hs1), (lstrip_id _ Hs2).
    apply reverse_involutive.
Qed.

(** ** downloader.py: the names of the chapter archives, written and read back *)

Section FloatSign.






End FloatSign.

Section ArchiveNames.
Import Re Downloader.
















End ArchiveNames.



(** ** downloader.py: when [combine_chapters] succeeds *)

Section CombineSucceeds.
Import Re Downloader.

Lemma matches_lit w s c : matches (lit w) (w +:+ s) c s c.
Proof.
  induction w as [|a w IH]; [constructor|].
  rewrite str_app_cons. simpl. econstructor; [|exact IH].
  constructor. unfold chr. apply Ascii.eqb_refl.
Qed.

Lemma matches_lit_inv w s c s' c' : matches (lit w) s c s' c' -> s = w +:+ s' /\ c' = c.
Proof.
  revert s c. induction w as [|a w IH]; intros s c H; simpl in H.
  - by apply matches_eps_inv in H as [-> ->].
  - apply matches_seq_inv in H as (s1 & c1 & H1 & H2).
    apply matches_cls_inv in H1 as (b & -> & Hb & ->).
    apply IH in H2 as [-> ->]. unfold chr in Hb. apply Ascii.eqb_eq in Hb as <-. done.
Qed.

Lemma chapter_file_pattern_match s m :
  re_match chapter_file_pattern s = Some m ->
  (exists c rest, s = "Chapter_" +:+ String c rest /\ is_digit c = true)
  /\ exists w, digits_text w /\ group m 1 = Some w.
Proof.
  intros H. apply re_match_sound in H as [s' H].
  change chapter_file_pattern with
    (Seq (lit "Chapter_")
       (Seq (Group 1 (Plus is_digit))
          (Seq (Opt (Seq (Cls (chr ".")) (Group 2 (Plus is_digit)))) Eps))) in H.
  apply matches_seq_inv in H as (s1 & c1 & H1 & H).
  apply matches_lit_inv in H1 as [-> ->].
  apply matches_seq_inv in H as (s2 & c2 & H2 & H).
  pose proof H2 as H2'. apply matches_plus_digits in H2' as (w & Hw & ->).
  apply matches_group_inv in H2 as (c0 & H2 & _).
  apply matches_plus_inv in H2 as (a & s0 & -> & Ha & _ & _).
  split; [by eauto|]. exists w. split; [done|].
  apply matches_seq_inv in H as (s3 & c3 & H3 & H).
  apply matches_eps_inv in H as [-> ->].
  unfold group.
  apply matches_opt_inv in H3 as [H3|[_ ->]];
    [|unfold Match in *; by rewrite lookup_insert_eq].
  apply matches_seq_inv in H3 as (s4 & c4 & H4 & H3).
  apply matches_cls_inv in H4 as (b & _ & _ & ->).
  apply matches_plus_digits in H3 as (w2 & _ & ->). unfold Match in *.
  rewrite (lookup_insert_ne _ 2%nat 1%nat) by lia. by rewrite lookup_insert_eq.
Qed.

Lemma chapter_file_pattern_some c rest :
  is_digit c = true -> is_Some (re_match chapter_file_pattern ("Chapter_" +:+ String c rest)).
Proof.
  intros Hc. eapply re_match_complete.
  change chapter_file_pattern with
    (Seq (lit "Chapter_")
       (Seq (Group 1 (Plus is_digit))
          (Seq (Opt (Seq (Cls (chr ".")) (Group 2 (Plus is_digit)))) Eps))).
  econstructor; [apply matches_lit|].
  econstructor; [constructor; constructor; [exact Hc|constructor]|].
  econstructor; [apply M_Opt_none|constructor].
Qed.

Lemma extract_chapter_ok file (node : option fnode) temp_dir :
  (exists t, extract_chapter file node temp_dir = Ok t)
  <-> chapter_file_name file /\ exists entries, node = Some (Archive entries).
Proof.
  unfold extract_chapter, chapter_file_name.
  set (stem := fst (splitext (basename file))). split.
  - intros [t H].
    destruct (re_match chapter_file_pattern stem) as [m|] eqn:Hm; [|done].
    apply chapter_file_pattern_match in Hm as [Hname (w & Hw & Hg)].
    split; [done|]. rewrite Hg, (int_of_str_digits w Hw) in H. simpl in H.
    destruct node as [[entries|data|files]|]; simpl in H; try done. eauto.
  - intros [(c & rest & Hstem & Hc) [entries ->]].
    destruct (chapter_file_pattern_some c rest Hc) as [m Hm]. rewrite <- Hstem in Hm.
    rewrite Hm. apply chapter_file_pattern_match in Hm as [_ (w & Hw & Hg)].
    rewrite Hg, (int_of_str_digits w Hw). simpl. eauto.
Qed.

Lemma combine_loop_ok (manga_dir : gmap string fnode) files : forall temp_dir output_cbz,
  snd (combine_loop manga_dir files temp_dir output_cbz) = Ok tt
  <-> Forall (fun file => chapter_file_name file
                          /\ exists entries, manga_dir !! file = Some (Archive entries)) files.
Proof.
  induction files as [|file files IH]; intros temp_dir output_cbz; simpl.
  - split; [constructor|done].
  - rewrite Forall_cons.
    set (chapter_temp_dir := default ∅ (temp_dir !! (splitext file).1)).
    pose proof (extract_chapter_ok file (manga_dir !! file) chapter_temp_dir) as Hok.
    destruct (extract_chapter file (manga_dir !! file) chapter_temp_dir) as [t|e].
    + rewrite IH. split; [|by intros [_ H]]. intros H. split; [|done].
      apply Hok. eauto.
    + simpl. split; [done|]. intros [H _]. apply Hok in H as [t H]. done.
Qed.

End CombineSucceeds.

(** X17.  [combine_chapters] of the downloader returns normally exactly
    when the folder holds at least one file whose name ends in ".cbz" and
    every such file is a readable archive whose stem starts with "Chapter_"
    and a digit; one other ".cbz" file (an archive combined earlier, for
    instance) makes the call raise. *)
Theorem combine_chapters_succeeds_iff (manga_dir : gmap string Downloader.fnode) :
  snd (Downloader.combine_chapters manga_dir) = Ok tt
  <-> (exists file, is_Some (manga_dir !! file) /\ endswith file ".cbz" = true)
      /\ (forall file node, manga_dir !! file = Some node -> endswith file ".cbz" = true ->
            chapter_file_name file /\ exists entries, node = Downloader.Archive entries).
Proof.
  unfold Downloader.combine_chapters.
  set (chapter_files := sorted (List.filter (fun file => endswith file ".cbz")
                                            (listdir manga_dir))).
  assert (Hin : forall file, file ∈ chapter_files
                  <-> is_Some (manga_dir !! file) /\ endswith file ".cbz" = true).
  { intros file. unfold chapter_files. rewrite sorted_perm, list_elem_of_In, filter_In.
    rewrite <- list_elem_of_In. unfold listdir. rewrite list_elem_of_fmap. split.
    - intros [([f n] & -> & H) Hc]. apply elem_of_map_to_list in H. simpl in *. eauto.
    - intros [[n Hn] Hc]. split; [|done]. exists (file, n). split; [done|].
      by apply elem_of_map_to_list. }
  destruct chapter_files as [|f fs] eqn:E.
  - simpl. split; [done|]. intros [(file & Hfile) _].
    apply Hin in Hfile. by apply elem_of_nil in Hfile.
  - assert (Hf : f ∈ f :: fs) by left. rewrite <- E in *. clear E.
    destruct (Downloader.combine_loop manga_dir chapter_files ∅ []) as [out r] eqn:Hloop.
    simpl. replace r with (snd (Downloader.combine_loop manga_dir chapter_files ∅ []))
      by (by rewrite Hloop).
    rewrite combine_loop_ok, Forall_forall. split.
    + intros Hall. split.
      * exists f. by apply Hin.
      * intros file node Hnode Hc.
        destruct (Hall file) as [Hname [entries He]]; [apply Hin; eauto|].
        split; [done|]. exists entries. congruence.
    + intros [_ Hall] file Hfile. apply Hin in Hfile as [[node Hnode] Hc].
      destruct (Hall file node Hnode Hc) as [Hname [entries ->]]. eauto.
Qed.

(** ** downloader.py: [get_chapter_files] *)

Section ChapterFiles.
Import Re Downloader.

Lemma chapter_file_pattern_groups s m :
  re_match chapter_file_pattern s = Some m ->
  (exists w, digits_text w /\ group m 1 = Some w)
  /\ (group m 2 = None \/ exists w, digits_text w /\ group m 2 = Some w).
Proof.
  intros H. split; [by apply chapter_file_pattern_match in H as [_ H]|].
  apply re_match_sound in H as [s' H].
  change chapter_file_pattern with
    (Seq (lit "Chapter_")
       (Seq (Group 1 (Plus is_digit))
          (Seq (Opt (Seq (Cls (chr ".")) (Group 2 (Plus is_digit)))) Eps))) in H.
  apply matches_seq_inv in H as (s1 & c1 & H1 & H).
  apply matches_lit_inv in H1 as [-> ->].
  apply matches_seq_inv in H as (s2 & c2 & H2 & H).
  apply matches_plus_digits in H2 as (w & Hw & ->).
  apply matches_seq_inv in H as (s3 & c3 & H3 & H).
  apply matches_eps_inv in H as [-> ->].
  unfold group.
  apply matches_opt_inv in H3 as [H3|[_ ->]].
  - apply matches_seq_inv in H3 as (s4 & c4 & H4 & H3).
    apply matches_cls_inv in H4 as (b & _ & _ & ->).
    apply matches_plus_digits in H3 as (w2 & Hw2 & ->). unfold Match in *.
    right. exists w2. by rewrite lookup_insert_eq.
  - left. unfold Match in *. by rewrite (lookup_insert_ne _ 1%nat 2%nat) by lia.
Qed.

Lemma chapter_key_total f : exists k, chapter_key f = Ok k.
Proof.
  unfold chapter_key.
  destruct (re_match chapter_file_pattern _) as [m|] eqn:Hm; [|by eauto].
  apply chapter_file_pattern_groups in Hm as [(w & Hw & ->) [->|(w2 & Hw2 & ->)]].
  - rewrite (int_of_str_digits w Hw). simpl. eauto.
  - rewrite (int_of_str_digits w Hw). simpl.
    destruct (String.eqb w2 ""); simpl; [by eauto|].
    rewrite (int_of_str_digits w2 Hw2). simpl. eauto.
Qed.

Lemma pair_lt_asym a b : pair_lt a b = true -> pair_lt b a = false.
Proof. unfold pair_lt. destruct a, b. simpl. lia. Qed.

Lemma pair_lt_not_after_trans (a b c : Z * Z) :
  pair_lt b a = false -> pair_lt c b = false -> pair_lt c a = false.
Proof. unfold pair_lt. destruct a, b, c. simpl. lia. Qed.

End ChapterFiles.

(** X18.  [get_chapter_files] never raises.  It returns the names of the
    listing that end in ".cbz", each as often as listed, in an order in
    which no name has a key (main chapter number, then decimal part, both
    read as integers; (0, 0) for a name that does not start with "Chapter_"
    and a digit) smaller than the key of a name before it. *)
Theorem get_chapter_files_sorted (listing : list string) :
  exists files,
    Downloader.get_chapter_files listing = Ok files
    /\ files ≡ₚ List.filter (fun file => endswith file ".cbz") listing
    /\ (forall i j x y kx ky, (i < j)%nat ->
          files !! i = Some x -> files !! j = Some y ->
          Downloader.chapter_key x = Ok kx -> Downloader.chapter_key y = Ok ky ->
          Downloader.pair_lt ky kx = false).
Proof.
  unfold Downloader.get_chapter_files.
  set (chapter_files := List.filter _ listing).
  pose (key := fun f => match Downloader.chapter_key f with Ok k => k | Raise _ => (0, 0) end).
  assert (Hkey : forall f, Downloader.chapter_key f = Ok (key f)).
  { intros f. unfold key. by destruct (chapter_key_total f) as [k ->]. }
  rewrite (mapM_ok _ (fun f => (key f, f))).
  2:{ intros f. by rewrite Hkey. }
  simpl. eexists. split; [done|].
  set (keyed := map (fun f => (key f, f)) chapter_files).
  split.
  { rewrite sorted_by_perm. unfold keyed. rewrite map_map. simpl. by rewrite map_id. }
  assert (Hkeyed : Forall (fun p : Z * Z * string => fst p = key (snd p))
                     (sorted_by Downloader.pair_lt fst keyed)).
  { rewrite sorted_by_perm. unfold keyed. apply Forall_fmap. by apply Forall_true. }
  assert (Hsorted : StronglySorted (not_after Downloader.pair_lt fst)
                      (sorted_by Downloader.pair_lt fst keyed)).
  { apply sorted_by_sorted; [intros a b; apply pair_lt_asym|].
    intros a b c. unfold not_after. apply pair_lt_not_after_trans. }
  intros i j x y kx ky Hij Hx Hy Hkx Hky.
  rewrite list_lookup_fmap in Hx, Hy.
  destruct (sorted_by Downloader.pair_lt fst keyed !! i) as [p|] eqn:Hp; simplify_eq/=.
  destruct (sorted_by Downloader.pair_lt fst keyed !! j) as [q|] eqn:Hq; simplify_eq/=.
  rewrite Hkey in Hkx, Hky. simplify_eq.
  pose proof (proj1 (Forall_forall _ _) Hkeyed p (list_elem_of_lookup_2 _ _ _ Hp)) as Ep.
  pose proof (proj1 (Forall_forall _ _) Hkeyed q (list_elem_of_lookup_2 _ _ _ Hq)) as Eq.
  rewrite <- Ep, <- Eq.
  apply (StronglySorted_lookup _ _ i j p q Hsorted Hij Hp Hq).
Qed.

(** ** downloader.py: [download_chapter] followed by [create_cbz] *)

Section DownloadCreate.
Import Downloader.

Lemma fetch_pages_ok env chapter_id pages : forall datas i image_dir,
  length pages = length datas ->
  (forall j data, datas !! j = Some data -> fetch_page env chapter_id (i + j) = Ok data) ->
  fetch_pages env chapter_id i pages image_dir
  = (foldl ins image_dir
       (imap (fun j data => (format_0d 3 (Z.of_nat (i + j)) +:+ ".jpg", data)) datas),
     Ok tt).
Proof.
  induction pages as [|page pages IH]; intros [|data datas] i image_dir Hlen Hfetch;
    simpl in Hlen; try done.
  cbn [fetch_pages]. rewrite <- (Nat.add_0_r i) at 1.
  rewrite (Hfetch 0%nat data eq_refl).
  rewrite (IH datas (S i)); [|lia|].
  2:{ intros j d Hj. rewrite Nat.add_succ_comm. by apply Hfetch. }
  cbn [imap foldl]. unfold ins at 2. cbn [fst snd]. rewrite Nat.add_0_r.
  f_equal. f_equal. apply imap_ext. intros j d _. simpl. do 3 f_equal. lia.
Qed.

Lemma page_name_order i j x y :
  (i < j)%nat -> (j <= 999)%nat ->
  str_lt (format_0d 3 (Z.of_nat i) +:+ x) (format_0d 3 (Z.of_nat j) +:+ y) = true.
Proof.
  intros Hij Hj. apply str_lt_compare. apply compare_app_same_length.
  - rewrite !pad3_length by lia. done.
  - apply str_lt_compare. apply pad3_lt; lia.
Qed.

Lemma page_entries_sorted datas :
  (length datas <= 1000)%nat -> StronglySorted name_lt (page_entries datas).
Proof.
  intros Hlen. unfold page_entries.
  assert (H : forall k l, (k + length l <= 1000)%nat ->
            StronglySorted name_lt
              (imap (fun i data => (format_0d 3 (Z.of_nat (k + i)) +:+ ".jpg", data)) l)).
  { intros k l. revert k. induction l as [|d l IH]; intros k Hk; [constructor|].
    cbn [imap]. constructor.
    - simpl in Hk. specialize (IH (S k) ltac:(lia)).
      erewrite imap_ext; [exact IH|]. intros i x _. simpl. do 3 f_equal. lia.
    - apply Forall_forall. intros e He.
      apply list_elem_of_lookup in He as [i He]. rewrite list_lookup_imap in He.
      destruct (l !! i) as [x|] eqn:Hx; simplify_eq/=.
      apply lookup_lt_Some in Hx. unfold name_lt. simpl.
      apply page_name_order; lia. }
  apply (H 0%nat datas). lia.
Qed.

End DownloadCreate.

(** X19.  [download_chapter] followed by [create_cbz] and the removal of
    the image directory, for a chapter of at most 1000 pages all of which
    are fetched, in a folder with no entry of the chapter's title: the folder
    gains exactly one file, the archive named after the title, which holds
    the pages in the order of the catalog, page [i] under the 3-digit form
    of [i] and ".jpg", followed by metadata.txt; the image directory is gone
    and one download is recorded. *)
Theorem download_then_create_cbz (env : Downloader.Env) (st : Downloader.state)
    (chapter_id chapter_title output_dir : string) (meta : Downloader.metadata)
    (pages datas : list string) :
  let folder := default ∅ (Downloader.fs st !! output_dir) in
  Downloader.at_home env chapter_id = Ok pages ->
  length pages = length datas ->
  (forall i data, datas !! i = Some data -> Downloader.fetch_page env chapter_id i = Ok data) ->
  (length pages <= 1000)%nat ->
  folder !! chapter_title = None ->
  (image_dir ← Downloader.download_chapter env chapter_id chapter_title output_dir;
   Downloader.create_cbz output_dir image_dir (chapter_title +:+ ".cbz") meta) st
  = ({| Downloader.fs :=
          <[output_dir :=
              <[chapter_title +:+ ".cbz" :=
                  Downloader.Archive
                    (page_entries datas
                     ++ [("metadata.txt", Downloader.metadata_json meta)])]> folder]>
            (Downloader.fs st);
        Downloader.stdin := Downloader.stdin st;
        Downloader.stdout := Downloader.stdout st;
        Downloader.output_base := Downloader.output_base st;
        Downloader.download_calls := Downloader.download_calls st ++ [chapter_id] |},
     Ok tt).
Proof.
  intros folder Hpages Hlen Hfetch Hmax Hfresh.
  assert (Hne : chapter_title <> chapter_title +:+ ".cbz").
  { intros E. apply (f_equal String.length) in E. rewrite str_length_app in E. simpl in E. lia. }
  unfold Downloader.download_chapter, Downloader.create_cbz, Downloader.write_file,
    Downloader.read_dir, Downloader.write_dir, Downloader.get_fs, Downloader.set_fs,
    Downloader.log_download, Downloader.lift.
  unfold mbind, Downloader.M_bind, mret, Downloader.M_ret. simpl.
  rewrite Hpages. fold folder. rewrite Hfresh.
  rewrite (fetch_pages_ok env chapter_id pages datas 0 ∅ Hlen) by (by intros j data Hj; simpl; apply Hfetch).
  simpl. rewrite !lookup_insert_eq. simpl. rewrite !lookup_insert_eq. simpl.
  rewrite insert_insert_eq.
  f_equal. f_equal. f_equal.
  rewrite delete_insert_ne by done. rewrite delete_insert_eq, delete_id by done.
  f_equal. f_equal. f_equal.
  apply (write_archive_sorted (page_entries datas) (page_entries datas)); [done|].
  apply page_entries_sorted. by rewrite <- Hlen.
Qed.

Lemma download_then_create_cbz_witness :
  Downloader.fs
    (fst ((image_dir ← Downloader.download_chapter
                         (resume_env (fun _ _ => Ok "image") (Ok tt))
                         "id-7" "Chapter_7.0" "/home/user/downloads/Title";
           Downloader.create_cbz "/home/user/downloads/Title" image_dir "Chapter_7.0.cbz"
             {| Downloader.title := "Title"; Downloader.metadata_json := "{}" |})
            first_run_state))
    !! "/home/user/downloads/Title"
  = Some {[ "Chapter_7.0.cbz" :=
              Downloader.Archive [("000.jpg", "image"); ("001.jpg", "image");
                                  ("metadata.txt", "{}")] ]}.
Proof.
  pose proof (download_then_create_cbz (resume_env (fun _ _ => Ok "image") (Ok tt))
                first_run_state "id-7" "Chapter_7.0" "/home/user/downloads/Title"
                {| Downloader.title := "Title"; Downloader.metadata_json := "{}" |}
                ["x1.png"; "x2.png"] ["image"; "image"]) as H.
  change ("Chapter_7.0" +:+ ".cbz") with "Chapter_7.0.cbz" in H.
  rewrite H.
  - vm_compute. reflexivity.
  - reflexivity.
  - reflexivity.
  - intros [|[|i]] data Hdata; simpl in Hdata; [| |discriminate Hdata];
      injection Hdata as <-; reflexivity.
  - simpl. lia.
  - reflexivity.
Defined.

(** ** chapter_combiner_external.py: [main] *)

Section ConsoleRuns.
Import Console.
Context {W Msg : Type}.

Lemma run_bind {A B} (m : M W Msg A) (k : A -> M W Msg B) st st' a :
  m st = (st', Ok a) -> (m ≫= k) st = k a st'.
Proof. unfold mbind, console_bind. by intros ->. Qed.

Lemma run_bind_raise {A B} (m : M W Msg A) (k : A -> M W Msg B) st st' e :
  m st = (st', Raise e) -> (m ≫= k) st = (st', Raise e).
Proof. unfold mbind, console_bind. by intros ->. Qed.

Lemma run_bind_inv {A B} (m : M W Msg A) (k : A -> M W Msg B) st st' r :
  (m ≫= k) st = (st', r) ->
  (exists st1 a, m st = (st1, Ok a) /\ k a st1 = (st', r))
  \/ (exists e, m st = (st', Raise e) /\ r = Raise e).
Proof.
  unfold mbind, console_bind. destruct (m st) as [st1 [a|e]].
  - intros H. left. eauto.
  - intros [= <- <-]. right. eauto.
Qed.

Lemma run_assoc {A B C} (m : M W Msg A) (f : A -> M W Msg B) (g : B -> M W Msg C) st :
  ((m ≫= f) ≫= g) st = (m ≫= fun a => f a ≫= g) st.
Proof. unfold mbind, console_bind. by destruct (m st) as [st1 [a|e]]. Qed.

End ConsoleRuns.

Ltac run := erewrite run_bind by reflexivity; cbn beta.

Section CombinerMainRuns.
Import PyText Console CombinerMain.
Context (listdir : gmap string node -> list string).

Lemma ask_run st line rest :
  stdin st = line :: rest -> answer line ∈ ["y"; "n"] ->
  ask st = ({| world := world st; stdin := rest; stdout := stdout st |}, Ok (answer line)).
Proof.
  intros Hin Hans. unfold ask, by_stdin. rewrite Hin. cbn [ask_loop].
  erewrite run_bind; [|unfold input; by rewrite Hin]. cbn beta.
  cbn zeta. fold (answer line). by rewrite bool_decide_true.
Qed.

Lemma int_not_q k i : int k = Ok i -> String.eqb (lower k) "q" = false.
Proof.
  destruct k as [|c [|c' k]]; [done| |].
  - intros H.
    destruct c as [[] [] [] [] [] [] [] []]; try reflexivity; vm_compute in H; discriminate H.
  - intros _. simpl. by destruct (Ascii.eqb _ _).
Qed.

Lemma select_quit st q rest manga_dirs :
  stdin st = q :: rest -> lower q = "q" -> manga_dirs <> [] ->
  select_manga manga_dirs st
  = ({| world := world st; stdin := rest;
        stdout := stdout st ++ [AvailableManga] ++ menu manga_dirs |},
     Raise (Exception "Operation cancelled by user")).
Proof.
  intros Hin Hq Hne. destruct manga_dirs as [|d ds]; [done|].
  unfold select_manga. run. run. unfold by_stdin. cbn [stdin print print_all]. rewrite Hin.
  cbn [select_loop]. run.
  rewrite Hq. cbn. by rewrite <- app_assoc.
Qed.

Lemma select_pick st k rest manga_dirs i manga is_combined :
  stdin st = k :: rest -> int k = Ok i -> 1 <= i ->
  manga_dirs !! Z.to_nat (i - 1) = Some (manga, is_combined) ->
  select_manga manga_dirs st
  = ({| world := world st; stdin := rest;
        stdout := stdout st ++ [AvailableManga] ++ menu manga_dirs |}, Ok manga).
Proof.
  intros Hin Hint Hi Hlook. destruct manga_dirs as [|d ds]; [done|].
  pose proof (lookup_lt_Some _ _ _ Hlook) as Hlt.
  unfold select_manga. run. run. unfold by_stdin. cbn [stdin print print_all]. rewrite Hin.
  cbn [select_loop]. run.
  rewrite (int_not_q _ _ Hint), Hint.
  replace ((1 <=? i) && (i <=? Z.of_nat (length (d :: ds)))) with true
    by (symmetry; apply andb_true_iff; split; [apply Z.leb_le|apply Z.leb_le]; lia).
  rewrite Hlook. cbn. by rewrite <- app_assoc.
Qed.

Lemma get_manga_directories_elem content manga_dirs manga is_combined :
  get_manga_directories listdir (Some (Dir content)) = Ok manga_dirs ->
  (manga, is_combined) ∈ manga_dirs <->
  manga ∈ listdir content
  /\ (exists listing, content !! manga = Some (Folder listing)
                      /\ existsb (fun subdir => Combiner.isdir (snd subdir)) listing = true)
  /\ is_combined = bool_decide (is_Some (content !! (manga +:+ "_combined.cbz"))).
Proof.
  intros [= <-]. rewrite list_elem_of_omap. split.
  - intros (item & Hin & H).
    destruct (content !! item) as [[| |listing]|] eqn:Hitem; try done.
    destruct (existsb _ listing) eqn:Hsub; [|done].
    injection H as <- <-. rewrite Hitem. eauto.
  - intros (Hin & (listing & Hitem & Hsub) & ->). exists manga. split; [done|].
    by rewrite Hitem, Hsub.
Qed.

Lemma main_enters st source_dir lines more pl :
  directory_lines source_dir lines -> source_dir <> "" ->
  stdin st = lines ++ more ->
  world st !! source_dir = Some pl ->
  main listdir st
  = main_loop listdir source_dir more
      {| world := world st; stdin := more;
         stdout := stdout st ++ [DefaultDirectory default_source_dir] |}.
Proof.
  intros Hlines Hne Hin Hpl. unfold main. run.
  assert (String.eqb source_dir "" = false) as Hne' by by apply String.eqb_neq.
  destruct Hlines as [(line & -> & Hans & ->)|(line & path & -> & Hans & ->)].
  - erewrite run_bind; [|unfold input; cbn [stdin print]; rewrite Hin; reflexivity].
    cbn beta zeta. fold (answer line). rewrite Hans. cbn [String.eqb Ascii.eqb Bool.eqb].
    run. run. cbn [world stdout].
    rewrite Hne', Hpl. rewrite bool_decide_true by done. cbn [negb andb].
    reflexivity.
  - erewrite run_bind; [|unfold input; cbn [stdin print]; rewrite Hin; reflexivity].
    cbn beta zeta. fold (answer line).
    apply String.eqb_neq in Hans. rewrite Hans.
    run. run. cbn [world stdout].
    rewrite Hne', Hpl. rewrite bool_decide_true by done. cbn [negb andb].
    reflexivity.
Qed.

Lemma main_loop_break source_dir fuel st st' :
  round listdir source_dir st = (st', Ok Break) ->
  main_loop listdir source_dir fuel st = (st', Ok tt).
Proof. intros H. destruct fuel; cbn [main_loop]; by erewrite run_bind by exact H. Qed.

Lemma round_quit st source_dir content manga_dirs q no rest :
  world st !! source_dir = Some (Dir content) ->
  get_manga_directories listdir (Some (Dir content)) = Ok manga_dirs -> manga_dirs <> [] ->
  stdin st = q :: no :: rest -> lower q = "q" -> answer no = "n" ->
  round listdir source_dir st
  = ({| world := world st; stdin := rest;
        stdout := stdout st ++ [AvailableManga] ++ menu manga_dirs
                  ++ [Error (Exception "Operation cancelled by user"); Goodbye] |},
     Ok Break).
Proof.
  intros Hdir Hdirs Hne Hin Hq Hno. unfold round, attempt.
  run. rewrite Hdir, Hdirs. run.
  erewrite run_bind_raise; [|by apply (select_quit _ q (no :: rest))].
  cbn [isinstance_Exception]. unfold handler. run.
  erewrite run_bind; [|apply (ask_run _ no rest); [done|rewrite Hno; set_solver]].
  cbn beta. rewrite Hno. cbn [String.eqb Ascii.eqb Bool.eqb]. run.
  cbn. by rewrite <- !app_assoc.
Qed.

Lemma out_not_manga manga : manga +:+ "_combined.cbz" <> manga.
Proof.
  intros H. apply (f_equal list_ascii_of_string) in H. rewrite list_ascii_app in H.
  apply (f_equal length) in H. rewrite length_app in H. simpl in H. lia.
Qed.

Lemma round_combine st source_dir content manga_dirs k i manga is_combined listing log archive
    confirm no rest :
  world st !! source_dir = Some (Dir content) ->
  get_manga_directories listdir (Some (Dir content)) = Ok manga_dirs ->
  stdin st = k :: confirm ++ no :: rest ->
  int k = Ok i -> 1 <= i ->
  manga_dirs !! Z.to_nat (i - 1) = Some (manga, is_combined) ->
  confirms is_combined confirm ->
  (forall l, content !! (manga +:+ "_combined.cbz") <> Some (Folder l)) ->
  content !! manga = Some (Folder listing) ->
  Combiner.combine_chapters listing = (log, Ok archive) ->
  answer no = "n" ->
  round listdir source_dir st
  = ({| world := <[source_dir := Dir (<[manga +:+ "_combined.cbz" := Cbz archive]> content)]>
                   (world st);
        stdin := rest;
        stdout := stdout st ++ [AvailableManga] ++ menu manga_dirs
                  ++ [CombiningChapters manga] ++ map Progress log
                  ++ [Created (manga +:+ "_combined.cbz"); Goodbye] |},
     Ok Break).
Proof.
  intros Hdir Hdirs Hin Hint Hi Hlook Hconfirm Hout Hmanga Hcombine Hno.
  assert ((manga, is_combined) ∈ manga_dirs) as Hel by by eapply list_elem_of_lookup_2.
  apply (get_manga_directories_elem content manga_dirs) in Hel as (_ & _ & Hflag); [|done].
  unfold round, attempt. run. rewrite Hdir, Hdirs. run.
  erewrite run_bind; [|by eapply (select_pick _ k (confirm ++ no :: rest))]. cbn beta zeta.
  rewrite <- Hflag.
  assert (forall st1 : Console.state (gmap string place) message,
            world st1 = world st -> stdin st1 = no :: rest ->
            (_ ← print (CombiningChapters manga);
             _ ← combine_chapters source_dir manga (manga +:+ "_combined.cbz");
             _ ← print (Created (manga +:+ "_combined.cbz"));
             choice ← ask;
             if String.eqb choice "n" then _ ← print Goodbye; mret Break else mret Continue) st1
            = ({| world := <[source_dir := Dir (<[manga +:+ "_combined.cbz" := Cbz archive]>
                                                  content)]> (world st);
                  stdin := rest;
                  stdout := stdout st1 ++ [CombiningChapters manga] ++ map Progress log
                            ++ [Created (manga +:+ "_combined.cbz"); Goodbye] |}, Ok Break))
    as Hrest.
  { intros st1 Hw Hin1. run. unfold combine_chapters. rewrite run_assoc. run.
    cbn [world print]. rewrite Hw, Hdir, Hmanga, Hcombine.
    rewrite run_assoc. run. rewrite run_assoc. run.
    assert (forall (B : Type) (st2 : Console.state (gmap string place) message)
              (k : unit -> M B),
              (match content !! (manga +:+ "_combined.cbz") with
               | Some (Folder _) => lift (Raise (Exception "IsADirectoryError"))
               | _ => set_world (<[source_dir := Dir (<[manga +:+ "_combined.cbz" := Cbz archive]>
                                                        content)]> (world st))
               end ≫= k) st2
              = k tt {| world := <[source_dir := Dir (<[manga +:+ "_combined.cbz" := Cbz archive]>
                                                        content)]> (world st);
                        stdin := stdin st2; stdout := stdout st2 |}) as Hwrite.
    { intros B st2 k'. destruct (content !! (manga +:+ "_combined.cbz")) as [[| |l]|] eqn:E;
        try reflexivity. by destruct (Hout l). }
    rewrite Hwrite. run.
    erewrite run_bind; [|apply (ask_run _ no rest); [done|rewrite Hno; set_solver]].
    cbn beta. rewrite Hno. cbn [String.eqb Ascii.eqb Bool.eqb]. run.
    cbn. by rewrite <- !app_assoc. }
  destruct is_combined; cbn [confirms] in Hconfirm.
  - destruct Hconfirm as (line & -> & Hline).
    erewrite run_bind.
    2:{ erewrite run_bind; [|apply (ask_run _ line (no :: rest)); [done|rewrite Hline; set_solver]].
        cbn beta. rewrite Hline. reflexivity. }
    cbn beta. cbn [String.eqb Ascii.eqb Bool.eqb]. rewrite Hrest; [|done|done].
    cbn. by rewrite <- !app_assoc.
  - subst confirm. run.
    rewrite Hrest; [|done|done]. cbn. by rewrite <- !app_assoc.
Qed.

End CombinerMainRuns.

Section CombinerExceptions.
Import Re Combiner.

Lemma benign_ok {A} (a : A) : benign (Ok a).
Proof. by intros e. Qed.

Lemma benign_bind {A B} (r : result A) (k : A -> result B) :
  benign r -> (forall a, benign (k a)) -> benign (r ≫= k).
Proof. intros Hr Hk. destruct r as [a|e]; [apply Hk|]. intros e' [= <-]. by apply Hr. Qed.

Lemma benign_of_str s : benign (PyFloat.of_str s).
Proof.
  unfold PyFloat.of_str. destruct (PyFloat.split_dot s) as [a b].
  destruct (_ && _); [apply benign_ok|]. by intros e [= <-].
Qed.

Lemma benign_int_of_str s : benign (int_of_str s).
Proof. unfold int_of_str. destruct (_ && _); [apply benign_ok|]. by intros e [= <-]. Qed.

Lemma benign_float_of_group g : benign (float_of_group g).
Proof. destruct g; [apply benign_of_str|]. by intros e [= <-]. Qed.

Lemma benign_int_of_group g : benign (int_of_group g).
Proof. destruct g; [apply benign_int_of_str|]. by intros e [= <-]. Qed.

Lemma benign_extract_chapter_number dirname : benign (extract_chapter_number dirname).
Proof.
  assert (forall m, benign (rule_number m)) as Hnumber.
  { intros m. apply benign_bind; [apply benign_float_of_group|]. intros x. apply benign_ok. }
  unfold extract_chapter_number.
  destruct (re_search pattern1 dirname); [done|].
  destruct (re_search pattern2 dirname); [done|].
  destruct (re_search pattern3 dirname); [done|].
  destruct (re_search pattern4 dirname).
  { repeat (apply benign_bind; [first [apply benign_int_of_group|apply benign_of_str]|intros ?]).
    apply benign_ok. }
  destruct (re_search pattern5 dirname); [|apply benign_ok].
  repeat (apply benign_bind; [first [apply benign_int_of_group|apply benign_of_str]|intros ?]).
  apply benign_ok.
Qed.

Lemma benign_mapM {A B} (f : A -> result B) l : (forall x, benign (f x)) -> benign (mapM f l).
Proof.
  intros Hf. induction l as [|x l IH]; [apply benign_ok|].
  cbn [mapM]. apply benign_bind; [apply Hf|]. intros y.
  apply benign_bind; [apply IH|]. intros k. apply benign_ok.
Qed.

Lemma benign_get_chapter_directories manga_dir : benign (get_chapter_directories manga_dir).
Proof.
  unfold get_chapter_directories. apply benign_bind; [|intros ?; apply benign_ok].
  apply benign_mapM. intros x. apply benign_bind; [|intros ?; apply benign_ok].
  apply benign_bind; [apply benign_extract_chapter_number|intros ?; apply benign_ok].
Qed.

Lemma benign_process_images listing s files : forall i temp_dir,
  benign (process_images listing s i files temp_dir).
Proof.
  induction files as [|f files IH]; intros i temp_dir; [apply benign_ok|].
  cbn [process_images]. destruct (splitext f) as [stem ext].
  apply benign_bind; [|intros ?; apply IH].
  unfold copy2. destruct (List.find _ listing) as [[name [data|]]|];
    [apply benign_ok|by intros e [= <-]|by intros e [= <-]].
Qed.

Lemma benign_process_chapters manga_dir dirs : forall temp_dir log,
  benign (snd (process_chapters manga_dir dirs temp_dir log)).
Proof.
  induction dirs as [|d dirs IH]; intros temp_dir log; [apply benign_ok|].
  cbn [process_chapters].
  pose proof (benign_extract_chapter_number d) as Hd.
  destruct (extract_chapter_number d) as [[k|]|e];
    [| |intros e' [= <-]; by apply Hd].
  - destruct (_ ≫= _) as [t|e] eqn:E; [apply IH|].
    cbn [snd]. rewrite <- E. apply benign_bind.
    + unfold chapter_num_str. apply benign_bind; [|intros ?; apply benign_ok].
      destruct k; cbn [PyFloat.to_int]; first [apply benign_ok|by intros e' [= <-]].
    + intros s. apply benign_process_images.
  - apply IH.
Qed.

Lemma benign_combine_chapters manga_dir : benign (snd (combine_chapters manga_dir)).
Proof.
  unfold combine_chapters.
  pose proof (benign_get_chapter_directories manga_dir) as Hd.
  destruct (get_chapter_directories manga_dir) as [[|d dirs]|e];
    [by intros e [= <-]| |intros e' [= <-]; by apply Hd].
  pose proof (benign_process_chapters manga_dir (d :: dirs) ∅ [FoundChapters (length (d :: dirs))])
    as Hp.
  destruct (process_chapters _ _ _ _) as [log r]. cbn [snd] in *.
  apply benign_bind; [done|intros ?; apply benign_ok].
Qed.

End CombinerExceptions.

Section CombinerMainEnds.
Import PyText Console CombinerMain.
Context (listdir : gmap string node -> list string).

Lemma orderly_ret {A} (a : A) : orderly (mret a).
Proof. by intros st st' r [= <- <-]. Qed.

Lemma orderly_bind {A B} (m : M A) (k : A -> M B) :
  orderly m -> (forall a, orderly (k a)) -> orderly (m ≫= k).
Proof.
  intros Hm Hk st st' r H.
  apply run_bind_inv in H as [(st1 & a & H1 & H2)|(e & H1 & ->)].
  - destruct (Hm _ _ _ H1) as [Hlen _]. destruct (Hk a _ _ _ H2) as [Hlen' He].
    split; [lia|done].
  - destruct (Hm _ _ _ H1) as [Hlen He]. split; [done|]. intros e' [= <-]. by apply He.
Qed.

Lemma orderly_lift {A} (r : result A) : benign r -> orderly (lift r).
Proof. intros Hr st st' r' [= <- <-]. done. Qed.

Lemma orderly_get_world : orderly get_world.
Proof. by intros st st' r [= <- <-]. Qed.

Lemma orderly_set_world w : orderly (set_world w).
Proof. by intros st st' r [= <- <-]. Qed.

Lemma orderly_print m : orderly (print m).
Proof. by intros st st' r [= <- <-]. Qed.

Lemma orderly_print_all ms : orderly (print_all ms).
Proof. by intros st st' r [= <- <-]. Qed.

Lemma orderly_input : orderly input.
Proof.
  intros st st' r. unfold input. destruct (stdin st) as [|line rest] eqn:E.
  - intros [= <- <-]. rewrite E. split; [done|]. by intros e [= <-].
  - intros [= <- <-]. cbn. split; [lia|done].
Qed.

Lemma reads_input : reads input.
Proof.
  intros st st' a. unfold input. destruct (stdin st) as [|line rest]; [done|].
  intros [= <- _]. cbn. lia.
Qed.

Lemma eof_only_input : eof_only input.
Proof.
  intros st st' e. unfold input. destruct (stdin st) as [|line rest] eqn:E; [|done].
  by intros [= <- <-].
Qed.

Lemma reads_bind_l {A B} (m : M A) (k : A -> M B) :
  reads m -> (forall a, orderly (k a)) -> reads (m ≫= k).
Proof.
  intros Hm Hk st st' b H.
  apply run_bind_inv in H as [(st1 & a & H1 & H2)|(e & _ & [=])].
  pose proof (Hm _ _ _ H1). destruct (Hk a _ _ _ H2) as [Hlen _]. lia.
Qed.

Lemma reads_bind_r {A B} (m : M A) (k : A -> M B) :
  orderly m -> (forall a, reads (k a)) -> reads (m ≫= k).
Proof.
  intros Hm Hk st st' b H.
  apply run_bind_inv in H as [(st1 & a & H1 & H2)|(e & _ & [=])].
  destruct (Hm _ _ _ H1) as [Hlen _]. pose proof (Hk a _ _ _ H2). lia.
Qed.

Lemma eof_only_bind {A B} (m : M A) (k : A -> M B) :
  eof_only m -> (forall a, eof_only (k a)) -> eof_only (m ≫= k).
Proof.
  intros Hm Hk st st' e H.
  apply run_bind_inv in H as [(st1 & a & H1 & H2)|(e' & H1 & [= <-])].
  - by eapply Hk.
  - by eapply Hm.
Qed.

Lemma eof_only_ret {A} (a : A) : eof_only (mret a).
Proof. by intros st st' e. Qed.

Lemma eof_only_print m : eof_only (print m).
Proof. by intros st st' e. Qed.

Lemma parting_bind {A} (m : M A) (k : A -> M outcome) :
  (forall a, parting (k a)) -> parting (m ≫= k).
Proof.
  intros Hk st st' H. apply run_bind_inv in H as [(st1 & a & H1 & H2)|(e & _ & [=])].
  by eapply Hk.
Qed.

Lemma parting_goodbye : parting (_ ← print Goodbye; mret Break).
Proof. intros st st' [= <-]. cbn. by rewrite last_snoc. Qed.

Lemma parting_continue : parting (mret Continue).
Proof. by intros st st'. Qed.

(** The question loops. *)

Lemma orderly_ask_loop fuel : orderly (ask_loop fuel).
Proof.
  induction fuel as [|x fuel IH]; cbn [ask_loop].
  - apply orderly_bind; [apply orderly_input|]. intros _. by apply orderly_lift; intros e [= <-].
  - apply orderly_bind; [apply orderly_input|]. intros line. cbn zeta.
    destruct (bool_decide _); [apply orderly_ret|].
    apply orderly_bind; [apply orderly_print|done].
Qed.

Lemma reads_ask_loop fuel : reads (ask_loop fuel).
Proof.
  destruct fuel as [|x fuel]; cbn [ask_loop].
  - apply reads_bind_l; [apply reads_input|]. intros _. by apply orderly_lift; intros e [= <-].
  - apply reads_bind_l; [apply reads_input|]. intros line. cbn zeta.
    destruct (bool_decide _); [apply orderly_ret|].
    apply orderly_bind; [apply orderly_print|]. intros _. apply orderly_ask_loop.
Qed.

Lemma eof_only_ask_loop fuel : forall st st' e,
  (length (stdin st) <= length fuel)%nat ->
  ask_loop fuel st = (st', Raise e) -> e = EOFError /\ stdin st' = [].
Proof.
  induction fuel as [|x fuel IH]; intros st st' e Hlen; cbn [ask_loop].
  - destruct (stdin st) as [|line rest] eqn:E; [|simpl in Hlen; lia].
    unfold mbind, console_bind, input. rewrite E. by intros [= <- <-].
  - unfold mbind at 1. unfold console_bind at 1. unfold input.
    destruct (stdin st) as [|line rest] eqn:E; [by intros [= <- <-]|].
    cbn zeta. destruct (bool_decide _); [done|].
    unfold mbind, console_bind, print. cbn [stdin]. apply IH. cbn. simpl in Hlen. lia.
Qed.

Lemma orderly_ask : orderly ask.
Proof. intros st. apply orderly_ask_loop. Qed.

Lemma reads_ask : reads ask.
Proof. intros st. apply reads_ask_loop. Qed.

Lemma eof_only_ask : eof_only ask.
Proof. intros st st' e. by apply eof_only_ask_loop. Qed.

(** [select_manga] *)

Lemma int_raises s e : int s = Raise e -> exists what, e = ValueError what.
Proof.
  unfold int. destruct (match rstrip _ _ with EmptyString => _ | _ => _ end) as [negative body].
  destruct (int_digits false body) as [digits|]; [|intros [= <-]; eauto].
  destruct (_ <=? _)%nat; [done|]. intros [= <-]. eauto.
Qed.

Lemma orderly_select_loop manga_dirs fuel : orderly (select_loop manga_dirs fuel).
Proof.
  induction fuel as [|x fuel IH]; cbn [select_loop].
  - apply orderly_bind; [apply orderly_input|]. intros _. by apply orderly_lift; intros e [= <-].
  - apply orderly_bind; [apply orderly_input|]. intros choice.
    destruct (String.eqb _ _); [by apply orderly_lift; intros e [= <-]|].
    destruct (int choice) as [i|e] eqn:E.
    + destruct (_ && _).
      * destruct (manga_dirs !! _) as [[manga b]|]; [apply orderly_ret|].
        by apply orderly_lift; intros e [= <-].
      * apply orderly_bind; [apply orderly_print|done].
    + apply int_raises in E as [what ->]. apply orderly_bind; [apply orderly_print|done].
Qed.

Lemma reads_select_loop manga_dirs fuel : reads (select_loop manga_dirs fuel).
Proof.
  destruct fuel as [|x fuel]; cbn [select_loop].
  - apply reads_bind_l; [apply reads_input|]. intros _. by apply orderly_lift; intros e [= <-].
  - apply reads_bind_l; [apply reads_input|]. intros choice.
    destruct (String.eqb _ _); [by apply orderly_lift; intros e [= <-]|].
    destruct (int choice) as [i|e] eqn:E.
    + destruct (_ && _).
      * destruct (manga_dirs !! _) as [[manga b]|]; [apply orderly_ret|].
        by apply orderly_lift; intros e [= <-].
      * apply orderly_bind; [apply orderly_print|]. intros _. apply orderly_select_loop.
    + apply int_raises in E as [what ->].
      apply orderly_bind; [apply orderly_print|]. intros _. apply orderly_select_loop.
Qed.

Lemma orderly_select_manga manga_dirs : orderly (select_manga manga_dirs).
Proof.
  destruct manga_dirs as [|d ds]; [by apply orderly_lift; intros e [= <-]|].
  unfold select_manga. apply orderly_bind; [apply orderly_print|]. intros _.
  apply orderly_bind; [apply orderly_print_all|]. intros _.
  intros st. apply orderly_select_loop.
Qed.

Lemma reads_select_manga manga_dirs : reads (select_manga manga_dirs).
Proof.
  destruct manga_dirs as [|d ds]; [done|].
  unfold select_manga. apply reads_bind_r; [apply orderly_print|]. intros _.
  apply reads_bind_r; [apply orderly_print_all|]. intros _.
  intros st. apply reads_select_loop.
Qed.

(** A round *)

Lemma orderly_combine_chapters source_dir selected_manga output_filename :
  orderly (combine_chapters source_dir selected_manga output_filename).
Proof.
  unfold combine_chapters. apply orderly_bind; [apply orderly_get_world|]. intros w.
  destruct (w !! source_dir) as [[|content]|];
    [by apply orderly_lift; intros e [= <-]| |by apply orderly_lift; intros e [= <-]].
  destruct (content !! selected_manga) as [[| |listing]|];
    [by apply orderly_lift; intros e [= <-]..| |by apply orderly_lift; intros e [= <-]].
  pose proof (benign_combine_chapters listing) as Hb.
  destruct (Combiner.combine_chapters listing) as [log r]. cbn [snd] in Hb.
  apply orderly_bind; [apply orderly_print_all|]. intros _.
  apply orderly_bind; [by apply orderly_lift|]. intros archive.
  destruct (content !! output_filename) as [[| |l]|];
    first [apply orderly_set_world|by apply orderly_lift; intros e [= <-]].
Qed.

Lemma orderly_finish :
  orderly (choice ← ask;
           if String.eqb choice "n" then _ ← print Goodbye; mret Break else mret Continue).
Proof.
  apply orderly_bind; [apply orderly_ask|]. intros choice.
  destruct (String.eqb _ _); [|apply orderly_ret].
  apply orderly_bind; [apply orderly_print|]. intros _. apply orderly_ret.
Qed.

Lemma parting_finish :
  parting (choice ← ask;
           if String.eqb choice "n" then _ ← print Goodbye; mret Break else mret Continue).
Proof.
  apply parting_bind. intros choice.
  destruct (String.eqb _ _); [apply parting_goodbye|apply parting_continue].
Qed.

Lemma benign_get_manga_directories source_dir :
  benign (get_manga_directories listdir source_dir).
Proof. by destruct source_dir as [[|content]|]; intros e [= <-]. Qed.

Lemma orderly_after_select source_dir (w : gmap string place) selected_manga :
  orderly (let output_filename := selected_manga +:+ "_combined.cbz" in
           let output_path :=
             match w !! source_dir with
             | Some (Dir content) => content !! output_filename
             | _ => None
             end in
           skip ← (if bool_decide (is_Some output_path)
                   then choice ← ask; mret (String.eqb choice "n")
                   else mret false);
           if skip : bool then _ ← print SkippingManga; mret Continue
           else
             _ ← print (CombiningChapters selected_manga);
             _ ← combine_chapters source_dir selected_manga output_filename;
             _ ← print (Created output_filename);
             choice ← ask;
             if String.eqb choice "n" then _ ← print Goodbye; mret Break
             else mret Continue).
Proof.
  cbn zeta. apply orderly_bind.
  { destruct (bool_decide _); [|apply orderly_ret].
    apply orderly_bind; [apply orderly_ask|]. intros ?. apply orderly_ret. }
  intros [|].
  { apply orderly_bind; [apply orderly_print|]. intros _. apply orderly_ret. }
  apply orderly_bind; [apply orderly_print|]. intros _.
  apply orderly_bind; [apply orderly_combine_chapters|]. intros _.
  apply orderly_bind; [apply orderly_print|]. intros _. apply orderly_finish.
Qed.

Lemma orderly_attempt source_dir : orderly (attempt listdir source_dir).
Proof.
  unfold attempt. apply orderly_bind; [apply orderly_get_world|]. intros w.
  apply orderly_bind; [apply orderly_lift, benign_get_manga_directories|]. intros manga_dirs.
  apply orderly_bind; [apply orderly_select_manga|]. intros selected_manga.
  apply orderly_after_select.
Qed.

Lemma reads_attempt source_dir : reads (attempt listdir source_dir).
Proof.
  unfold attempt. apply reads_bind_r; [apply orderly_get_world|]. intros w.
  apply reads_bind_r; [apply orderly_lift, benign_get_manga_directories|]. intros manga_dirs.
  apply reads_bind_l; [apply reads_select_manga|]. intros selected_manga.
  apply orderly_after_select.
Qed.

Lemma parting_attempt source_dir : parting (attempt listdir source_dir).
Proof.
  unfold attempt. do 4 (apply parting_bind; intros ?).
  destruct a2.
  { apply parting_bind. intros _. apply parting_continue. }
  do 3 (apply parting_bind; intros ?). apply parting_finish.
Qed.

Lemma reads_handler e : reads (handler e).
Proof.
  unfold handler. apply reads_bind_r; [apply orderly_print|]. intros _.
  apply reads_bind_l; [apply reads_ask|]. intros choice.
  destruct (String.eqb _ _); [|apply orderly_ret].
  apply orderly_bind; [apply orderly_print|]. intros _. apply orderly_ret.
Qed.

Lemma eof_only_handler e : eof_only (handler e).
Proof.
  unfold handler. apply eof_only_bind; [apply eof_only_print|]. intros _.
  apply eof_only_bind; [apply eof_only_ask|]. intros choice.
  destruct (String.eqb _ _); [|apply eof_only_ret].
  apply eof_only_bind; [apply eof_only_print|]. intros _. apply eof_only_ret.
Qed.

Lemma parting_handler e : parting (handler e).
Proof. unfold handler. apply parting_bind. intros _. apply parting_finish. Qed.

Lemma round_ends source_dir st st' r :
  round listdir source_dir st = (st', r) ->
  match r with
  | Ok Break => last (stdout st') = Some Goodbye
  | Ok Continue => (length (stdin st') < length (stdin st))%nat
  | Raise e => e = EOFError /\ stdin st' = []
  end.
Proof.
  unfold round. destruct (attempt listdir source_dir st) as [st1 [o|e]] eqn:E.
  - intros [= <- <-]. destruct o.
    + by eapply reads_attempt.
    + by eapply parting_attempt.
  - destruct (orderly_attempt source_dir _ _ _ E) as [Hlen He]. rewrite (He e eq_refl).
    intros H. destruct r as [[|]|e'].
    + pose proof (reads_handler e _ _ _ H). lia.
    + by eapply parting_handler.
    + by eapply eof_only_handler.
Qed.

Lemma main_loop_ends source_dir fuel : forall st st' r,
  (length (stdin st) <= length fuel)%nat ->
  main_loop listdir source_dir fuel st = (st', r) ->
  match r with
  | Ok _ => last (stdout st') = Some Goodbye
  | Raise e => e = EOFError /\ stdin st' = []
  end.
Proof.
  induction fuel as [|x fuel IH]; intros st st' r Hlen; cbn [main_loop];
    unfold mbind, console_bind;
    destruct (round listdir source_dir st) as [st1 [o|e]] eqn:E;
    apply round_ends in E.
  - simpl in Hlen. destruct o; [lia|]. by intros [= <- <-].
  - by intros [= <- <-].
  - destruct o; [|by intros [= <- <-]]. apply IH. simpl in Hlen. lia.
  - by intros [= <- <-].
Qed.

End CombinerMainEnds.

(** X20.  Typing q at the menu of the combiner does not end the program.
    With a source directory that has at least one manga directory, [main]
    prints the menu, reads q (or Q), reports it as
    "Error: Operation cancelled by user" and asks whether to try another
    manga; an answer read as "n" then ends the run normally with the
    goodbye message.  Nothing is written and the lines typed after the
    answer are left unread. *)
Theorem main_quit_is_reported (listdir : gmap string CombinerMain.node -> list string)
    (st : Console.state (gmap string CombinerMain.place) CombinerMain.message)
    (source_dir : string) (lines : list string) (content : gmap string CombinerMain.node)
    (manga_dirs : list (string * bool)) (q no : string) (rest : list string) :
  directory_lines source_dir lines -> source_dir <> "" ->
  Console.world st !! source_dir = Some (CombinerMain.Dir content) ->
  CombinerMain.get_manga_directories listdir (Some (CombinerMain.Dir content)) = Ok manga_dirs ->
  manga_dirs <> [] ->
  Console.stdin st = lines ++ q :: no :: rest -> lower q = "q" -> answer no = "n" ->
  CombinerMain.main listdir st
  = ({| Console.world := Console.world st;
        Console.stdin := rest;
        Console.stdout :=
          Console.stdout st
          ++ [CombinerMain.DefaultDirectory CombinerMain.default_source_dir;
              CombinerMain.AvailableManga]
          ++ menu manga_dirs
          ++ [CombinerMain.Error (Exception "Operation cancelled by user");
              CombinerMain.Goodbye] |}, Ok tt).
Proof.
  intros Hlines Hne Hdir Hdirs Hsome Hin Hq Hno.
  erewrite main_enters; [|done..].
  erewrite main_loop_break; [|by eapply round_quit].
  cbn. by rewrite <- !app_assoc.
Qed.

(** X21.  A run of the combiner that combines one manga.  The user picks
    the source directory, types a line that [int] reads as the menu number
    of a manga, confirms with a line read as "y" when the menu showed the
    manga as already combined (nothing is asked otherwise), and answers the
    last question with a line read as "n".  If [combine_chapters] returns
    for the manga directory, and no directory stands where the archive
    goes, then [main] returns normally, the one change in the source
    directory is the file [<manga>_combined.cbz] holding the archive, the
    output is the menu, the progress of [combine_chapters], the success
    line and the goodbye, and [get_manga_directories] called afterwards
    shows the manga as combined. *)
Theorem main_combines (listdir : gmap string CombinerMain.node -> list string)
    (st : Console.state (gmap string CombinerMain.place) CombinerMain.message)
    (source_dir : string) (lines : list string) (content : gmap string CombinerMain.node)
    (manga_dirs : list (string * bool)) (k : string) (i : Z) (manga : string)
    (is_combined : bool) (listing : list (string * Combiner.item))
    (log : list Combiner.message) (archive : list (string * string))
    (confirm : list string) (no : string) (rest : list string) :
  let output_filename := manga +:+ "_combined.cbz" in
  let content' := <[output_filename := CombinerMain.Cbz archive]> content in
  lists_names listdir ->
  directory_lines source_dir lines -> source_dir <> "" ->
  Console.world st !! source_dir = Some (CombinerMain.Dir content) ->
  CombinerMain.get_manga_directories listdir (Some (CombinerMain.Dir content)) = Ok manga_dirs ->
  Console.stdin st = lines ++ k :: confirm ++ no :: rest ->
  PyText.int k = Ok i -> 1 <= i ->
  manga_dirs !! Z.to_nat (i - 1) = Some (manga, is_combined) ->
  confirms is_combined confirm ->
  (forall l, content !! output_filename <> Some (CombinerMain.Folder l)) ->
  content !! manga = Some (CombinerMain.Folder listing) ->
  Combiner.combine_chapters listing = (log, Ok archive) ->
  answer no = "n" ->
  CombinerMain.main listdir st
  = ({| Console.world := <[source_dir := CombinerMain.Dir content']> (Console.world st);
        Console.stdin := rest;
        Console.stdout :=
          Console.stdout st
          ++ [CombinerMain.DefaultDirectory CombinerMain.default_source_dir;
              CombinerMain.AvailableManga]
          ++ menu manga_dirs
          ++ [CombinerMain.CombiningChapters manga]
          ++ map CombinerMain.Progress log
          ++ [CombinerMain.Created output_filename; CombinerMain.Goodbye] |}, Ok tt)
  /\ exists manga_dirs',
       CombinerMain.get_manga_directories listdir (Some (CombinerMain.Dir content'))
       = Ok manga_dirs'
       /\ (manga, true) ∈ manga_dirs'.
Proof.
  intros output_filename content' Hlist Hlines Hne Hdir Hdirs Hin Hint Hi Hlook Hconfirm Hout
    Hmanga Hcombine Hno.
  split.
  - erewrite main_enters; [|done..].
    erewrite main_loop_break; [|by eapply round_combine].
    cbn. by rewrite <- !app_assoc.
  - eexists. split; [reflexivity|].
    assert ((manga, is_combined) ∈ manga_dirs) as Hel by by eapply list_elem_of_lookup_2.
    apply (get_manga_directories_elem listdir content manga_dirs) in Hel
      as (_ & (listing' & Hmanga' & Hsub) & _); [|done].
    apply (get_manga_directories_elem listdir content' _ manga true); [done|].
    assert (content' !! manga = Some (CombinerMain.Folder listing')) as Hkeep.
    { unfold content'. rewrite lookup_insert_ne; [done|]. apply out_not_manga. }
    split; [|split].
    + rewrite (Hlist content'). apply list_elem_of_fmap.
      exists (manga, CombinerMain.Folder listing'). split; [done|].
      by apply elem_of_map_to_list.
    + eauto.
    + symmetry. apply bool_decide_eq_true. unfold content'. rewrite lookup_insert_eq. eauto.
Qed.

(** X22.  How the combiner ends.  Whatever the directories hold and
    whatever is typed, [main] ends in one of three ways: normally, its last
    output being the goodbye message; with [EOFError], every typed line
    having been read; or with the exception that the source directory does
    not exist (no directory has that path, or the path is empty), the
    directories being what they were.  So no error met while listing,
    selecting or combining a manga ends the program. *)
Theorem main_ends (listdir : gmap string CombinerMain.node -> list string)
    (st : Console.state (gmap string CombinerMain.place) CombinerMain.message) :
  ending st (CombinerMain.main listdir st).
Proof.
  unfold CombinerMain.main.
  unfold mbind at 1. unfold Console.console_bind at 1. cbn [Console.print].
  unfold mbind at 1. unfold Console.console_bind at 1. unfold Console.input at 1.
  cbn [Console.stdin]. destruct (Console.stdin st) as [|line more] eqn:Hin.
  { apply ends_with_input. done. }
  cbn zeta.
  assert (forall source_dir (st1 : Console.state (gmap string CombinerMain.place)
                                    CombinerMain.message),
            Console.world st1 = Console.world st ->
            ending st ((found ← CombinerMain.exists_path source_dir;
                        if found : bool
                        then Console.by_stdin (CombinerMain.main_loop listdir source_dir)
                        else Console.lift (Raise (Exception ("Source directory '" +:+ source_dir
                                                             +:+ "' does not exist")))) st1))
    as Hloop.
  { intros source_dir st1 Hw. run.
    destruct (negb _ && _) eqn:Hfound.
    - unfold Console.by_stdin.
      destruct (CombinerMain.main_loop listdir source_dir (Console.stdin st1) st1)
        as [st' r] eqn:E.
      apply main_loop_ends in E; [|done].
      destruct r as [[]|e]; [by apply ends_with_goodbye|].
      destruct E as [-> E]. by apply ends_with_input.
    - apply ends_without_directory; [done|].
      apply andb_false_iff in Hfound as [H|H].
      + right. apply negb_false_iff in H. by apply String.eqb_eq.
      + left. apply bool_decide_eq_false in H. rewrite <- Hw.
        destruct (Console.world st1 !! source_dir) eqn:E; [|done]. destruct H. eauto. }
  destruct (String.eqb _ "y").
  - unfold mbind at 1. unfold Console.console_bind at 1.
    cbn [mret Console.console_ret]. by apply Hloop.
  - unfold mbind at 1. unfold Console.console_bind at 1.
    unfold mbind at 1. unfold Console.console_bind at 1. unfold Console.input at 1.
    cbn [Console.stdin]. destruct more as [|path more].
    { by apply ends_with_input. }
    cbn [mret Console.console_ret]. by apply Hloop.
Qed.

Lemma main_quit_is_reported_witness :
  CombinerMain.main Py.listdir (sample_console [""; "Q"; " N "; "1"])
  = ({| Console.world := Console.world (sample_console []);
        Console.stdin := ["1"];
        Console.stdout :=
          [CombinerMain.DefaultDirectory CombinerMain.default_source_dir;
           CombinerMain.AvailableManga;
           CombinerMain.MenuEntry 1 "Alpha" false;
           CombinerMain.MenuEntry 2 "Beta" true;
           CombinerMain.Error (Exception "Operation cancelled by user");
           CombinerMain.Goodbye] |}, Ok tt).
Proof.
  rewrite (main_quit_is_reported Py.listdir (sample_console [""; "Q"; " N "; "1"])
             CombinerMain.default_source_dir [""] sample_source
             [("Alpha", false); ("Beta", true)] "Q" " N " ["1"]).
  - reflexivity.
  - left. exists "". split; [reflexivity|]. split; [vm_compute; reflexivity|reflexivity].
  - discriminate.
  - vm_compute. reflexivity.
  - vm_compute. reflexivity.
  - discriminate.
  - reflexivity.
  - vm_compute. reflexivity.
  - vm_compute. reflexivity.
Defined.

Lemma main_combines_witness :
  CombinerMain.main Py.listdir (sample_console ["Y"; " 2"; ""; "n"; "1"])
  = ({| Console.world :=
          <[CombinerMain.default_source_dir :=
              CombinerMain.Dir
                (<["Beta_combined.cbz" :=
                     CombinerMain.Cbz [("0001_001.webp", "page 1"); ("0002_001.jpg", "page 2a");
                                       ("0002_002.PNG", "page 2b")]]> sample_source)]>
            (Console.world (sample_console []));
        Console.stdin := ["1"];
        Console.stdout :=
          [CombinerMain.DefaultDirectory CombinerMain.default_source_dir;
           CombinerMain.AvailableManga;
           CombinerMain.MenuEntry 1 "Alpha" false;
           CombinerMain.MenuEntry 2 "Beta" true;
           CombinerMain.CombiningChapters "Beta";
           CombinerMain.Progress (Combiner.FoundChapters 3);
           CombinerMain.Progress (Combiner.WarningNoChapterNumber "artbook");
           CombinerMain.Created "Beta_combined.cbz";
           CombinerMain.Goodbye] |}, Ok tt).
Proof.
  refine (proj1 (main_combines Py.listdir (sample_console ["Y"; " 2"; ""; "n"; "1"])
                   CombinerMain.default_source_dir ["Y"] sample_source
                   [("Alpha", false); ("Beta", true)] " 2" 2 "Beta" true sample_manga
                   [Combiner.FoundChapters 3; Combiner.WarningNoChapterNumber "artbook"]
                   [("0001_001.webp", "page 1"); ("0002_001.jpg", "page 2a");
                    ("0002_002.PNG", "page 2b")]
                   [""] "n" ["1"] _ _ _ _ _ _ _ _ _ _ _ _ _ _)).
  - intros content. reflexivity.
  - left. exists "Y". split; [reflexivity|]. split; [vm_compute; reflexivity|reflexivity].
  - discriminate.
  - vm_compute. reflexivity.
  - vm_compute. reflexivity.
  - reflexivity.
  - vm_compute. reflexivity.
  - lia.
  - reflexivity.
  - exists "". split; [reflexivity|]. vm_compute. reflexivity.
  - intros l. vm_compute. discriminate.
  - vm_compute. reflexivity.
  - vm_compute. reflexivity.
  - vm_compute. reflexivity.
Defined.

(** ** downloader.py: the requests for the chapters *)

Section CatalogPages.
Import Catalog.

Lemma collect_pages all get : serves all get -> forall fuel k,
  (1 <= fuel)%nat -> (length all <= 100 * (k + fuel))%nat -> (100 * k <= length all)%nat ->
  collect get fuel (100 * Z.of_nat k) (take (100 * k) all) = Some (inr all).
Proof.
  intros Hget. induction fuel as [|fuel IH]; intros k Hfuel Hlen Hk; [lia|].
  cbn [collect]. rewrite Hget. cbn [data total].
  rewrite take_take_drop.
  destruct (Z.leb_spec (Z.of_nat (length all)) (Z.of_nat (length (take (100 * k + 100) all))))
    as [Hle|Hgt].
  - rewrite take_ge; [done|]. rewrite length_take in Hle. lia.
  - rewrite length_take in Hgt.
    replace (100 * Z.of_nat k + 100) with (100 * Z.of_nat (S k)) by lia.
    replace (100 * k + 100)%nat with (100 * S k)%nat by lia.
    apply IH; lia.
Qed.

Lemma collect_more all extra : 0 < extra -> forall fuel k,
  collect (promises_more all extra) fuel (100 * Z.of_nat k) (take (100 * k) all) = None.
Proof.
  intros Hextra. induction fuel as [|fuel IH]; intros k; [done|].
  cbn [collect promises_more data total].
  replace (Z.to_nat (100 * Z.of_nat k)) with (100 * k)%nat by lia.
  rewrite take_take_drop.
  destruct (Z.leb_spec (Z.of_nat (length all) + extra)
              (Z.of_nat (length (take (100 * k + 100) all)))) as [Hle|Hgt].
  - rewrite length_take in Hle. lia.
  - replace (100 * Z.of_nat k + 100) with (100 * Z.of_nat (S k)) by lia.
    replace (100 * k + 100)%nat with (100 * S k)%nat by lia.
    apply IH.
Qed.

End CatalogPages.

(** X23.  The requests for the chapters.  Against a catalog that holds
    the chapters [all] and serves them in pages of 100, the loop that
    [get_chapters] and [check_chapter_availability] run (offsets 0, 100,
    200, ... until as many chapters are in hand as the catalog says it has)
    ends within [fuel] requests as soon as [100 * fuel] reaches the number
    of chapters, and gives exactly [all], in order; [get_chapters] then goes
    on with these chapters. *)
Theorem collect_serves (all : list Catalog.chapter)
    (get : Z -> Catalog.failure + Catalog.response) (fuel : nat) :
  serves all get -> (1 <= fuel)%nat -> (length all <= 100 * fuel)%nat ->
  Catalog.collect get fuel 0 [] = Some (inr all)
  /\ Catalog.get_chapters get fuel = Some (Catalog.choose_chapters all).
Proof.
  intros Hget Hfuel Hlen.
  assert (Catalog.collect get fuel 0 [] = Some (inr all)) as H.
  { apply (collect_pages all get Hget fuel 0%nat); [done|lia|lia]. }
  split; [done|]. unfold Catalog.get_chapters. by rewrite H.
Qed.

(** X28.  The paging loop has no bound of its own.  Against a catalog
    that serves its chapters in pages of 100 but reports a total larger
    than the number of chapters it serves, the loop of [get_chapters] and
    [check_chapter_availability] is still running after any number of
    requests: it neither returns nor raises. *)
Theorem collect_never_gives_up (all : list Catalog.chapter) (extra : Z) (fuel : nat) :
  0 < extra ->
  Catalog.collect (promises_more all extra) fuel 0 [] = None
  /\ Catalog.get_chapters (promises_more all extra) fuel = None
  /\ Catalog.check_chapter_availability (promises_more all extra) (promises_more all extra)
       "en" fuel = None.
Proof.
  intros Hextra.
  assert (Catalog.collect (promises_more all extra) fuel 0 [] = None) as H.
  { apply (collect_more all extra Hextra fuel 0%nat). }
  unfold Catalog.get_chapters, Catalog.check_chapter_availability. by rewrite H.
Qed.

Lemma collect_never_gives_up_witness :
  Catalog.get_chapters (promises_more [numbered (Downloader.Label "1")] 1) 50 = None.
Proof.
  apply (collect_never_gives_up [numbered (Downloader.Label "1")] 1 50). lia.
Defined.

Lemma collect_serves_witness :
  Catalog.collect (pages_of_catalog (replicate 250 (numbered (Downloader.Label "1")))) 3 0 []
  = Some (inr (replicate 250 (numbered (Downloader.Label "1")))).
Proof.
  apply (collect_serves (replicate 250 (numbered (Downloader.Label "1")))
           (pages_of_catalog (replicate 250 (numbered (Downloader.Label "1")))) 3).
  - intros k. unfold pages_of_catalog.
    replace (Z.to_nat (100 * Z.of_nat k)) with (100 * k)%nat by lia. reflexivity.
  - lia.
  - rewrite length_replicate. lia.
Defined.

(** ** downloader.py: [check_chapter_availability] *)

Section MissingChapters.
Import Console Catalog.

Lemma insert_num_some x l :
  insert_num (Some x) (map Some l) = Ok (map Some (insert_sorted str_lt id x l)).
Proof.
  induction l as [|y l IH]; [done|].
  cbn [map insert_num insert_sorted num_lt mbind result_bind Py.bind id].
  destruct (str_lt y x); [|done]. by rewrite IH.
Qed.

Lemma sorted_nums_some l : sorted_nums (map Some l) = Ok (map Some (sorted l)).
Proof.
  induction l as [|x l IH]; [done|].
  cbn [map sorted_nums foldr]. fold (sorted_nums (map Some l)). rewrite IH.
  cbn [mbind result_bind Py.bind]. by rewrite insert_num_some.
Qed.

Lemma insert_num_perm x l r : insert_num x l = Ok r -> r ≡ₚ x :: l.
Proof.
  revert r. induction l as [|y l IH]; intros r; [by intros [= <-]|].
  cbn [insert_num]. destruct (num_lt y x) as [[|]|e]; cbn [mbind result_bind Py.bind];
    [|by intros [= <-]|done].
  destruct (insert_num x l) as [r'|e]; [|done]. cbn [Py.bind]. intros [= <-].
  rewrite (IH r' eq_refl). apply perm_swap.
Qed.

Lemma insert_num_raises x l e :
  insert_num x l = Raise e -> exists what, e = TypeError what.
Proof.
  induction l as [|y l IH]; [done|].
  cbn [insert_num]. destruct (num_lt y x) as [[|]|e'] eqn:E; cbn [mbind result_bind Py.bind].
  - destruct (insert_num x l) as [r'|e']; [done|]. intros [= <-]. by apply IH.
  - done.
  - intros [= <-]. destruct y, x; simpl in E; try done; injection E as <-; eauto.
Qed.

Lemma sorted_nums_raises l e : sorted_nums l = Raise e -> exists what, e = TypeError what.
Proof.
  induction l as [|x l IH]; [done|].
  cbn [sorted_nums foldr]. fold (sorted_nums l).
  destruct (sorted_nums l) as [r|e']; cbn [mbind result_bind Py.bind].
  - apply insert_num_raises.
  - intros [= <-]. by apply IH.
Qed.

(** A sort that returns has met strings only, or one value. *)
Lemma sorted_nums_ok l r :
  sorted_nums l = Ok r -> r ≡ₚ l /\ (l = [None] \/ exists l', l = map Some l').
Proof.
  revert r. induction l as [|x l IH]; intros r.
  { intros [= <-]. split; [done|]. right. by exists []. }
  cbn [sorted_nums foldr]. fold (sorted_nums l).
  destruct (sorted_nums l) as [r'|e]; cbn [mbind result_bind Py.bind]; [|done].
  destruct (IH r' eq_refl) as [Hperm Hl]. intros H.
  split; [by rewrite (insert_num_perm _ _ _ H), Hperm|].
  destruct r' as [|y r'].
  { apply Permutation_nil_l in Hperm as <-.
    destruct x as [x|]; [right; by exists [x]|by left]. }
  cbn [insert_num] in H.
  destruct y as [y|], x as [x|]; try done.
  right. destruct Hl as [->|[l' ->]].
  - assert (Some y ∈ [@None string]) as Hy by (rewrite <- Hperm; left).
    by apply list_elem_of_singleton in Hy.
  - by exists (x :: l').
Qed.

Lemma sorted_nums_mixed l x :
  None ∈ l -> Some x ∈ l -> exists what, sorted_nums l = Raise (TypeError what).
Proof.
  intros Hnone Hsome. destruct (sorted_nums l) as [r|e] eqn:E.
  - apply sorted_nums_ok in E as [_ [->|[l' ->]]].
    + apply list_elem_of_singleton in Hsome. done.
    + apply list_elem_of_fmap in Hnone as (y & [=] & _).
  - apply sorted_nums_raises in E as [what ->]. eauto.
Qed.

Lemma sorted_strict l : NoDup l -> StronglySorted (fun x y => str_lt x y = true) (sorted l).
Proof.
  intros Hnd. pose proof (sorted_sorted l) as Hs.
  assert (NoDup (sorted l)) as Hnd' by by rewrite sorted_perm.
  induction Hs as [|x r Hr IH Hx]; [constructor|].
  apply NoDup_cons in Hnd' as [Hx' Hnd']. constructor; [by apply IH|].
  apply Forall_forall. intros y Hy. apply str_le_neq_lt.
  - by apply (proj1 (Forall_forall _ _) Hx).
  - intros ->. done.
Qed.

End MissingChapters.

Section MissingChaptersRun.
Import Console Catalog.

Lemma all_some (l : list (option string)) : None ∉ l -> l = map Some (omap id l).
Proof.
  induction l as [|[x|] l IH]; intros H; [done| |].
  - cbn. f_equal. apply IH. intros Hin. apply H. by right.
  - destruct H. left.
Qed.

Lemma only_none (l : list (option string)) :
  NoDup l -> None ∈ l -> (forall s, Some s ∉ l) -> l = [None].
Proof.
  intros Hnd Hnone Hsome. destruct l as [|[x|] l]; [by apply elem_of_nil in Hnone| |].
  - destruct (Hsome x). left.
  - f_equal. destruct l as [|[y|] l]; [done| |].
    + destruct (Hsome y). right. left.
    + apply NoDup_cons in Hnd as [Hnd _]. destruct Hnd. left.
Qed.

Lemma missing_chapters_run (lang : string) (chapters all_chapters : list chapter)
    (T A : gset (option string)) (st : state unit message) :
  chapter_nums chapters = Ok T -> chapter_nums all_chapters = Ok A ->
  missing_chapters lang chapters all_chapters st
  = match sorted_nums (elements (A ∖ T)) with
    | Ok [] => (st, Ok [])
    | Ok l => ({| world := world st; stdin := stdin st;
                  stdout := stdout st ++ [NotAvailable lang l] |}, Ok l)
    | Raise e => (st, Raise e)
    end.
Proof.
  intros HT HA. unfold missing_chapters. rewrite HT, HA.
  unfold mbind at 1 2, console_bind at 1 2, lift at 1 2.
  unfold mbind, console_bind, lift.
  destruct (sorted_nums _) as [[|x l]|e]; done.
Qed.

End MissingChaptersRun.

(** X27.  [check_chapter_availability] once the two lists of chapters are
    in hand.  The chapter numbers that occur in some language and not in
    the asked one are sorted; when a chapter without number (null) is among
    them together with a numbered one, the sort compares [None] with a
    [str] and the function ends with [TypeError], which neither handler
    catches.  Otherwise it returns these numbers, each once, in
    increasing order of [<] on [str], and prints the note exactly when
    there are any. *)
Theorem missing_chapters_sorted (translated_language : string)
    (chapters all_chapters : list Catalog.chapter) (T A : gset (option string))
    (st : Console.state unit Catalog.message) :
  Catalog.chapter_nums chapters = Ok T -> Catalog.chapter_nums all_chapters = Ok A ->
  let mixed := None ∈ A ∖ T /\ exists s, Some s ∈ A ∖ T in
  (mixed ->
   exists what,
     Catalog.missing_chapters translated_language chapters all_chapters st
     = (st, Raise (TypeError what)))
  /\ (~ mixed ->
      exists missing,
        Catalog.missing_chapters translated_language chapters all_chapters st
        = ({| Console.world := Console.world st;
              Console.stdin := Console.stdin st;
              Console.stdout :=
                Console.stdout st
                ++ match missing with
                   | [] => []
                   | _ => [Catalog.NotAvailable translated_language missing]
                   end |}, Ok missing)
        /\ (forall x, x ∈ missing <-> x ∈ A ∖ T)
        /\ StronglySorted nums_lt missing).
Proof.
  intros HT HA mixed.
  rewrite (missing_chapters_run translated_language chapters all_chapters T A st HT HA).
  split.
  - intros [Hnone [s Hs]].
    destruct (sorted_nums_mixed (elements (A ∖ T)) s) as [what ->];
      [by apply elem_of_elements..|]. eauto.
  - intros Hmixed.
    assert (forall l : list (option string),
              Catalog.sorted_nums (elements (A ∖ T)) = Ok l ->
              (forall x, x ∈ l <-> x ∈ A ∖ T) -> StronglySorted nums_lt l ->
              exists missing,
                match Catalog.sorted_nums (elements (A ∖ T)) with
                | Ok [] => (st, Ok [])
                | Ok l =>
                    ({| Console.world := Console.world st; Console.stdin := Console.stdin st;
                        Console.stdout :=
                          Console.stdout st
                          ++ [Catalog.NotAvailable translated_language l] |}, Ok l)
                | Raise e => (st, Raise e)
                end
                = ({| Console.world := Console.world st;
                      Console.stdin := Console.stdin st;
                      Console.stdout :=
                        Console.stdout st
                        ++ match missing with
                           | [] => []
                           | _ => [Catalog.NotAvailable translated_language missing]
                           end |}, Ok missing)
                /\ (forall x, x ∈ missing <-> x ∈ A ∖ T)
                /\ StronglySorted nums_lt missing) as Hdone.
    { intros l -> Hl Hs. exists l. split; [|done].
      destruct l; [|done]. rewrite app_nil_r. by destruct st. }
    destruct (decide (None ∈ A ∖ T)) as [Hnone|Hnone].
    + apply (Hdone [None]).
      * rewrite (only_none (elements (A ∖ T))); [done|apply NoDup_elements| |].
        -- by apply elem_of_elements.
        -- intros s Hs. apply Hmixed. split; [done|]. exists s. by apply elem_of_elements.
      * intros x. rewrite list_elem_of_singleton. split; [by intros ->|].
        intros Hx. destruct x as [s|]; [|done]. destruct Hmixed. split; eauto.
      * repeat constructor.
    + pose proof (all_some (elements (A ∖ T))) as Hl.
      rewrite elem_of_elements in Hl. specialize (Hl Hnone).
      apply (Hdone (map Some (sorted (omap id (elements (A ∖ T)))))).
      * rewrite Hl at 1. apply sorted_nums_some.
      * intros x. rewrite <- elem_of_elements. rewrite Hl at 2.
        rewrite !list_elem_of_fmap. by setoid_rewrite sorted_perm.
      * assert (NoDup (omap id (elements (A ∖ T)))) as Hnd.
        { pose proof (NoDup_elements (A ∖ T)) as H. rewrite Hl in H.
          by apply NoDup_fmap in H; [|apply _]. }
        pose proof (sorted_strict _ Hnd) as Hs. clear -Hs.
        induction Hs as [|x l Hl IH Hx]; [constructor|].
        cbn [map]. constructor; [done|]. apply Forall_fmap. done.
Qed.

Lemma missing_chapters_sorted_witness :
  exists what,
    Catalog.missing_chapters "en" [numbered (Downloader.Label "1")]
      [numbered (Downloader.Label "1"); numbered Downloader.Null;
       numbered (Downloader.Label "2")] (console [])
    = (console [], Raise (TypeError what)).
Proof.
  apply (proj1 (missing_chapters_sorted "en" [numbered (Downloader.Label "1")]
                  [numbered (Downloader.Label "1"); numbered Downloader.Null;
                   numbered (Downloader.Label "2")]
                  (list_to_set [Some "1"]) (list_to_set [Some "1"; None; Some "2"])
                  (console []) eq_refl eq_refl)).
  split.
  - apply (bool_decide_unpack _). vm_compute. exact I.
  - exists "2". apply (bool_decide_unpack _). vm_compute. exact I.
Defined.

(** ** downloader.py: [get_chapters] *)

Section Grouping.
Import Catalog.

Lemma attr_of_inj k k' : attr_of k = attr_of k' -> k = k'.
Proof. destruct k, k'; simpl; congruence. Qed.

Lemma chapter_num_attr ch k : chapter_num ch = Ok k <-> attr_chapter ch = attr_of k.
Proof.
  unfold chapter_num. destruct (attr_chapter ch), k; simpl; split; congruence.
Qed.

Lemma add_version_keys k ch groups :
  map fst (add_version k ch groups)
  = if decide (k ∈ map fst groups) then map fst groups else map fst groups ++ [k].
Proof.
  induction groups as [|[k0 vs0] groups IH]; cbn [add_version map fst].
  - destruct (decide (k ∈ [])) as [H|H]; [by apply elem_of_nil in H|done].
  - destruct (decide (k0 = k)) as [->|Hne].
    + cbn [map fst]. destruct (decide (k ∈ k :: map fst groups)) as [H|H]; [done|].
      destruct H. left.
    + cbn [map fst]. rewrite IH. destruct (decide (k ∈ map fst groups)) as [H|H].
      * destruct (decide (k ∈ k0 :: map fst groups)) as [H'|H']; [done|]. destruct H'. by right.
      * destruct (decide (k ∈ k0 :: map fst groups)) as [H'|H']; [|done].
        apply elem_of_cons in H' as [->|H']; done.
Qed.

Lemma add_version_elem k ch groups k' vs' :
  NoDup (map fst groups) ->
  (k', vs') ∈ add_version k ch groups
  <-> (k' <> k /\ (k', vs') ∈ groups)
      \/ (k' = k /\ ((exists vs, (k, vs) ∈ groups /\ vs' = vs ++ [ch])
                     \/ ((k ∉ map fst groups) /\ vs' = [ch]))).
Proof.
  induction groups as [|[k0 vs0] groups IH]; intros Hnd; cbn [add_version].
  - rewrite list_elem_of_singleton. split.
    + intros [= -> ->]. right. split; [done|]. right. split; [apply not_elem_of_nil|done].
    + intros [[_ H]|[-> [(vs & H & _)|[_ ->]]]]; [by apply elem_of_nil in H..|done].
  - cbn [map fst] in Hnd. apply NoDup_cons in Hnd as [Hk0 Hnd].
    assert (forall vs, (k0, vs) ∉ groups) as Hk0'.
    { intros vs H. apply Hk0. apply list_elem_of_fmap. by exists (k0, vs). }
    destruct (decide (k0 = k)) as [->|Hne].
    + rewrite !elem_of_cons. split.
      * intros [[= -> ->]|H].
        -- right. split; [done|]. left. exists vs0. split; [by left|done].
        -- left. split; [|by right]. intros ->. by apply (Hk0' vs').
      * intros [[Hne [[= ] |H]]|[-> [(vs & H & ->)|[H _]]]]; [done|by right| |].
        -- apply elem_of_cons in H as [[= ->]|H]; [by left|]. by destruct (Hk0' vs).
        -- destruct H. left.
    + rewrite !elem_of_cons, (IH Hnd). cbn [map fst]. split.
      * intros [[= -> ->]|[[Hne' H]|[-> [(vs & H & ->)|[H ->]]]]].
        -- left. split; [done|by left].
        -- left. split; [done|by right].
        -- right. split; [done|]. left. exists vs. split; [by right|done].
        -- right. split; [done|]. right. split; [|done].
           rewrite not_elem_of_cons. split; [done|done].
      * intros [[Hne' [[= -> ->]|H]]|[-> [(vs & H & ->)|[H ->]]]].
        -- by left.
        -- right. left. done.
        -- apply elem_of_cons in H as [[= ]|H]; [done|]. right. right. split; [done|]. eauto.
        -- apply not_elem_of_cons in H as [_ H]. right. right. split; [done|]. eauto.
Qed.

Lemma add_version_nodup k ch groups :
  NoDup (map fst groups) -> NoDup (map fst (add_version k ch groups)).
Proof.
  intros Hnd. rewrite add_version_keys.
  destruct (decide (k ∈ map fst groups)) as [H|H]; [done|].
  apply NoDup_app. split; [done|]. split; [|apply NoDup_singleton].
  intros x Hx Hx'. apply list_elem_of_singleton in Hx' as ->. done.
Qed.

Lemma grouped_nil : grouped [] [].
Proof.
  split; [constructor|]. intros k vs. split; [by intros H; apply elem_of_nil in H|].
  by intros [-> H].
Qed.

Lemma grouped_add seen groups k ch :
  grouped seen groups -> attr_chapter ch = attr_of k ->
  grouped (seen ++ [ch]) (add_version k ch groups).
Proof.
  intros [Hnd Hg] Hch. split; [by apply add_version_nodup|].
  intros k' vs'. rewrite (add_version_elem _ _ _ _ _ Hnd), List.filter_app.
  cbn [List.filter]. rewrite Hch.
  assert (k ∈ map fst groups
          <-> List.filter (fun c => bool_decide (attr_chapter c = attr_of k)) seen <> [])
    as Hkey.
  { rewrite list_elem_of_fmap. split.
    - intros ([k0 vs] & E & H). simpl in E. subst k0. apply Hg in H as [E H]. by rewrite <- E.
    - intros H. eexists (k, _). split; [done|]. by apply Hg. }
  split.
  - intros [[Hne H]|[-> [(vs & H & ->)|[H ->]]]].
    + apply Hg in H as [-> H].
      rewrite bool_decide_false; [|intros E; by apply attr_of_inj in E].
      by rewrite app_nil_r.
    + apply Hg in H as [-> H]. rewrite bool_decide_true by done. split; [done|].
      by intros [_ [=]]%app_eq_nil.
    + rewrite bool_decide_true by done.
      destruct (List.filter _ seen) eqn:E; [done|]. destruct H. apply Hkey. by rewrite ?E.
  - destruct (decide (k' = k)) as [->|Hne].
    + rewrite bool_decide_true by done. intros [-> _]. right. split; [done|].
      destruct (List.filter _ seen) eqn:E.
      * right. split; [|done]. rewrite Hkey, ?E. by intros H.
      * left. eexists. split; [|done]. apply Hg. rewrite ?E. done.
    + rewrite bool_decide_false; [|intros E; by apply attr_of_inj in E].
      rewrite app_nil_r. intros H. left. split; [done|]. by apply Hg.
Qed.

Lemma group_chapters_grouped chapters : forall seen acc groups,
  grouped seen acc -> group_chapters chapters acc = Ok groups ->
  grouped (seen ++ hosted chapters) groups.
Proof.
  induction chapters as [|ch chapters IH]; intros seen acc groups Hacc.
  { intros [= <-]. unfold hosted. cbn. by rewrite app_nil_r. }
  cbn [group_chapters]. unfold hosted. cbn [List.filter].
  destruct (is_external ch); cbn [negb]; [by apply IH|].
  destruct (chapter_num ch) as [k|e] eqn:E; [|done]. cbn [mbind result_bind Py.bind].
  intros H. apply chapter_num_attr in E.
  replace (seen ++ ch :: List.filter (fun c => negb (is_external c)) chapters)
    with ((seen ++ [ch]) ++ hosted chapters) by by rewrite <- app_assoc.
  eapply IH; [|done]. by apply grouped_add.
Qed.

Lemma group_chapters_labelled chapters : forall acc groups ch,
  group_chapters chapters acc = Ok groups -> ch ∈ hosted chapters ->
  attr_chapter ch <> Downloader.Absent.
Proof.
  induction chapters as [|c chapters IH]; intros acc groups ch.
  { intros _ H. by apply elem_of_nil in H. }
  cbn [group_chapters]. unfold hosted. cbn [List.filter].
  destruct (is_external c); cbn [negb]; [by apply IH|].
  destruct (chapter_num c) as [k|e] eqn:E; [|done]. cbn [mbind result_bind Py.bind].
  intros H Hin. apply elem_of_cons in Hin as [->|Hin]; [|by eapply IH].
  apply chapter_num_attr in E. rewrite E. by destruct k.
Qed.

Lemma grouped_versions chapters groups k vs :
  grouped (hosted chapters) groups -> (k, vs) ∈ groups ->
  vs = versions_of chapters (attr_of k) /\ vs <> [].
Proof. intros [_ Hg] H. by apply Hg. Qed.

End Grouping.

Section Selecting.
Import PyText Console Catalog.

Lemma version_loop_elem chapter_num versions fuel : forall st st' v,
  version_loop chapter_num versions fuel st = (st', Ok (Some v)) -> v ∈ versions.
Proof.
  induction fuel as [|x fuel IH]; intros st st' v; cbn [version_loop].
  - unfold mbind, console_bind, input. by destruct (stdin st).
  - unfold mbind at 1. unfold console_bind at 1. unfold input.
    destruct (stdin st) as [|line rest]; [done|].
    destruct (String.eqb _ _); [done|].
    destruct (int line) as [i|[]]; try done.
    + destruct (_ && _).
      * destruct (versions !! _) as [v'|] eqn:E; [|done].
        intros [= _ <-]. by eapply list_elem_of_lookup_2.
      * unfold mbind, console_bind, print. apply IH.
    + unfold mbind, console_bind, print. apply IH.
Qed.

Lemma preferred_version_elem preferred_group versions v :
  preferred_version preferred_group versions = Some v -> v ∈ versions.
Proof.
  unfold preferred_version. destruct preferred_group as [g|]; [|done].
  destruct (String.eqb g ""); [done|]. intros H. apply find_some in H as [H _].
  by apply list_elem_of_In.
Qed.

Lemma select_version_elem preferred_group chapter_num versions st st' choice :
  select_version preferred_group chapter_num versions st = (st', Ok choice) ->
  match choice with
  | Some v => v ∈ versions
  | None => length versions <> 1%nat
  end.
Proof.
  unfold select_version.
  assert (forall st1, (match preferred_version preferred_group versions with
                       | Some version => mret (Some version)
                       | None =>
                           _ ← print (MultipleVersions chapter_num);
                           _ ← print_all (imap version_entry versions);
                           by_stdin (version_loop chapter_num versions)
                       end) st1 = (st', Ok choice) ->
            length versions <> 1%nat ->
            match choice with
            | Some v => v ∈ versions
            | None => length versions <> 1%nat
            end) as Hmany.
  { intros st1 H Hlen.
    destruct (preferred_version _ _) as [v|] eqn:E.
    - injection H as _ <-. by eapply preferred_version_elem.
    - destruct choice as [v|]; [|done].
      unfold mbind, console_bind, print, print_all, by_stdin in H.
      by eapply version_loop_elem. }
  destruct versions as [|v [|v' versions]].
  - intros H. by eapply Hmany.
  - intros [= _ <-]. left.
  - intros H. by eapply Hmany.
Qed.

Lemma select_chapters_picked preferred_group groups : forall selected st st' result,
  select_chapters preferred_group groups selected st = (st', Ok result) ->
  exists picks, result = selected ++ picks /\ picked groups picks.
Proof.
  induction groups as [|[k vs] groups IH]; intros selected st st' result; cbn [select_chapters].
  - intros [= _ <-]. exists []. split; [by rewrite app_nil_r|constructor].
  - intros H. apply run_bind_inv in H as [(st1 & choice & H1 & H2)|(e & _ & [=])].
    apply select_version_elem in H1. apply IH in H2 as (picks & -> & Hp).
    destruct choice as [v|].
    + exists (v :: picks). split; [by rewrite <- app_assoc|]. by constructor.
    + exists picks. split; [done|]. by constructor.
Qed.

Lemma picked_elem groups picks v :
  picked groups picks -> v ∈ picks -> exists k vs, (k, vs) ∈ groups /\ v ∈ vs.
Proof.
  induction 1 as [|k vs v' groups picks Hv Hp IH|k vs groups picks Hlen Hp IH]; intros Hin.
  - by apply elem_of_nil in Hin.
  - apply elem_of_cons in Hin as [->|Hin].
    + exists k, vs. split; [left|done].
    + destruct (IH Hin) as (k' & vs' & H1 & H2). exists k', vs'. split; [by right|done].
  - destruct (IH Hin) as (k' & vs' & H1 & H2). exists k', vs'. split; [by right|done].
Qed.

Lemma picked_single groups picks k v :
  picked groups picks -> (k, [v]) ∈ groups -> v ∈ picks.
Proof.
  induction 1 as [|k' vs v' groups picks Hv Hp IH|k' vs groups picks Hlen Hp IH]; intros Hin.
  - by apply elem_of_nil in Hin.
  - apply elem_of_cons in Hin as [[= <- <-]|Hin].
    + apply list_elem_of_singleton in Hv as ->. left.
    + right. by apply IH.
  - apply elem_of_cons in Hin as [[= <- <-]|Hin]; [done|]. by apply IH.
Qed.

Lemma picked_labels groups picks :
  picked groups picks ->
  (forall k vs v, (k, vs) ∈ groups -> v ∈ vs -> attr_chapter v = attr_of k) ->
  map attr_chapter picks `sublist_of` map (fun g => attr_of (fst g)) groups.
Proof.
  induction 1 as [|k vs v groups picks Hv Hp IH|k vs groups picks Hlen Hp IH]; intros Hl.
  - constructor.
  - cbn [map fst]. rewrite (Hl k vs v); [|left|done].
    apply sublist_skip, IH. intros k' vs' v' H. apply Hl. by right.
  - cbn [map fst]. apply sublist_cons, IH. intros k' vs' v' H. apply Hl. by right.
Qed.

Lemma filter_elem {A} (f : A -> bool) l x : x ∈ List.filter f l <-> x ∈ l /\ f x = true.
Proof. rewrite !list_elem_of_In. apply filter_In. Qed.

End Selecting.

(** X24.  What [get_chapters] returns, whatever is typed at its
    questions.  Every chapter returned is one of the chapters received and
    is no external link; no two chapters returned have the same chapter
    number; and a chapter that is the only hosted version of its number is
    always returned. *)
Theorem choose_chapters_sound (chapters : list Catalog.chapter)
    (st st' : Console.state unit Catalog.message) (selected : list Catalog.chapter) :
  Catalog.choose_chapters chapters st = (st', Ok selected) ->
  (forall v, v ∈ selected -> v ∈ chapters /\ Catalog.is_external v = false)
  /\ NoDup (map Catalog.attr_chapter selected)
  /\ (forall ch, versions_of chapters (Catalog.attr_chapter ch) = [ch] -> ch ∈ selected).
Proof.
  intros H. unfold Catalog.choose_chapters in H.
  apply run_bind_inv in H as [(st1 & groups & H1 & H)|(e & _ & [=])].
  apply run_bind_inv in H as [(st2 & preferred_group & _ & H)|(e & _ & [=])].
  unfold Console.lift in H1.
  destruct (Catalog.group_chapters chapters []) as [groups'|e] eqn:Hgroups; [|done].
  injection H1 as _ ->.
  pose proof (group_chapters_labelled chapters [] groups) as Hlabelled.
  specialize (fun ch => Hlabelled ch Hgroups).
  apply (group_chapters_grouped chapters [] [] groups grouped_nil) in Hgroups.
  cbn [app] in Hgroups.
  apply select_chapters_picked in H as (picks & -> & Hp). cbn [app].
  assert (forall k vs v, (k, vs) ∈ groups -> v ∈ vs ->
            v ∈ hosted chapters /\ Catalog.attr_chapter v = attr_of k) as Hin.
  { intros k vs v Hk Hv. apply (grouped_versions chapters) in Hk as [-> _]; [|done].
    apply filter_elem in Hv as [Hv Hl]. split; [done|]. by apply bool_decide_eq_true in Hl. }
  split; [|split].
  - intros v Hv. destruct (picked_elem _ _ _ Hp Hv) as (k & vs & Hk & Hv').
    destruct (Hin k vs v Hk Hv') as [Hh _]. apply filter_elem in Hh as [Hc He].
    split; [done|]. by apply negb_true_iff.
  - eapply sublist_NoDup; [|apply (picked_labels _ _ Hp)].
    + destruct Hgroups as [Hnd _].
      change (map (fun g : option string * list Catalog.chapter => attr_of g.1) groups)
        with (map (attr_of ∘ fst) groups).
      rewrite (list_fmap_compose fst attr_of).
      apply NoDup_fmap_2; [|done]. intros k k'. apply attr_of_inj.
    + intros k vs v Hk Hv. by destruct (Hin k vs v Hk Hv).
  - intros ch Hch.
    assert (ch ∈ versions_of chapters (Catalog.attr_chapter ch)) as Hv
      by (rewrite Hch; left).
    apply filter_elem in Hv as [Hh _].
    assert (exists k, Catalog.attr_chapter ch = attr_of k) as [k Hk].
    { destruct Hgroups as [_ Hg].
      destruct (Catalog.attr_chapter ch) as [| |s] eqn:E.
      - by destruct (Hlabelled ch Hh).
      - by exists None.
      - by exists (Some s). }
    apply (picked_single groups picks k); [done|].
    destruct Hgroups as [_ Hg]. apply Hg. unfold versions_of in Hch.
    rewrite <- Hk, Hch. done.
Qed.

Lemma choose_chapters_sound_witness :
  NoDup (map Catalog.attr_chapter [version "b" "1" "Beta Scans"; version "c" "2" "Alpha Scans"]).
Proof.
  refine (proj1 (proj2 (choose_chapters_sound sample_versions (console [""; "2"])
                          (fst (Catalog.choose_chapters sample_versions (console [""; "2"])))
                          [version "b" "1" "Beta Scans"; version "c" "2" "Alpha Scans"] _))).
  vm_compute. reflexivity.
Defined.

Section Plain.
Import PyText Console Catalog.

Lemma add_version_new k ch groups :
  k ∉ map fst groups -> add_version k ch groups = groups ++ [(k, [ch])].
Proof.
  induction groups as [|[k0 vs0] groups IH]; intros Hk; [done|].
  cbn [map fst] in Hk. apply not_elem_of_cons in Hk as [Hne Hk].
  cbn [add_version]. destruct (decide (k0 = k)) as [->|_]; [done|].
  by rewrite IH.
Qed.

Lemma attr_of_key_of ch :
  attr_chapter ch <> Downloader.Absent -> attr_of (key_of ch) = attr_chapter ch.
Proof. unfold key_of. by destruct (attr_chapter ch). Qed.

Lemma group_chapters_single chapters : forall acc,
  NoDup (map (fun g => attr_of (fst g)) acc ++ map attr_chapter (hosted chapters)) ->
  Downloader.Absent ∉ map attr_chapter (hosted chapters) ->
  group_chapters chapters acc
  = Ok (acc ++ map (fun ch => (key_of ch, [ch])) (hosted chapters)).
Proof.
  induction chapters as [|ch chapters IH]; intros acc Hnd Habs.
  { cbn. by rewrite app_nil_r. }
  cbn [group_chapters]. unfold hosted in *. cbn [List.filter] in *.
  destruct (is_external ch); cbn [negb] in *; [by apply IH|].
  cbn [map] in Hnd, Habs. apply not_elem_of_cons in Habs as [Hch Habs].
  assert (chapter_num ch = Ok (key_of ch)) as ->.
  { apply chapter_num_attr. by rewrite attr_of_key_of. }
  cbn [mbind result_bind Py.bind].
  rewrite add_version_new.
  - rewrite IH; [by rewrite <- app_assoc| |done].
    rewrite map_app. cbn [map fst]. rewrite attr_of_key_of by done.
    by rewrite <- app_assoc.
  - intros Hin. apply NoDup_app in Hnd as (_ & Hnd & _).
    apply (Hnd (attr_chapter ch)); [|left].
    apply list_elem_of_fmap in Hin as ([k vs] & E & Hin). simpl in E. subst k.
    apply list_elem_of_fmap. exists (key_of ch, vs). split; [|done].
    simpl. by rewrite attr_of_key_of.
Qed.

Lemma select_singles preferred_group l : forall selected st,
  select_chapters preferred_group (map (fun ch => (key_of ch, [ch])) l) selected st
  = (st, Ok (selected ++ l)).
Proof.
  induction l as [|ch l IH]; intros selected st; [cbn; by rewrite app_nil_r|].
  cbn [map select_chapters select_version]. run. rewrite IH. by rewrite <- app_assoc.
Qed.

Lemma concat_singles {A B} (f : A -> B) (l : list A) :
  concat (map snd (map (fun x => (f x, [x])) l)) = l.
Proof. induction l as [|x l IH]; [done|]. cbn. by rewrite IH. Qed.

End Plain.

(** X25.  The plain case of [get_chapters].  When no two hosted
    chapters have the same number, each has the key for it, and the
    scanlation groups named by the hosted chapters are one at most,
    [get_chapters] asks nothing and prints nothing, and returns the hosted
    chapters in the order of the catalog. *)
Theorem choose_chapters_plain (chapters : list Catalog.chapter)
    (st : Console.state unit Catalog.message) :
  NoDup (map Catalog.attr_chapter (hosted chapters)) ->
  Downloader.Absent ∉ map Catalog.attr_chapter (hosted chapters) ->
  (size (list_to_set (concat (map Catalog.group_names (hosted chapters))) : gset string) <= 1)%nat ->
  Catalog.choose_chapters chapters st = (st, Ok (hosted chapters)).
Proof.
  intros Hnd Habs Hsize. unfold Catalog.choose_chapters.
  rewrite (group_chapters_single chapters []); [|done|done].
  run. cbn [app]. unfold Catalog.all_groups. rewrite concat_singles.
  unfold Catalog.choose_group. rewrite bool_decide_false by lia. run.
  by rewrite select_singles.
Qed.

Lemma choose_chapters_plain_witness :
  Catalog.choose_chapters [version "a" "1" "Alpha Scans"; version "c" "2" "Alpha Scans"]
    (console ["1"])
  = (console ["1"], Ok [version "a" "1" "Alpha Scans"; version "c" "2" "Alpha Scans"]).
Proof.
  apply (choose_chapters_plain [version "a" "1" "Alpha Scans"; version "c" "2" "Alpha Scans"]
           (console ["1"])).
  - apply (bool_decide_unpack _). vm_compute. exact I.
  - apply (bool_decide_unpack _). vm_compute. exact I.
  - vm_compute. lia.
Defined.

Section Preferred.
Import PyText Console Catalog.

Lemma lstrip_chars p s c :
  c ∈ list_ascii_of_string (lstrip p s) -> c ∈ list_ascii_of_string s.
Proof.
  induction s as [|a s IH]; [done|]. cbn [lstrip]. destruct (p a); [|done].
  intros H. cbn. right. by apply IH.
Qed.

Lemma rstrip_chars p s c :
  c ∈ list_ascii_of_string (rstrip p s) -> c ∈ list_ascii_of_string s.
Proof.
  unfold rstrip. rewrite list_ascii_of_string_of_list_ascii.
  rewrite list_elem_of_In, <- in_rev, <- list_elem_of_In. intros H%lstrip_chars.
  rewrite list_ascii_of_string_of_list_ascii in H.
  by rewrite list_elem_of_In, <- in_rev, <- list_elem_of_In in H.
Qed.

Lemma lstrip_blank p s :
  lstrip p s = "" -> Forall (fun c => p c = true) (list_ascii_of_string s).
Proof.
  induction s as [|a s IH]; [constructor|]. cbn [lstrip]. destruct (p a) eqn:E; [|done].
  intros H. cbn. constructor; [done|by apply IH].
Qed.

Lemma lstrip_split p s :
  exists w, list_ascii_of_string s = w ++ list_ascii_of_string (lstrip p s)
            /\ Forall (fun c => p c = true) w.
Proof.
  induction s as [|a s (w & Hs & Hw)]; [by exists []|].
  cbn [lstrip]. destruct (p a) eqn:E.
  - exists (a :: w). cbn. rewrite Hs. split; [done|by constructor].
  - by exists [].
Qed.

Lemma strip_blank s :
  strip s = "" -> Forall (fun c => is_space c = true) (list_ascii_of_string s).
Proof.
  unfold strip, rstrip. intros H.
  apply (f_equal list_ascii_of_string) in H.
  rewrite list_ascii_of_string_of_list_ascii in H. cbn in H.
  apply (f_equal (@rev ascii)) in H. rewrite rev_involutive in H. cbn in H.
  apply (f_equal string_of_list_ascii) in H.
  rewrite string_of_list_ascii_of_string in H. cbn in H.
  apply lstrip_blank in H. rewrite list_ascii_of_string_of_list_ascii in H.
  destruct (lstrip_split is_space s) as (w & -> & Hw).
  apply Forall_app. split; [done|].
  apply Forall_forall. intros c Hc. apply (proj1 (Forall_forall _ _) H).
  by rewrite list_elem_of_In, <- in_rev, <- list_elem_of_In.
Qed.

Lemma int_has_digit s i :
  int s = Ok i -> exists c, c ∈ list_ascii_of_string s /\ is_digit c = true.
Proof.
  unfold int.
  set (t := rstrip int_space (lstrip int_space s)).
  assert (forall c, c ∈ list_ascii_of_string t -> c ∈ list_ascii_of_string s) as Ht.
  { intros c H. unfold t in H. by apply rstrip_chars, lstrip_chars in H. }
  assert (forall body, (forall c, c ∈ list_ascii_of_string body -> c ∈ list_ascii_of_string s) ->
            forall negative,
              match int_digits false body with
              | Some digits =>
                  if (length digits <=? int_max_str_digits)%nat
                  then Ok (if negative : bool
                           then - digits_value (string_of_list_ascii digits)
                           else digits_value (string_of_list_ascii digits))
                  else Raise (ValueError "Exceeds the limit for integer string conversion")
              | None => Raise (ValueError "invalid literal for int() with base 10")
              end = Ok i ->
              exists c, c ∈ list_ascii_of_string s /\ is_digit c = true) as Hbody.
  { intros body Hb negative. destruct body as [|c body]; [done|].
    cbn [int_digits]. destruct (is_digit c) eqn:E.
    - intros _. exists c. split; [|done]. apply Hb. left.
    - rewrite andb_false_r. done. }
  destruct t as [|a t']; [done|].
  destruct (Ascii.eqb_spec a "-") as [->|Hm].
  { apply (fun H => Hbody t' H true). intros c H. apply Ht. by right. }
  destruct (Ascii.eqb_spec a "+") as [->|Hp].
  { apply (fun H => Hbody t' H false). intros c H. apply Ht. by right. }
  assert (match String a t' with
          | String "-" body => (true, body)
          | String "+" body => (false, body)
          | _ => (false, String a t')
          end = (false, String a t')) as ->.
  { destruct a as [[] [] [] [] [] [] [] []]; done. }
  by apply (fun H => Hbody (String a t') H false).
Qed.

Lemma int_not_blank s i : int s = Ok i -> String.eqb (strip s) "" = false.
Proof.
  intros H. apply String.eqb_neq. intros Hblank.
  apply int_has_digit in H as (c & Hc & Hd). apply strip_blank in Hblank.
  pose proof (proj1 (Forall_forall _ _) Hblank c Hc) as Hs. simpl in Hs.
  by rewrite (digit_not_space c Hd) in Hs.
Qed.

Lemma choose_group_pick (groups : gset string) st k i g rest :
  (1 < size groups)%nat -> stdin st = k :: rest -> int k = Ok i -> 1 <= i ->
  sorted (elements groups) !! Z.to_nat (i - 1) = Some g ->
  choose_group groups st
  = ({| world := world st; stdin := rest;
        stdout := stdout st ++ [MultipleGroups]
                  ++ imap (fun i group => GroupEntry (S i) group) (sorted (elements groups))
                  ++ [SelectedGroup g] |}, Ok (Some g)).
Proof.
  intros Hsize Hin Hint Hi Hlook. unfold choose_group.
  rewrite bool_decide_true by done. cbn zeta. run. run.
  unfold by_stdin. cbn [stdin print print_all]. rewrite Hin. cbn [preferred_loop].
  run. rewrite (int_not_blank _ _ Hint), Hint.
  pose proof (lookup_lt_Some _ _ _ Hlook) as Hlt.
  replace ((1 <=? i) && (i <=? Z.of_nat (length (sorted (elements groups))))) with true
    by (symmetry; apply andb_true_iff; split; apply Z.leb_le; lia).
  rewrite Hlook. run. cbn. by rewrite <- !app_assoc.
Qed.

Lemma select_preferred g groups : forall selected st,
  g <> "" ->
  (forall num vs, (num, vs) ∈ groups -> length vs <> 1%nat ->
                  exists v, v ∈ vs /\ g ∈ group_names v) ->
  select_chapters (Some g) groups selected st
  = (st, Ok (selected ++ omap (fun kv => version_by g (snd kv)) groups)).
Proof.
  intros selected st Hg. revert selected st.
  induction groups as [|[k vs] groups IH]; intros selected st Hall.
  { cbn. by rewrite app_nil_r. }
  cbn [select_chapters omap list_omap snd].
  assert (exists v, version_by g vs = Some v
                    /\ select_version (Some g) k vs st = (st, Ok (Some v))) as (v & Hv & Hsel).
  { destruct (List.find (fun version => bool_decide (g ∈ group_names version)) vs) as [v|] eqn:E.
    - exists v. unfold version_by, select_version, preferred_version.
      apply String.eqb_neq in Hg. rewrite Hg, E.
      destruct vs as [|v0 [|v1 vs]]; [done| |done].
      cbn in E. destruct (bool_decide _); [|done]. by injection E as ->.
    - destruct (decide (length vs = 1%nat)) as [Hlen|Hlen].
      + destruct vs as [|v [|v' vs]]; try done. by exists v.
      + destruct (Hall k vs) as (v & Hin & Hgv); [left|done|].
        apply list_elem_of_In in Hin. apply (find_none _ _ E) in Hin.
        by rewrite bool_decide_true in Hin. }
  erewrite run_bind by exact Hsel. rewrite Hv, IH.
  - by rewrite <- app_assoc.
  - intros num vs' H. apply (Hall num). by right.
Qed.

End Preferred.

(** X26.  [get_chapters] with a preferred group.  When the chapters name
    more than one scanlation group, the user types a line that [int] reads
    as the number of a group of the menu, that group has a name, and every
    chapter number that has several versions has one by that group, then
    [get_chapters] reads this one line, prints the menu and the choice, asks
    nothing more, and returns for each chapter number, in the order in
    which the numbers first occur, its only version or else its first
    version by the group. *)
Theorem choose_chapters_preferred (chapters : list Catalog.chapter)
    (chapter_groups : list (option string * list Catalog.chapter))
    (st : Console.state unit Catalog.message) (k : string) (i : Z) (g : string)
    (rest : list string) :
  let groups_list := sorted (elements (Catalog.all_groups chapter_groups)) in
  Catalog.group_chapters chapters [] = Ok chapter_groups ->
  (1 < size (Catalog.all_groups chapter_groups))%nat ->
  Console.stdin st = k :: rest -> PyText.int k = Ok i -> 1 <= i ->
  groups_list !! Z.to_nat (i - 1) = Some g -> g <> "" ->
  (forall num vs, (num, vs) ∈ chapter_groups -> length vs <> 1%nat ->
                  exists v, v ∈ vs /\ g ∈ Catalog.group_names v) ->
  Catalog.choose_chapters chapters st
  = ({| Console.world := Console.world st;
        Console.stdin := rest;
        Console.stdout :=
          Console.stdout st ++ [Catalog.MultipleGroups]
          ++ imap (fun i group => Catalog.GroupEntry (S i) group) groups_list
          ++ [Catalog.SelectedGroup g] |},
     Ok (omap (fun kv => version_by g (snd kv)) chapter_groups)).
Proof.
  intros groups_list Hgroups Hsize Hin Hint Hi Hlook Hg Hall.
  unfold Catalog.choose_chapters. rewrite Hgroups. run.
  erewrite run_bind by by eapply choose_group_pick.
  by rewrite select_preferred.
Qed.

Lemma choose_chapters_preferred_witness :
  Catalog.choose_chapters sample_versions (console [" 2"; "1"])
  = ({| Console.world := tt;
        Console.stdin := ["1"];
        Console.stdout :=
          [Catalog.MultipleGroups; Catalog.GroupEntry 1 "Alpha Scans";
           Catalog.GroupEntry 2 "Beta Scans"; Catalog.SelectedGroup "Beta Scans"] |},
     Ok [version "b" "1" "Beta Scans"; version "c" "2" "Alpha Scans"]).
Proof.
  rewrite (choose_chapters_preferred sample_versions
             [(Some "1", [version "a" "1" "Alpha Scans"; version "b" "1" "Beta Scans"]);
              (Some "2", [version "c" "2" "Alpha Scans"])]
             (console [" 2"; "1"]) " 2" 2 "Beta Scans" ["1"]).
  - vm_compute. reflexivity.
  - reflexivity.
  - vm_compute. lia.
  - reflexivity.
  - vm_compute. reflexivity.
  - lia.
  - vm_compute. reflexivity.
  - discriminate.
  - intros num vs H Hlen.
    apply elem_of_cons in H as [H|H]; [|apply elem_of_cons in H as [H|H]].
    + injection H as -> ->. exists (version "b" "1" "Beta Scans").
      split; [right; left|]. apply (bool_decide_unpack _). vm_compute. exact I.
    + injection H as -> ->. by destruct Hlen.
    + by apply elem_of_nil in H.
Defined.
